(** * Payment reconciliation: PaymentManager and RechargeService.startPaymentPolling

    A shallow embedding of [src/utils/paymentManager.ts] and of the polling
    part of [src/services/recharge.ts].

    The TypeScript code is event driven: closures share mutable variables,
    timers and promises resume them later.  The embedding makes that
    explicit.  A [World] holds the manager's [state] field, the heap of
    polling closures created by [startPaymentPolling], the host's timer
    table, the outstanding [getPaymentStatus] requests, the registered DOM
    listeners and a trace of what an outside observer sees (network
    queries, invocations of caller-supplied functions, toasts).  Every
    JavaScript task (a method call, a timer firing, a response arriving, a
    DOM event) is one total function on worlds.

    Modelling conventions:
    - caller-supplied callbacks are opaque functions named by a number;
      invoking one only adds an observation to the trace (they neither
      throw nor call back into the manager);
    - [RequestService] is not part of the modelled files: a request is
      issued, stays outstanding, and is later answered by a response or by
      an error;
    - identifiers handed out by the host (timer handles, request and
      listener identities) are natural numbers taken from counters. *)

From Stdlib Require Import ZArith String List Bool Lia.
From stdpp Require Import base option list gmap.

Open Scope string_scope.
Open Scope list_scope.
Open Scope Z_scope.

(** ** Gateway data *)

(** [Taro.getEnv()] *)
Inductive EnvType := WEB | WEAPP | OTHER.

(** [PaymentStatusResponse].  A field that the gateway left out (or sent as
    [null]) is [None]; a field that is present keeps its value, which may
    be [0] or the empty string. *)
Record PaymentStatusResponse := mkResponse {
  r_orderId : string;
  r_amount : option Z;
  r_description : option string;
  r_createTime : option string;
  r_payTime : option string;
  r_attach : option string }.

(** How an awaited [getPaymentStatus] ends. *)
Inductive Outcome :=
| Resolved (r : PaymentStatusResponse)
| Rejected.

(** JavaScript truthiness of a number field and of a string field. *)
Definition truthy_num (x : option Z) : bool :=
  match x with
  | Some n => negb (n =? 0)
  | None => false
  end.

Definition truthy_str (x : option string) : bool :=
  match x with
  | Some s => negb (String.eqb s "")
  | None => false
  end.

(** [result.amount && result.description && result.createTime &&
    result.payTime && result.attach], as tested by [if (isPaymentComplete)]. *)
Definition isPaymentComplete (r : PaymentStatusResponse) : bool :=
  truthy_num (r_amount r) && truthy_str (r_description r) &&
  truthy_str (r_createTime r) && truthy_str (r_payTime r) &&
  truthy_str (r_attach r).

(** [result.attach !== expected] *)
Definition attach_differs (r : PaymentStatusResponse) (expected : string) : bool :=
  match r_attach r with
  | Some a => negb (String.eqb a expected)
  | None => true
  end.

(** The three-way branch that [poll], [checkPaymentStatusOnce] and
    [manualCheckPaymentStatus] all take on a response. *)
Inductive Verdict := Incomplete | Verified | Mismatched.

Definition classify (r : PaymentStatusResponse) (expected : string) : Verdict :=
  if isPaymentComplete r then
    if attach_differs r expected then Mismatched else Verified
  else Incomplete.

(** ** Callbacks, closures and observations *)

Inductive CbKind := KSuccess | KFailed | KTimeout.

(** Argument passed to a callback. *)
Inductive Payload :=
| PResult (r : PaymentStatusResponse)    (* the gateway response itself *)
| PMismatch (r : PaymentStatusResponse)  (* poll's object with description '订单校验失败' *)
| PQueryFailed                           (* {status: 'failed', message: '支付状态查询失败'} *)
| PNone.                                 (* onTimeout() takes no argument *)

(** The callbacks object given to [startPayment]; every member is optional. *)
Record Callbacks := mkCallbacks {
  onSuccess : option nat;
  onFailed : option nat;
  onTimeout : option nat }.

(** [{}] *)
Definition noCallbacks : Callbacks := mkCallbacks None None None.

Definition member (k : CbKind) (c : Callbacks) : option nat :=
  match k with
  | KSuccess => onSuccess c
  | KFailed => onFailed c
  | KTimeout => onTimeout c
  end.

(** A function stored in the options of [startPaymentPolling]: either a
    function the model knows nothing about, or one of the three arrow
    functions that [PaymentManager.startPolling] builds over its
    [callbacks] argument (which of the three is fixed by the option it is
    stored in). *)
Inductive Handler :=
| HOpaque (f : nat)
| HManager (cbs : Callbacks).

(** Who awaits an outstanding [getPaymentStatus]. *)
Inductive Awaiter :=
| APoll (eid : nat)   (* poll of the polling closure [eid] *)
| ACheckOnce          (* checkPaymentStatusOnce *)
| AManual.            (* manualCheckPaymentStatus *)

Inductive Toast :=
| ToastVerifyFailed            (* '订单校验失败' *)
| ToastPayFailed (p : Payload) (* result.message || '支付失败' *)
| ModalTimeout                 (* '支付状态查询超时' *)
| ToastNotPaidYet              (* '支付尚未完成' *)
| ToastQueryFailed.            (* '查询失败，请稍后重试' *)

Inductive Obs :=
| OQuery (a : Awaiter) (orderId : string)
| OCallback (k : CbKind) (f : nat) (p : Payload)
| OToast (t : Toast)
| OReturn (v : option PaymentStatusResponse)  (* manualCheckPaymentStatus resolves *)
| ORejection.                                 (* checkPaymentStatusOnce rejects *)

(** ** Mutable state *)

(** The variables captured by the closures of one [startPaymentPolling] call. *)
Record Engine := mkEngine {
  e_orderId : string;
  e_expectedAttach : string;
  e_onSuccess : option Handler;
  e_onFailed : option Handler;
  e_onTimeout : option Handler;
  e_maxAttempts : Z;
  e_interval : Z;
  e_attempts : Z;
  e_isPolling : bool;
  e_timeoutId : option nat }.

(** [PaymentState].  [pollingCleanup] is the cleanup function returned by
    [startPaymentPolling], named by the closure it belongs to.
    [visibilityChangeHandler] is, once [setupVisibilityChangeHandler] has
    returned, the arrow function that removes the two listeners registered
    under the given identity and then calls [originalCleanup]. *)
Record PaymentState := mkState {
  s_orderId : string;
  s_attach : string;
  s_amount : Z;
  s_isPolling : bool;
  s_pollingCleanup : option nat;
  s_visibilityChangeHandler : option (nat * Callbacks);
  s_callbacks : option Callbacks }.

Record World := mkWorld {
  w_env : EnvType;
  w_document : option bool;   (* None: no document; Some h: document.hidden = h *)
  w_state : option PaymentState;
  w_engines : list Engine;
  w_timers : gmap nat (nat * Z);   (* pending setTimeout(poll, delay) *)
  w_nextTimer : nat;
  w_requests : gmap nat Awaiter;   (* outstanding getPaymentStatus calls *)
  w_nextRequest : nat;
  w_visibilityListeners : list (nat * Callbacks);
  w_focusListeners : list (nat * Callbacks);
  w_nextListener : nat;
  w_trace : list Obs }.

Definition set_state (s : option PaymentState) (w : World) : World :=
  mkWorld (w_env w) (w_document w) s (w_engines w) (w_timers w) (w_nextTimer w)
    (w_requests w) (w_nextRequest w) (w_visibilityListeners w)
    (w_focusListeners w) (w_nextListener w) (w_trace w).

Definition set_document (d : option bool) (w : World) : World :=
  mkWorld (w_env w) d (w_state w) (w_engines w) (w_timers w) (w_nextTimer w)
    (w_requests w) (w_nextRequest w) (w_visibilityListeners w)
    (w_focusListeners w) (w_nextListener w) (w_trace w).

Definition set_engines (es : list Engine) (w : World) : World :=
  mkWorld (w_env w) (w_document w) (w_state w) es (w_timers w) (w_nextTimer w)
    (w_requests w) (w_nextRequest w) (w_visibilityListeners w)
    (w_focusListeners w) (w_nextListener w) (w_trace w).

Definition set_timers (ts : gmap nat (nat * Z)) (next : nat) (w : World) : World :=
  mkWorld (w_env w) (w_document w) (w_state w) (w_engines w) ts next
    (w_requests w) (w_nextRequest w) (w_visibilityListeners w)
    (w_focusListeners w) (w_nextListener w) (w_trace w).

Definition set_requests (rs : gmap nat Awaiter) (next : nat) (w : World) : World :=
  mkWorld (w_env w) (w_document w) (w_state w) (w_engines w) (w_timers w)
    (w_nextTimer w) rs next (w_visibilityListeners w)
    (w_focusListeners w) (w_nextListener w) (w_trace w).

Definition set_listeners (vs fs : list (nat * Callbacks)) (next : nat) (w : World) : World :=
  mkWorld (w_env w) (w_document w) (w_state w) (w_engines w) (w_timers w)
    (w_nextTimer w) (w_requests w) (w_nextRequest w) vs fs next (w_trace w).

Definition observe (o : Obs) (w : World) : World :=
  mkWorld (w_env w) (w_document w) (w_state w) (w_engines w) (w_timers w)
    (w_nextTimer w) (w_requests w) (w_nextRequest w) (w_visibilityListeners w)
    (w_focusListeners w) (w_nextListener w) (w_trace w ++ [o]).

Definition upd_engine (eid : nat) (f : Engine -> Engine) (w : World) : World :=
  set_engines (alter f eid (w_engines w)) w.

Definition upd_state (f : PaymentState -> PaymentState) (w : World) : World :=
  set_state (f <$> w_state w) w.

Definition with_isPolling (b : bool) (e : Engine) : Engine :=
  mkEngine (e_orderId e) (e_expectedAttach e) (e_onSuccess e) (e_onFailed e)
    (e_onTimeout e) (e_maxAttempts e) (e_interval e) (e_attempts e) b
    (e_timeoutId e).

Definition with_timeoutId (t : option nat) (e : Engine) : Engine :=
  mkEngine (e_orderId e) (e_expectedAttach e) (e_onSuccess e) (e_onFailed e)
    (e_onTimeout e) (e_maxAttempts e) (e_interval e) (e_attempts e)
    (e_isPolling e) t.

Definition with_attempts (n : Z) (e : Engine) : Engine :=
  mkEngine (e_orderId e) (e_expectedAttach e) (e_onSuccess e) (e_onFailed e)
    (e_onTimeout e) (e_maxAttempts e) (e_interval e) n (e_isPolling e)
    (e_timeoutId e).

Definition with_pollingCleanup (c : option nat) (s : PaymentState) : PaymentState :=
  mkState (s_orderId s) (s_attach s) (s_amount s) (s_isPolling s) c
    (s_visibilityChangeHandler s) (s_callbacks s).

Definition with_visibilityChangeHandler (h : option (nat * Callbacks))
    (s : PaymentState) : PaymentState :=
  mkState (s_orderId s) (s_attach s) (s_amount s) (s_isPolling s)
    (s_pollingCleanup s) h (s_callbacks s).

Definition with_callbacks (c : option Callbacks) (s : PaymentState) : PaymentState :=
  mkState (s_orderId s) (s_attach s) (s_amount s) (s_isPolling s)
    (s_pollingCleanup s) (s_visibilityChangeHandler s) c.

(** ** Host primitives *)

(** [setTimeout(poll, delay)] on behalf of closure [eid]; returns the handle. *)
Definition setTimeout (eid : nat) (delay : Z) (w : World) : World * nat :=
  let t := w_nextTimer w in
  (set_timers (<[t := (eid, delay)]> (w_timers w)) (S t) w, t).

Definition clearTimeout (t : nat) (w : World) : World :=
  set_timers (delete t (w_timers w)) (w_nextTimer w) w.

(** [getPaymentStatus({orderId})] up to its [await]: the request leaves. *)
Definition getPaymentStatus (a : Awaiter) (orderId : string) (w : World) : World :=
  let q := w_nextRequest w in
  observe (OQuery a orderId)
    (set_requests (<[q := a]> (w_requests w)) (S q) w).

(** [f?.(p)] for a caller-supplied function *)
Definition call_opt (k : CbKind) (f : option nat) (p : Payload) (w : World) : World :=
  match f with
  | Some g => observe (OCallback k g p) w
  | None => w
  end.

(** ** RechargeService.startPaymentPolling: creation and cancellation *)

(** The [options] argument; [maxAttempts] and [interval] have defaults. *)
Record PollOptions := mkOptions {
  o_onSuccess : option Handler;
  o_onFailed : option Handler;
  o_onTimeout : option Handler;
  o_maxAttempts : option Z;
  o_interval : option Z }.

(** The body of [startPaymentPolling]: the captured variables are
    allocated ([attempts = 0], [isPolling = true]), the first timer is
    armed, and the cleanup function (named by the closure) is returned. *)
Definition startPaymentPolling (orderId expectedAttach : string)
    (o : PollOptions) (w : World) : World * nat :=
  let eid := length (w_engines w) in
  let maxAttempts := default 60 (o_maxAttempts o) in
  let interval := default 2000 (o_interval o) in
  let e := mkEngine orderId expectedAttach (o_onSuccess o) (o_onFailed o)
             (o_onTimeout o) maxAttempts interval 0 true None in
  let w1 := set_engines (w_engines w ++ [e]) w in
  let '(w2, t) := setTimeout eid interval w1 in
  (upd_engine eid (with_timeoutId (Some t)) w2, eid).

(** The arrow function returned by [startPaymentPolling]
    ([isPolling = false], then the timer is cleared when [timeoutId] is
    set; a timer handle is truthy). *)
Definition cancelPolling (eid : nat) (w : World) : World :=
  match w_engines w !! eid with
  | None => w
  | Some e =>
    let w1 := upd_engine eid (with_isPolling false) w in
    match e_timeoutId e with
    | Some t => upd_engine eid (with_timeoutId None) (clearTimeout t w1)
    | None => w1
    end
  end.

(** ** PaymentManager *)

(** [startPolling(callbacks)] *)
Definition startPolling (callbacks : Callbacks) (w : World) : World :=
  match w_state w with
  | None => w
  | Some s =>
    if negb (s_isPolling s) then w
    else
      let w1 := match s_pollingCleanup s with
                | Some c => cancelPolling c w
                | None => w
                end in
      let h := Some (HManager callbacks) in
      let '(w2, c) := startPaymentPolling (s_orderId s) (s_attach s)
                        (mkOptions h h h (Some 30) (Some 3000)) w1 in
      upd_state (with_pollingCleanup (Some c)) w2
  end.

(** [handleVisibilityChange] of [setupVisibilityChangeHandler] *)
Definition handleVisibilityChange (callbacks : Callbacks) (w : World) : World :=
  match w_document w, w_state w with
  | Some false, Some s => if s_isPolling s then startPolling callbacks w else w
  | _, _ => w
  end.

(** [handleFocus] of [setupVisibilityChangeHandler] *)
Definition handleFocus (callbacks : Callbacks) (w : World) : World :=
  match w_state w with
  | Some s => if s_isPolling s then startPolling callbacks w else w
  | None => w
  end.

Definition remove_listener (l : nat) (ls : list (nat * Callbacks)) : list (nat * Callbacks) :=
  filter (fun p => p.1 <> l) ls.

(** The function left in [state.visibilityChangeHandler]: both listeners
    are removed, then [originalCleanup] is called, which is the value
    [state.visibilityChangeHandler] had when it was read, that is
    [handleVisibilityChange] itself. *)
Definition visibilityCleanup (h : nat * Callbacks) (w : World) : World :=
  let w1 := set_listeners (remove_listener h.1 (w_visibilityListeners w))
              (remove_listener h.1 (w_focusListeners w)) (w_nextListener w) w in
  handleVisibilityChange h.2 w1.

(** [setupVisibilityChangeHandler(callbacks)] *)
Definition setupVisibilityChangeHandler (callbacks : Callbacks) (w : World) : World :=
  match w_document w with
  | None => w
  | Some _ =>
    let l := w_nextListener w in
    let w1 := set_listeners (w_visibilityListeners w ++ [(l, callbacks)])
                (w_focusListeners w ++ [(l, callbacks)]) (S l) w in
    upd_state (with_visibilityChangeHandler (Some (l, callbacks))) w1
  end.

(** [setupAppShowHandler(callbacks)] *)
Definition setupAppShowHandler (callbacks : Callbacks) (w : World) : World :=
  upd_state (with_callbacks (Some callbacks)) w.

(** [cleanup()] *)
Definition cleanup (w : World) : World :=
  match w_state w with
  | None => w
  | Some s =>
    let w1 := match s_pollingCleanup s with
              | Some c => cancelPolling c w
              | None => w
              end in
    let w2 := match s_visibilityChangeHandler s with
              | Some h => visibilityCleanup h w1
              | None => w1
              end in
    set_state None w2
  end.

(** [startPayment(orderId, attach, amount, callbacks)] *)
Definition startPayment (orderId attach : string) (amount : Z)
    (callbacks : Callbacks) (w : World) : World :=
  let w1 := cleanup w in
  let w2 := set_state (Some (mkState orderId attach amount true None None None)) w1 in
  let w3 := match w_env w2 with
            | WEB => setupVisibilityChangeHandler callbacks w2
            | _ => w2
            end in
  match w_env w3 with
  | WEAPP => setupAppShowHandler callbacks w3
  | _ => w3
  end.

(** [checkPaymentStatusOnce()] up to its [await] *)
Definition checkPaymentStatusOnce (w : World) : World :=
  match w_state w with
  | None => w
  | Some s => getPaymentStatus ACheckOnce (s_orderId s) w
  end.

(** The [catch] block of [checkPaymentStatusOnce]: reading
    [this.state.callbacks] throws when the state is gone, and the promise
    rejects. *)
Definition checkPaymentStatusOnce_catch (w : World) : World :=
  match w_state w with
  | None => observe ORejection w
  | Some s => startPolling (default noCallbacks (s_callbacks s)) w
  end.

(** [checkPaymentStatusOnce()] from its [await] on *)
Definition checkPaymentStatusOnce_resume (out : Outcome) (w : World) : World :=
  match out with
  | Rejected => checkPaymentStatusOnce_catch w
  | Resolved r =>
    match w_state w with
    | None => checkPaymentStatusOnce_catch w
    | Some s =>
      if isPaymentComplete r then
        if attach_differs r (s_attach s) then
          let w1 := call_opt KFailed (s_callbacks s ≫= onFailed) (PResult r) w in
          observe (OToast ToastVerifyFailed) (cleanup w1)
        else
          let w1 := call_opt KSuccess (s_callbacks s ≫= onSuccess) (PResult r) w in
          cleanup w1
      else startPolling (default noCallbacks (s_callbacks s)) w
    end
  end.

(** [handlePageShow()] *)
Definition handlePageShow (w : World) : World :=
  match w_state w with
  | None => w
  | Some s =>
    if s_isPolling s then
      match w_env w with
      | WEAPP => checkPaymentStatusOnce w
      | WEB => startPolling (default noCallbacks (s_callbacks s)) w
      | OTHER => w
      end
    else w
  end.

(** [manualCheckPaymentStatus()] up to its [await]: either the promise is
    already resolved with [null], or a request is outstanding. *)
Definition manualCheckPaymentStatus (w : World)
    : World * option (option PaymentStatusResponse) :=
  match w_state w with
  | None => (w, Some None)
  | Some s => (getPaymentStatus AManual (s_orderId s) w, None)
  end.

(** [manualCheckPaymentStatus()] from its [await] on, with the value the
    promise resolves to. *)
Definition manualCheckPaymentStatus_resume (out : Outcome) (w : World)
    : World * option PaymentStatusResponse :=
  match out with
  | Rejected => (observe (OToast ToastQueryFailed) w, None)
  | Resolved r =>
    if isPaymentComplete r then
      match w_state w with
      | None => (observe (OToast ToastQueryFailed) w, None)
      | Some s =>
        if attach_differs r (s_attach s) then
          (observe (OToast ToastVerifyFailed) (cleanup w), None)
        else (cleanup w, Some r)
      end
    else (observe (OToast ToastNotPaidYet) w, Some r)
  end.

(** ** RechargeService.startPaymentPolling: the poll function *)

(** [h?.(p)] for a function stored in the polling options.  The manager's
    arrow functions run [this.cleanup()] before the caller's callback. *)
Definition invoke (k : CbKind) (h : option Handler) (p : Payload) (w : World) : World :=
  match h with
  | None => w
  | Some (HOpaque f) => observe (OCallback k f p) w
  | Some (HManager callbacks) =>
    let w1 := call_opt k (member k callbacks) p (cleanup w) in
    match k with
    | KSuccess => w1
    | KFailed => observe (OToast (ToastPayFailed p)) w1
    | KTimeout => observe (OToast ModalTimeout) w1
    end
  end.

(** [timeoutId = setTimeout(poll, interval)] *)
Definition schedule (eid : nat) (interval : Z) (w : World) : World :=
  let '(w1, t) := setTimeout eid interval w in
  upd_engine eid (with_timeoutId (Some t)) w1.

(** [poll()] up to its [await] *)
Definition poll (eid : nat) (w : World) : World :=
  match w_engines w !! eid with
  | None => w
  | Some e =>
    if e_isPolling e then
      getPaymentStatus (APoll eid) (e_orderId e)
        (upd_engine eid (with_attempts (e_attempts e + 1)) w)
    else w
  end.

(** [poll()] from its [await] on *)
Definition poll_resume (eid : nat) (out : Outcome) (w : World) : World :=
  match w_engines w !! eid with
  | None => w
  | Some e =>
    match out with
    | Resolved r =>
      if isPaymentComplete r then
        if attach_differs r (e_expectedAttach e) then
          invoke KFailed (e_onFailed e) (PMismatch r)
            (upd_engine eid (with_isPolling false) w)
        else
          invoke KSuccess (e_onSuccess e) (PResult r)
            (upd_engine eid (with_isPolling false) w)
      else if e_maxAttempts e <=? e_attempts e then
        invoke KTimeout (e_onTimeout e) PNone
          (upd_engine eid (with_isPolling false) w)
      else if e_isPolling e then schedule eid (e_interval e) w
      else w
    | Rejected =>
      if (e_attempts e <? e_maxAttempts e) && e_isPolling e then
        schedule eid (e_interval e) w
      else
        invoke KFailed (e_onFailed e) PQueryFailed
          (upd_engine eid (with_isPolling false) w)
    end
  end.

(** ** The event loop *)

Inductive Event :=
| EStartPayment (orderId attach : string) (amount : Z) (callbacks : Callbacks)
| EHandlePageShow
| ECleanup
| EManualCheck
| EVisibility (hidden : bool)   (* the document becomes hidden or visible *)
| EFocus                        (* the window gets the focus *)
| ETimer (t : nat)              (* the timer with handle [t] fires *)
| EResponse (q : nat) (out : Outcome).  (* request [q] is answered *)

Definition dispatch (f : Callbacks -> World -> World)
    (ls : list (nat * Callbacks)) (w : World) : World :=
  foldl (fun w' p => f p.2 w') w ls.

Definition resume (a : Awaiter) (out : Outcome) (w : World) : World :=
  match a with
  | APoll eid => poll_resume eid out w
  | ACheckOnce => checkPaymentStatusOnce_resume out w
  | AManual =>
    let '(w1, v) := manualCheckPaymentStatus_resume out w in
    observe (OReturn v) w1
  end.

(** One task of the JavaScript event loop.  An event that cannot happen
    (a timer that is not pending, a request that is not outstanding, a
    DOM event without a document) leaves the world as it is. *)
Definition step (ev : Event) (w : World) : World :=
  match ev with
  | EStartPayment o a n c => startPayment o a n c w
  | EHandlePageShow => handlePageShow w
  | ECleanup => cleanup w
  | EManualCheck =>
    match manualCheckPaymentStatus w with
    | (w1, Some v) => observe (OReturn v) w1
    | (w1, None) => w1
    end
  | EVisibility hidden =>
    match w_document w with
    | None => w
    | Some _ =>
      let w1 := set_document (Some hidden) w in
      dispatch handleVisibilityChange (w_visibilityListeners w1) w1
    end
  | EFocus =>
    match w_document w with
    | None => w
    | Some _ => dispatch handleFocus (w_focusListeners w) w
    end
  | ETimer t =>
    match w_timers w !! t with
    | None => w
    | Some (eid, _) => poll eid (clearTimeout t w)
    end
  | EResponse q out =>
    match w_requests w !! q with
    | None => w
    | Some a =>
      resume a out (set_requests (delete q (w_requests w)) (w_nextRequest w) w)
    end
  end.

Definition run (evs : list Event) (w : World) : World :=
  foldl (fun w' ev => step ev w') w evs.

(** A freshly loaded page: no session, no closure, nothing pending. *)
Definition initial (env : EnvType) (document : option bool) : World :=
  mkWorld env document None [] ∅ 1 ∅ 1 [] [] 1 [].

(** ** Definitions used to state the properties *)

(** The verification as the specification words it: a field counts as
    missing only when it is absent. *)
Definition absent {A : Type} (x : option A) : bool :=
  match x with
  | None => true
  | Some _ => false
  end.

Definition any_absent (r : PaymentStatusResponse) : bool :=
  absent (r_amount r) || absent (r_description r) || absent (r_createTime r) ||
  absent (r_payTime r) || absent (r_attach r).

Definition verify_by_presence (r : PaymentStatusResponse) (expected : string) : Verdict :=
  if any_absent r then Incomplete
  else if decide (r_attach r = Some expected) then Verified
  else Mismatched.

(** The same verification when a field also counts as missing if it is
    falsy (amount [0], empty string). *)
Definition any_absent_or_falsy (r : PaymentStatusResponse) : bool :=
  negb (truthy_num (r_amount r)) || negb (truthy_str (r_description r)) ||
  negb (truthy_str (r_createTime r)) || negb (truthy_str (r_payTime r)) ||
  negb (truthy_str (r_attach r)).

Definition verify_by_truthiness (r : PaymentStatusResponse) (expected : string) : Verdict :=
  if any_absent_or_falsy r then Incomplete
  else if decide (r_attach r = Some expected) then Verified
  else Mismatched.

(** What an observer sees when a function of the polling options is
    invoked: the manager's arrow functions call the caller's callback, if
    any, and then show their toast. *)
Definition invoke_obs (k : CbKind) (h : option Handler) (p : Payload) : list Obs :=
  match h with
  | None => []
  | Some (HOpaque f) => [OCallback k f p]
  | Some (HManager callbacks) =>
    match member k callbacks with
    | Some g => [OCallback k g p]
    | None => []
    end ++
    match k with
    | KSuccess => []
    | KFailed => [OToast (ToastPayFailed p)]
    | KTimeout => [OToast ModalTimeout]
    end
  end.

Definition is_callback (k : CbKind) (o : Obs) : bool :=
  match o, k with
  | OCallback KSuccess _ _, KSuccess => true
  | OCallback KFailed _ _, KFailed => true
  | OCallback KTimeout _ _, KTimeout => true
  | _, _ => false
  end.

(** Number of times the caller-supplied function [f] was invoked. *)
Definition calls_of (f : nat) (tr : list Obs) : nat :=
  length (List.filter (fun o => match o with
                                | OCallback _ g _ => Nat.eqb g f
                                | _ => false
                                end) tr).

Definition is_query_by (eid : nat) (o : Obs) : bool :=
  match o with
  | OQuery (APoll e) _ => Nat.eqb e eid
  | _ => false
  end.

(** Number of status queries issued by the poll function of closure [eid]. *)
Definition queries_by (eid : nat) (tr : list Obs) : nat :=
  length (List.filter (is_query_by eid) tr).

(** Nothing is pending on behalf of closure [eid]: no timer will call its
    poll function and none of its queries is outstanding. *)
Definition engine_idle (eid : nat) (w : World) : Prop :=
  (forall t d, w_timers w !! t <> Some (eid, d)) /\
  (forall q, w_requests w !! q <> Some (APoll eid)).

(** The polling loop of closure [eid] has ended for good: its flag is
    down, nothing is pending for it, and it has issued [n] queries. *)
Definition stopped (eid n : nat) (w : World) : Prop :=
  (exists e, w_engines w !! eid = Some e /\ e_isPolling e = false) /\
  engine_idle eid w /\
  queries_by eid (w_trace w) = n.

(** Closures that are still polling. *)
Definition active_engines (w : World) : list nat :=
  List.filter (fun i => match w_engines w !! i with
                        | Some e => e_isPolling e
                        | None => false
                        end) (seq 0 (length (w_engines w))).

(** One attempt of closure [eid] that the gateway answers with [r]: the
    armed timer fires, the query leaves, the response arrives. *)
Definition round (eid : nat) (r : PaymentStatusResponse) (w : World) : World :=
  match w_engines w !! eid ≫= e_timeoutId with
  | Some t => step (EResponse (w_nextRequest w) (Resolved r)) (step (ETimer t) w)
  | None => w
  end.

Definition rounds (eid : nat) (rs : list PaymentStatusResponse) (w : World) : World :=
  foldl (fun w' r => round eid r w') w rs.

(** Sample data. *)
Definition paid (attach : string) : PaymentStatusResponse :=
  mkResponse "ORD1" (Some 1000) (Some "x") (Some "t0") (Some "t1") (Some attach).

Definition unpaid : PaymentStatusResponse :=
  mkResponse "ORD1" (Some 1000) (Some "x") (Some "t0") None None.

Definition zero_amount (attach : string) : PaymentStatusResponse :=
  mkResponse "ORD1" (Some 0) (Some "x") (Some "t0") (Some "t1") (Some attach).

Definition empty_description (attach : string) : PaymentStatusResponse :=
  mkResponse "ORD1" (Some 1000) (Some "") (Some "t0") (Some "t1") (Some attach).

Definition cb123 : Callbacks := mkCallbacks (Some 1%nat) (Some 2%nat) (Some 3%nat).

Definition opaque123 (maxAttempts : Z) : PollOptions :=
  mkOptions (Some (HOpaque 1)) (Some (HOpaque 2)) (Some (HOpaque 3))
    (Some maxAttempts) (Some 1000).

(** The flag of closure [eid] is down. *)
Definition halted (eid : nat) (w : World) : Prop :=
  exists e, w_engines w !! eid = Some e /\ e_isPolling e = false.

(** The closure of one run after [a] attempts, with timer [t] armed. *)
Definition engine_at (orderId expected : string) (opts : PollOptions)
    (a : Z) (t : nat) : Engine :=
  mkEngine orderId expected (o_onSuccess opts) (o_onFailed opts) (o_onTimeout opts)
    (default 60 (o_maxAttempts opts)) (default 2000 (o_interval opts)) a true (Some t).

(** Closure [eid] is [e], it is polling, exactly one timer is armed for it
    (the one in [timeoutId], with the run's interval) and none of its
    queries is outstanding. *)
Definition armed (eid : nat) (e : Engine) (w : World) : Prop :=
  w_engines w !! eid = Some e /\ e_isPolling e = true /\
  (exists t, e_timeoutId e = Some t /\
             w_timers w !! t = Some (eid, e_interval e) /\
             forall t' d, w_timers w !! t' = Some (eid, d) -> t' = t) /\
  (forall q, w_requests w !! q <> Some (APoll eid)).

(** Timers and outstanding poll queries only refer to closures that exist. *)
Definition bounded (w : World) : Prop :=
  (forall t c d, w_timers w !! t = Some (c, d) -> (c < length (w_engines w))%nat) /\
  (forall q c, w_requests w !! q = Some (APoll c) -> (c < length (w_engines w))%nat).

(** No DOM listener can be registered: not a browser, or no document. *)
Definition no_listeners (w : World) : Prop :=
  w_env w <> WEB \/ w_document w = None.

(** No closure is polling. *)
Definition quiet (w : World) : Prop :=
  forall c e, w_engines w !! c = Some e -> e_isPolling e = false.

(** Outside the browser: the session has no visibility handler, and every
    closure that is still polling is the one the session refers to. *)
Definition single_loop (w : World) : Prop :=
  no_listeners w /\
  (forall s, w_state w = Some s -> s_visibilityChangeHandler s = None) /\
  (forall c e, w_engines w !! c = Some e -> e_isPolling e = true ->
               exists s, w_state w = Some s /\ s_pollingCleanup s = Some c).

(** Worlds used in the examples below. *)
Definition c4_polling : World :=
  run [EStartPayment "ORD1" "TOK1" 1000 cb123; EHandlePageShow;
       EResponse 1 (Resolved unpaid); ETimer 1; EResponse 2 (Resolved unpaid)]
    (initial WEAPP None).

Definition c4_resumed : World :=
  run [EHandlePageShow; EResponse 3 (Resolved unpaid)] c4_polling.

Definition c9_session : World :=
  step (EStartPayment "ORD1" "TOK1" 1000 cb123) (initial WEAPP None).

Definition c1_query_outstanding : World :=
  run [EStartPayment "ORD1" "TOK1" 1000 cb123; EHandlePageShow;
       EResponse 1 (Resolved unpaid); ETimer 1]
    (initial WEAPP None).

Definition c2_run : World :=
  run [EStartPayment "ORD1" "TOK1" 1000 cb123; EFocus;
       ETimer 1; EResponse 1 (Resolved (paid "TOK1"));
       ETimer 2; EResponse 2 (Resolved (paid "TOK1"))]
    (initial WEB (Some false)).

Definition c2_run_miniprogram : World :=
  run [EStartPayment "ORD1" "TOK1" 1000 cb123; EHandlePageShow;
       EResponse 1 (Resolved unpaid); ETimer 1;
       EHandlePageShow; EResponse 3 (Resolved unpaid); ETimer 2;
       EResponse 2 (Resolved (paid "TOK1")); EResponse 4 (Resolved (paid "TOK1"))]
    (initial WEAPP None).

Definition cb456 : Callbacks := mkCallbacks (Some 4%nat) (Some 5%nat) (Some 6%nat).

Definition c5_run : World :=
  run [EStartPayment "ORD1" "TOK1" 1000 cb123;
       EStartPayment "ORD2" "TOK2" 2000 cb456; EFocus]
    (initial WEB (Some false)).

Definition c8_session : World :=
  step (EStartPayment "ORD1" "TOK1" 1000 cb123) (initial WEB (Some false)).

Definition c3_outstanding : World :=
  step (ETimer 1)
    (startPaymentPolling "ORD1" "TOK1" (opaque123 1) (initial WEAPP None)).1.

Definition c3_run : World := step (EResponse 1 Rejected) c3_outstanding.

(** ** Further definitions: serial attempts and bounded retries *)

(** What the closure [eid] with captured variables [e] guarantees in [w]:
    a pending timer of the closure is the one held in [timeoutId], it
    runs with the closure's interval, the closure is then polling, has
    attempts left (or has made none yet) and has no query outstanding; at
    most one of its queries is outstanding; its attempt counter is the
    number of queries it has issued and never exceeds the budget (one
    attempt is made even with a budget below one). *)
Definition serial_at (eid : nat) (e : Engine) (w : World) : Prop :=
  (forall t d, w_timers w !! t = Some (eid, d) ->
     e_timeoutId e = Some t /\ e_isPolling e = true /\ d = e_interval e /\
     (e_attempts e = 0 \/ e_attempts e < e_maxAttempts e) /\
     forall q, w_requests w !! q <> Some (APoll eid)) /\
  (forall q q', w_requests w !! q = Some (APoll eid) ->
                w_requests w !! q' = Some (APoll eid) -> q = q') /\
  Z.of_nat (queries_by eid (w_trace w)) = e_attempts e /\
  e_attempts e <= Z.max 1 (e_maxAttempts e).

Definition serial (w : World) : Prop :=
  bounded w /\
  (forall eid, (length (w_engines w) <= eid)%nat -> queries_by eid (w_trace w) = 0%nat) /\
  (forall eid e, w_engines w !! eid = Some e -> serial_at eid e w).

(** A closure as [PaymentManager.startPolling] creates it: budget 30,
    interval 3000, and the three arrow functions built over one callbacks
    object. *)
Definition manager_made (e : Engine) : Prop :=
  e_maxAttempts e = 30 /\ e_interval e = 3000 /\
  exists callbacks,
    e_onSuccess e = Some (HManager callbacks) /\
    e_onFailed e = Some (HManager callbacks) /\
    e_onTimeout e = Some (HManager callbacks).

Definition all_manager_made (w : World) : Prop :=
  Forall manager_made (w_engines w).

(** One attempt of closure [eid] with any outcome of its query: the armed
    timer fires, the query leaves, the answer or the error arrives. *)
Definition attempt (eid : nat) (out : Outcome) (w : World) : World :=
  match w_engines w !! eid ≫= e_timeoutId with
  | Some t => step (EResponse (w_nextRequest w) out) (step (ETimer t) w)
  | None => w
  end.

Definition attempts (eid : nat) (outs : list Outcome) (w : World) : World :=
  foldl (fun w' out => attempt eid out w') w outs.

(** An outcome after which the poll function tries again while attempts
    remain: an error, or a response that is not complete. *)
Definition retryable (out : Outcome) : bool :=
  match out with
  | Rejected => true
  | Resolved r => negb (isPaymentComplete r)
  end.

(** What a closure that has not been cancelled does with the outcome of
    the attempt on which its counter stands at [a]: the handler it
    invokes, or nothing when it arms the next timer. *)
Definition signal (e : Engine) (a : Z) (out : Outcome)
    : option (CbKind * option Handler * Payload) :=
  match out with
  | Resolved r =>
    if isPaymentComplete r then
      if attach_differs r (e_expectedAttach e)
      then Some (KFailed, e_onFailed e, PMismatch r)
      else Some (KSuccess, e_onSuccess e, PResult r)
    else if e_maxAttempts e <=? a then Some (KTimeout, e_onTimeout e, PNone)
    else None
  | Rejected =>
    if a <? e_maxAttempts e then None
    else Some (KFailed, e_onFailed e, PQueryFailed)
  end.

(** What the observer sees at the end of a run whose last outcome is
    [out]: success or mismatch on a complete response, else the signal
    of an exhausted budget. *)
Definition final_obs (expected : string) (opts : PollOptions) (out : Outcome) : list Obs :=
  match out with
  | Resolved r =>
    if isPaymentComplete r then
      if attach_differs r expected
      then invoke_obs KFailed (o_onFailed opts) (PMismatch r)
      else invoke_obs KSuccess (o_onSuccess opts) (PResult r)
    else invoke_obs KTimeout (o_onTimeout opts) PNone
  | Rejected => invoke_obs KFailed (o_onFailed opts) PQueryFailed
  end.

(** ** Further definitions: the shape of a session *)

(** What holds of the manager's [state] and of the DOM listeners between
    two tasks: the focus and the visibility listeners are registered
    together; without a session there is none, with a session there is
    exactly the pair held by [visibilityChangeHandler], which exists
    exactly in a browser with a document; the session's [isPolling] flag
    is up; [callbacks] is stored exactly in the mini-program; and the
    cleanup function in [pollingCleanup] belongs to a closure that polls
    the session's order with the session's attach. *)
Definition session_shape (w : World) : Prop :=
  w_focusListeners w = w_visibilityListeners w /\
  match w_state w with
  | None => w_visibilityListeners w = []
  | Some s =>
    s_isPolling s = true /\
    w_visibilityListeners w =
      match s_visibilityChangeHandler s with
      | Some h => [h]
      | None => []
      end /\
    (is_Some (s_visibilityChangeHandler s) <-> w_env w = WEB /\ is_Some (w_document w)) /\
    (is_Some (s_callbacks s) <-> w_env w = WEAPP) /\
    (forall c, s_pollingCleanup s = Some c ->
       exists e, w_engines w !! c = Some e /\
                 e_orderId e = s_orderId s /\ e_expectedAttach e = s_attach s)
  end.

(** The closures of [w] are still there in [w'], for the same order and
    the same attach. *)
Definition engines_kept (w w' : World) : Prop :=
  forall c e, w_engines w !! c = Some e ->
    exists e', w_engines w' !! c = Some e' /\
               e_orderId e' = e_orderId e /\ e_expectedAttach e' = e_expectedAttach e.

(** Nothing is going on: no session, no timer pending, no request
    outstanding. *)
Definition dormant (w : World) : Prop :=
  w_state w = None /\ w_timers w = ∅ /\ w_requests w = ∅.

Definition is_startPayment (ev : Event) : bool :=
  match ev with
  | EStartPayment _ _ _ _ => true
  | _ => false
  end.

(** An observation that only the manual check can leave: no callback,
    and no query of the one-shot check or of a polling closure. *)
Definition manual_obs (o : Obs) : Prop :=
  match o with
  | OQuery a _ => a = AManual
  | OCallback _ _ _ => False
  | _ => True
  end.

(** Neither browser nor mini-program: no closure, no timer, no listener,
    a session that keeps neither cleanup function nor callbacks, and only
    the manual check has left observations. *)
Definition manual_only (w : World) : Prop :=
  w_env w = OTHER /\ w_engines w = [] /\ w_timers w = ∅ /\
  w_visibilityListeners w = [] /\ w_focusListeners w = [] /\
  (forall s, w_state w = Some s ->
     s_pollingCleanup s = None /\ s_visibilityChangeHandler s = None /\
     s_callbacks s = None) /\
  (forall q a, w_requests w !! q = Some a -> a = AManual) /\
  Forall manual_obs (w_trace w).

(** ** Further definitions: the redirect and the profile page *)

(** [RechargeService.getPayEntrypoint()] *)
Inductive PayEntrypoint := MiniAppPay | H5Pay.

Definition getPayEntrypoint (env : EnvType) : PayEntrypoint :=
  match env with
  | WEAPP => MiniAppPay
  | _ => H5Pay
  end.

(** [RechargeResponse], read through [response.h5?.url],
    [response.miniapp?.appid] and [response.miniapp?.path]: each is [None]
    when the object or the member is missing. *)
Record RechargeResponse := mkRecharge {
  rr_orderId : string;
  rr_h5_url : option string;
  rr_miniapp_appid : option string;
  rr_miniapp_path : option string }.

(** The errors [handlePaymentRedirect] throws. *)
Inductive RedirectError :=
| ErrPayUrl          (* '支付URL获取失败' *)
| ErrJump            (* '跳转支付页面失败，请重试' *)
| ErrMiniappParams   (* '小程序支付参数获取失败' *)
| ErrUnsupported.    (* '当前环境不支持支付' *)

(** [handlePaymentRedirect(response)] up to its [await]: the page location
    has been set and the function returns, or [navigateToMiniProgram] has
    been called and is awaited, or an error is thrown. *)
Inductive RedirectStep :=
| LocationSet (url : string)
| NavigateAwaited (appid path : string)
| RedirectThrows (e : RedirectError).

Definition handlePaymentRedirect (env : EnvType) (response : RechargeResponse)
    : RedirectStep :=
  match env with
  | WEB =>
    match rr_h5_url response with
    | Some url => if truthy_str (Some url) then LocationSet url
                  else RedirectThrows ErrPayUrl
    | None => RedirectThrows ErrPayUrl
    end
  | WEAPP =>
    match rr_miniapp_appid response, rr_miniapp_path response with
    | Some appid, Some path =>
      if truthy_str (Some appid) && truthy_str (Some path)
      then NavigateAwaited appid path
      else RedirectThrows ErrMiniappParams
    | _, _ => RedirectThrows ErrMiniappParams
    end
  | OTHER => RedirectThrows ErrUnsupported
  end.

(** [handlePaymentRedirect] from its [await] on: a failed jump is rethrown
    as [ErrJump]. *)
Definition handlePaymentRedirect_resume (jumped : bool) : option RedirectError :=
  if jumped then None else Some ErrJump.

(** Toasts of the profile page. *)
Inductive PageToast :=
| PToastRedirecting                         (* '正在跳转到支付页面...' *)
| PToastFailure (e : option RedirectError). (* the message of the caught error;
                                               [None]: the error of createRecharge *)

(** The profile page as far as recharging goes: the manager it drives, its
    [paymentPending] and [rechargeModalVisible] state, the toasts it has
    shown, and the navigation it has started. *)
Record Page := mkPage {
  pg_world : World;
  pg_paymentPending : bool;
  pg_rechargeModalVisible : bool;
  pg_toasts : list PageToast;
  pg_redirect : option RedirectStep }.

(** The callbacks object that [handleRechargeConfirm] passes to
    [startPayment]; each of the three functions sets [paymentPending] to
    [false] when it is called. *)
Definition page_callbacks : Callbacks :=
  mkCallbacks (Some 0%nat) (Some 1%nat) (Some 2%nat).

(** The outer [catch] of [handleRechargeConfirm]. *)
Definition confirm_catch (e : option RedirectError) (pg : Page) : Page :=
  mkPage (pg_world pg) false (pg_rechargeModalVisible pg)
    (pg_toasts pg ++ [PToastFailure e]) (pg_redirect pg).

Definition with_world (w : World) (pg : Page) : Page :=
  mkPage w (pg_paymentPending pg) (pg_rechargeModalVisible pg) (pg_toasts pg)
    (pg_redirect pg).

Definition with_redirect (r : RedirectStep) (pg : Page) : Page :=
  mkPage (pg_world pg) (pg_paymentPending pg) (pg_rechargeModalVisible pg)
    (pg_toasts pg) (Some r).

Definition toast_redirecting (pg : Page) : Page :=
  mkPage (pg_world pg) (pg_paymentPending pg) (pg_rechargeModalVisible pg)
    (pg_toasts pg ++ [PToastRedirecting]) (pg_redirect pg).

(** [handleRechargeConfirm(option)] from the moment [createRecharge] is
    settled ([created] is its response, [None] if it rejected) up to the
    next [await] or to the end; the boolean tells whether the jump to the
    payment mini-program is awaited.  [attach] is the string
    [generateAttach()] returned. *)
Definition handleRechargeConfirm_created (attach : string) (amount : Z)
    (created : option RechargeResponse) (pg : Page) : Page * bool :=
  match created with
  | None => (confirm_catch None pg, false)
  | Some response =>
    let w1 := startPayment (rr_orderId response) attach amount page_callbacks
                (pg_world pg) in
    let pg1 := mkPage w1 true false (pg_toasts pg) (pg_redirect pg) in
    match w_env (pg_world pg) with
    | WEB =>
      match handlePaymentRedirect (w_env w1) response with
      | RedirectThrows e => (confirm_catch (Some e) pg1, false)
      | LocationSet url => (with_redirect (LocationSet url) pg1, false)
      | NavigateAwaited a p => (with_redirect (NavigateAwaited a p) pg1, true)
      end
    | WEAPP =>
      match handlePaymentRedirect (w_env w1) response with
      | RedirectThrows e =>
        (confirm_catch (Some e) (with_world (cleanup w1) pg1), false)
      | LocationSet url =>
        (toast_redirecting (with_redirect (LocationSet url) pg1), false)
      | NavigateAwaited a p => (with_redirect (NavigateAwaited a p) pg1, true)
      end
    | OTHER => (pg1, false)
    end
  end.

(** [handleRechargeConfirm] once the awaited jump is settled: in the
    mini-program branch a toast follows a jump that succeeded, and
    [paymentManager.cleanup()] runs before the error of a failed one is
    thrown on to the outer [catch]. *)
Definition handleRechargeConfirm_jumped (jumped : bool) (pg : Page) : Page :=
  match handlePaymentRedirect_resume jumped with
  | None =>
    match w_env (pg_world pg) with
    | WEAPP => toast_redirecting pg
    | _ => pg
    end
  | Some e =>
    match w_env (pg_world pg) with
    | WEAPP => confirm_catch (Some e) (with_world (cleanup (pg_world pg)) pg)
    | _ => confirm_catch (Some e) pg
    end
  end.

(** [handleManualCheckPayment()] from the moment [manualCheckPaymentStatus]
    is settled with [out]: the pending state is left when the returned
    value has a truthy [payTime]. *)
Definition handleManualCheckPayment_resume (out : Outcome) (pg : Page) : Page :=
  let '(w1, v) := manualCheckPaymentStatus_resume out (pg_world pg) in
  mkPage w1
    (if truthy_str (v ≫= r_payTime) then false else pg_paymentPending pg)
    (pg_rechargeModalVisible pg) (pg_toasts pg) (pg_redirect pg).

(** Proof automation for the frame lemmas. *)
Ltac unfold_ops :=
  unfold cleanup, visibilityCleanup, handleVisibilityChange, handleFocus,
    startPolling, startPaymentPolling, cancelPolling, schedule, setTimeout,
    clearTimeout, getPaymentStatus, call_opt, upd_state, upd_engine.

Ltac by_cases := unfold_ops; repeat (simpl; case_match); simpl; try done.

(** * Properties *)

(** ** The verification *)

Lemma truthy_num_false (x : option Z) :
  truthy_num x = false <-> x = None \/ x = Some 0.
Proof.
  destruct x as [n|]; simpl.
  - rewrite negb_false_iff, Z.eqb_eq. split.
    + intros ->. now right.
    + intros [H|H]; congruence.
  - split; auto.
Qed.

Lemma truthy_str_false (x : option string) :
  truthy_str x = false <-> x = None \/ x = Some "".
Proof.
  destruct x as [s|]; simpl.
  - rewrite negb_false_iff, String.eqb_eq. split.
    + intros ->. now right.
    + intros [H|H]; congruence.
  - split; auto.
Qed.

Lemma isPaymentComplete_false (r : PaymentStatusResponse) :
  isPaymentComplete r = false <-> any_absent_or_falsy r = true.
Proof.
  unfold isPaymentComplete, any_absent_or_falsy.
  destruct (truthy_num _), (truthy_str (r_description r)),
    (truthy_str (r_createTime r)), (truthy_str (r_payTime r)),
    (truthy_str (r_attach r)); simpl; intuition congruence.
Qed.

Lemma attach_differs_spec (r : PaymentStatusResponse) (expected : string) :
  attach_differs r expected = false <-> r_attach r = Some expected.
Proof.
  unfold attach_differs. destruct (r_attach r) as [a|].
  - rewrite negb_false_iff, String.eqb_eq. split; congruence.
  - split; discriminate.
Qed.

(** C6, as stated, fails: a response with every field present whose amount
    is [0], or whose description is the empty string, is classified
    [Incomplete] by the code, while checking for absence only would make
    it [Verified]. *)
Lemma C6_present_but_falsy_field :
  any_absent (zero_amount "TOK1") = false /\
  classify (zero_amount "TOK1") "TOK1" = Incomplete /\
  verify_by_presence (zero_amount "TOK1") "TOK1" = Verified /\
  any_absent (empty_description "TOK1") = false /\
  classify (empty_description "TOK1") "TOK1" = Incomplete /\
  verify_by_presence (empty_description "TOK1") "TOK1" = Verified /\
  classify (zero_amount "TOK1") "TOK1" <> verify_by_presence (zero_amount "TOK1") "TOK1".
Proof. repeat (split; [reflexivity|]). discriminate. Qed.

(** C6 (amended): the code's classification is: [Incomplete] when one of
    the five fields is absent or falsy; otherwise [Verified] when the
    attach equals the expected token; otherwise [Mismatched].  The
    completeness test comes first: an incomplete response has the same
    verdict whatever the expected token is.  The verdict is a function of
    the response and the token alone. *)
Theorem C6_classify_by_truthiness :
  forall (r : PaymentStatusResponse) (expected : string),
    classify r expected = verify_by_truthiness r expected /\
    (any_absent r = true -> classify r expected = Incomplete) /\
    (isPaymentComplete r = false -> forall other, classify r other = Incomplete).
Proof.
  intros r expected. split; [|split].
  - unfold classify, verify_by_truthiness.
    destruct (isPaymentComplete r) eqn:Hc.
    + assert (any_absent_or_falsy r = false) as ->.
      { destruct (any_absent_or_falsy r) eqn:Hf; [|done].
        apply isPaymentComplete_false in Hf. congruence. }
      destruct (attach_differs r expected) eqn:Hd; case_decide as Ha; try done.
      * apply attach_differs_spec in Ha. congruence.
      * apply attach_differs_spec in Hd. congruence.
    + apply isPaymentComplete_false in Hc. now rewrite Hc.
  - intros Habs. unfold classify.
    assert (isPaymentComplete r = false) as ->; [|done].
    unfold any_absent in Habs. unfold isPaymentComplete.
    destruct (r_amount r), (r_description r), (r_createTime r), (r_payTime r),
      (r_attach r); simpl in *; try discriminate;
      rewrite ?andb_false_r; reflexivity.
  - intros Hc other. unfold classify. now rewrite Hc.
Qed.

Lemma C6_classify_by_truthiness_witness :
  any_absent unpaid = true /\ isPaymentComplete unpaid = false /\
  classify unpaid "TOK1" = Incomplete /\ classify unpaid "TOK2" = Incomplete.
Proof.
  pose proof (C6_classify_by_truthiness unpaid "TOK1") as (_ & Ha & Hb).
  split; [reflexivity|]. split; [reflexivity|].
  split; [apply Ha | apply Hb]; reflexivity.
Defined.

(** ** What the manager's operations leave alone *)

Lemma cancelPolling_trace (c : nat) (w : World) :
  w_trace (cancelPolling c w) = w_trace w.
Proof. by_cases. Qed.

Lemma cancelPolling_state (c : nat) (w : World) :
  w_state (cancelPolling c w) = w_state w.
Proof. by_cases. Qed.

Lemma startPolling_trace (callbacks : Callbacks) (w : World) :
  w_trace (startPolling callbacks w) = w_trace w.
Proof. by_cases. Qed.

Lemma cleanup_trace (w : World) : w_trace (cleanup w) = w_trace w.
Proof. by_cases. Qed.

Lemma cleanup_state (w : World) : w_state (cleanup w) = None.
Proof. unfold cleanup. case_match; done. Qed.

Lemma cleanup_without_session (w : World) : w_state w = None -> cleanup w = w.
Proof. unfold cleanup. now intros ->. Qed.

Lemma call_opt_trace (k : CbKind) (f : option nat) (p : Payload) (w : World) :
  w_trace (call_opt k f p w) =
  w_trace w ++ match f with Some g => [OCallback k g p] | None => [] end.
Proof. destruct f; simpl; [done | now rewrite app_nil_r]. Qed.

Lemma invoke_trace (k : CbKind) (h : option Handler) (p : Payload) (w : World) :
  w_trace (invoke k h p w) = w_trace w ++ invoke_obs k h p.
Proof.
  destruct h as [[f|callbacks]|]; simpl.
  - done.
  - destruct k; simpl; rewrite ?call_opt_trace, ?cleanup_trace, <- ?app_assoc;
      try done.
    now rewrite app_nil_r.
  - now rewrite app_nil_r.
Qed.

(** ** cleanup *)

(** [cleanup()] is idempotent: calling it twice gives the same world as
    calling it once, it always ends without a session, on a controller
    without a session it changes nothing at all, and the call itself
    never invokes a callback, issues a query or shows a toast.  What a
    call can leave behind in the browser is described by
    [cleanup_starts_loop]. *)
Lemma cleanup_idempotent :
  forall w : World,
    cleanup (cleanup w) = cleanup w /\
    w_state (cleanup w) = None /\
    cleanup (set_state None w) = set_state None w /\
    w_trace (cleanup w) = w_trace w.
Proof.
  intros w. split; [|split; [|split]].
  - apply cleanup_without_session, cleanup_state.
  - apply cleanup_state.
  - reflexivity.
  - apply cleanup_trace.
Qed.

(** ** A loop that has ended stays ended

    Whatever happens later, a closure whose flag is down and for which
    nothing is pending never queries again: every operation of the model
    preserves [stopped eid n]. *)

Section Stopped.
Variables (eid n : nat).

Lemma stopped_same (w w' : World) :
  w_engines w' = w_engines w -> w_timers w' = w_timers w ->
  w_requests w' = w_requests w -> w_trace w' = w_trace w ->
  stopped eid n w -> stopped eid n w'.
Proof.
  unfold stopped, engine_idle. intros -> -> -> ->. done.
Qed.

Lemma stopped_set_state s w : stopped eid n w -> stopped eid n (set_state s w).
Proof. now apply stopped_same. Qed.

Lemma stopped_upd_state f w : stopped eid n w -> stopped eid n (upd_state f w).
Proof. now apply stopped_same. Qed.

Lemma stopped_set_document d w : stopped eid n w -> stopped eid n (set_document d w).
Proof. now apply stopped_same. Qed.

Lemma stopped_set_listeners vs fs l w :
  stopped eid n w -> stopped eid n (set_listeners vs fs l w).
Proof. now apply stopped_same. Qed.

Lemma stopped_upd_engine c f w :
  (forall e, e_isPolling e = false -> e_isPolling (f e) = false) ->
  stopped eid n w -> stopped eid n (upd_engine c f w).
Proof.
  intros Hf ((e & He & Hp) & Hidle & Hq). split; [|split]; try done.
  unfold upd_engine; simpl. destruct (decide (c = eid)) as [->|Hne].
  - exists (f e). split; [|auto].
    rewrite list_lookup_alter_eq. now rewrite He.
  - exists e. split; [|done]. now rewrite list_lookup_alter_ne.
Qed.

Lemma stopped_isPolling c b w :
  b = false -> stopped eid n w -> stopped eid n (upd_engine c (with_isPolling b) w).
Proof. intros ->. now apply stopped_upd_engine. Qed.

Lemma stopped_timeoutId c t w :
  stopped eid n w -> stopped eid n (upd_engine c (with_timeoutId t) w).
Proof. now apply stopped_upd_engine. Qed.

Lemma stopped_attempts c a w :
  stopped eid n w -> stopped eid n (upd_engine c (with_attempts a) w).
Proof. now apply stopped_upd_engine. Qed.

Lemma stopped_clearTimeout t w : stopped eid n w -> stopped eid n (clearTimeout t w).
Proof.
  intros (He & (Ht & Hr) & Hq). split; [|split; [split|]]; try done.
  intros t' d; simpl. destruct (decide (t = t')) as [->|Hne].
  - now rewrite lookup_delete_eq.
  - rewrite lookup_delete_ne by done. apply Ht.
Qed.

Lemma stopped_answered q w :
  stopped eid n w ->
  stopped eid n (set_requests (delete q (w_requests w)) (w_nextRequest w) w).
Proof.
  intros (He & (Ht & Hr) & Hq). split; [|split; [split|]]; try done.
  intros q'; simpl. destruct (decide (q = q')) as [->|Hne].
  - now rewrite lookup_delete_eq.
  - rewrite lookup_delete_ne by done. apply Hr.
Qed.

Lemma stopped_lt w : stopped eid n w -> (eid < length (w_engines w))%nat.
Proof. intros ((e & He & _) & _). eapply lookup_lt_Some, He. Qed.

Lemma stopped_setTimeout c d w :
  c <> eid -> stopped eid n w -> stopped eid n (setTimeout c d w).1.
Proof.
  intros Hne (He & (Ht & Hr) & Hq). split; [|split; [split|]]; try done.
  intros t' d'; simpl. destruct (decide (w_nextTimer w = t')) as [<-|Hne'].
  - rewrite lookup_insert_eq. congruence.
  - rewrite lookup_insert_ne by done. apply Ht.
Qed.

Lemma stopped_schedule c d w :
  c <> eid -> stopped eid n w -> stopped eid n (schedule c d w).
Proof.
  intros Hne Hs. unfold schedule.
  pose proof (stopped_setTimeout c d w Hne Hs) as H.
  destruct (setTimeout c d w) as [w1 t]. now apply stopped_timeoutId.
Qed.

Lemma stopped_observe o w :
  is_query_by eid o = false -> stopped eid n w -> stopped eid n (observe o w).
Proof.
  intros Ho (He & Hidle & Hq). split; [|split]; try done.
  unfold queries_by in *; simpl. rewrite List.filter_app, length_app; simpl.
  rewrite Ho; simpl. lia.
Qed.

Lemma stopped_getPaymentStatus a o w :
  a <> APoll eid -> stopped eid n w -> stopped eid n (getPaymentStatus a o w).
Proof.
  intros Hne (He & (Ht & Hr) & Hq). unfold getPaymentStatus.
  apply stopped_observe.
  - destruct a as [c| |]; simpl; try done.
    apply Nat.eqb_neq. congruence.
  - split; [|split; [split|]]; try done.
    intros q; simpl. destruct (decide (w_nextRequest w = q)) as [<-|Hne'].
    + rewrite lookup_insert_eq. congruence.
    + rewrite lookup_insert_ne by done. apply Hr.
Qed.

Lemma stopped_call_opt k f p w :
  stopped eid n w -> stopped eid n (call_opt k f p w).
Proof. destruct f; simpl; [|done]. now apply stopped_observe. Qed.

Lemma stopped_cancelPolling c w :
  stopped eid n w -> stopped eid n (cancelPolling c w).
Proof.
  intros Hs. unfold cancelPolling. repeat case_match; try done.
  - now apply stopped_timeoutId, stopped_clearTimeout, stopped_isPolling.
  - now apply stopped_isPolling.
Qed.

Lemma stopped_startPaymentPolling o a opts w :
  stopped eid n w -> stopped eid n (startPaymentPolling o a opts w).1.
Proof.
  intros Hs. pose proof (stopped_lt w Hs) as Hlt.
  unfold startPaymentPolling; simpl.
  apply stopped_timeoutId.
  match goal with |- stopped _ _ (set_timers _ _ ?w1) =>
    change (stopped eid n (setTimeout (length (w_engines w))
              (default 2000 (o_interval opts)) w1).1) end.
  apply stopped_setTimeout; [lia|].
  destruct Hs as ((e & He & Hp) & Hidle & Hq). split; [|split]; try done.
  exists e. split; [|done]. simpl. now rewrite lookup_app_l.
Qed.

Lemma stopped_startPolling callbacks w :
  stopped eid n w -> stopped eid n (startPolling callbacks w).
Proof.
  intros Hs. unfold startPolling. repeat case_match; try done;
    apply stopped_upd_state;
    match goal with H : startPaymentPolling ?o ?a ?p ?w1 = (?w2, _) |- _ =>
      replace w2 with (startPaymentPolling o a p w1).1 by now rewrite H end;
    apply stopped_startPaymentPolling; try done.
  now apply stopped_cancelPolling.
Qed.

Lemma stopped_handleVisibilityChange callbacks w :
  stopped eid n w -> stopped eid n (handleVisibilityChange callbacks w).
Proof.
  intros Hs. unfold handleVisibilityChange. repeat case_match; try done.
  now apply stopped_startPolling.
Qed.

Lemma stopped_handleFocus callbacks w :
  stopped eid n w -> stopped eid n (handleFocus callbacks w).
Proof.
  intros Hs. unfold handleFocus. repeat case_match; try done.
  now apply stopped_startPolling.
Qed.

Lemma stopped_cleanup w : stopped eid n w -> stopped eid n (cleanup w).
Proof.
  intros Hs. unfold cleanup, visibilityCleanup.
  repeat case_match; try done; apply stopped_set_state;
    try apply stopped_handleVisibilityChange;
    try apply stopped_set_listeners;
    try apply stopped_cancelPolling; done.
Qed.

Lemma stopped_invoke k h p w : stopped eid n w -> stopped eid n (invoke k h p w).
Proof.
  intros Hs. destruct h as [[f|callbacks]|]; simpl; [| |done].
  - now apply stopped_observe.
  - assert (stopped eid n (call_opt k (member k callbacks) p (cleanup w))) as H
      by now apply stopped_call_opt, stopped_cleanup.
    destruct k; [done | |]; now apply stopped_observe.
Qed.

Lemma stopped_startPayment o a m callbacks w :
  stopped eid n w -> stopped eid n (startPayment o a m callbacks w).
Proof.
  intros Hs. unfold startPayment, setupAppShowHandler, setupVisibilityChangeHandler.
  repeat (simpl; case_match); try done;
    repeat first [apply stopped_upd_state | apply stopped_set_listeners
                 | apply stopped_set_state];
    now apply stopped_cleanup.
Qed.

Lemma stopped_checkPaymentStatusOnce_resume out w :
  stopped eid n w -> stopped eid n (checkPaymentStatusOnce_resume out w).
Proof.
  intros Hs. unfold checkPaymentStatusOnce_resume, checkPaymentStatusOnce_catch.
  repeat case_match; try done;
    repeat (apply stopped_observe; [done|]);
    try apply stopped_cleanup; try apply stopped_call_opt;
    try apply stopped_startPolling; done.
Qed.

Lemma stopped_handlePageShow w : stopped eid n w -> stopped eid n (handlePageShow w).
Proof.
  intros Hs. unfold handlePageShow, checkPaymentStatusOnce.
  repeat case_match; try done.
  - now apply stopped_startPolling.
  - now apply stopped_getPaymentStatus.
Qed.

Lemma stopped_manualCheckPaymentStatus w :
  stopped eid n w -> stopped eid n (manualCheckPaymentStatus w).1.
Proof.
  intros Hs. unfold manualCheckPaymentStatus. case_match; simpl; [|done].
  now apply stopped_getPaymentStatus.
Qed.

Lemma stopped_manualCheckPaymentStatus_resume out w :
  stopped eid n w -> stopped eid n (manualCheckPaymentStatus_resume out w).1.
Proof.
  intros Hs. unfold manualCheckPaymentStatus_resume.
  repeat case_match; simpl; try done;
    repeat (apply stopped_observe; [done|]); try apply stopped_cleanup; done.
Qed.

Lemma stopped_poll c w : stopped eid n w -> stopped eid n (poll c w).
Proof.
  intros Hs. unfold poll. destruct (w_engines w !! c) as [e|] eqn:He; [|done].
  destruct (e_isPolling e) eqn:Hp; [|done].
  assert (c <> eid) as Hne.
  { intros ->. destruct Hs as ((e' & He' & Hp') & _). congruence. }
  apply stopped_getPaymentStatus; [congruence|]. now apply stopped_attempts.
Qed.

Lemma stopped_poll_resume c out w :
  c <> eid -> stopped eid n w -> stopped eid n (poll_resume c out w).
Proof.
  intros Hne Hs. unfold poll_resume. repeat case_match; try done;
    try (apply stopped_invoke, stopped_isPolling; done);
    now apply stopped_schedule.
Qed.

Lemma stopped_dispatch f ls w :
  (forall c w', stopped eid n w' -> stopped eid n (f c w')) ->
  stopped eid n w -> stopped eid n (dispatch f ls w).
Proof.
  intros Hf. unfold dispatch. revert w.
  induction ls as [|p ls IH]; intros w Hs; simpl; [done|].
  apply IH, Hf, Hs.
Qed.

Lemma stopped_step ev w : stopped eid n w -> stopped eid n (step ev w).
Proof.
  intros Hs. destruct ev; simpl.
  - now apply stopped_startPayment.
  - now apply stopped_handlePageShow.
  - now apply stopped_cleanup.
  - pose proof (stopped_manualCheckPaymentStatus w Hs) as H.
    destruct (manualCheckPaymentStatus w) as [w1 [v|]]; simpl in H; [|done].
    now apply stopped_observe.
  - case_match; [|done].
    apply stopped_dispatch; [apply stopped_handleVisibilityChange|].
    now apply stopped_set_document.
  - case_match; [|done].
    now apply stopped_dispatch; [apply stopped_handleFocus|].
  - destruct (w_timers w !! t) as [[c d]|] eqn:Ht; [|done].
    now apply stopped_poll, stopped_clearTimeout.
  - destruct (w_requests w !! q) as [a|] eqn:Hq; [|done].
    pose proof (stopped_answered q w Hs) as Hs'.
    destruct a as [c| |]; simpl.
    + apply stopped_poll_resume; [|done].
      intros ->. destruct Hs as (_ & (_ & Hr) & _). now apply (Hr q).
    + now apply stopped_checkPaymentStatusOnce_resume.
    + pose proof (stopped_manualCheckPaymentStatus_resume out _ Hs') as H.
      destruct (manualCheckPaymentStatus_resume out _) as [w1 v].
      now apply stopped_observe.
Qed.

Lemma stopped_run evs w : stopped eid n w -> stopped eid n (run evs w).
Proof.
  unfold run. revert w. induction evs as [|ev evs IH]; intros w Hs; simpl; [done|].
  apply IH, stopped_step, Hs.
Qed.
End Stopped.

(** ** The poll function on errors and on incomplete responses *)

Section Halted.
Variable eid : nat.

Lemma halted_same (w w' : World) :
  w_engines w' = w_engines w -> halted eid w -> halted eid w'.
Proof. unfold halted. now intros ->. Qed.

Lemma halted_upd_engine c f w :
  (forall e, e_isPolling e = false -> e_isPolling (f e) = false) ->
  halted eid w -> halted eid (upd_engine c f w).
Proof.
  intros Hf (e & He & Hp). unfold halted, upd_engine; simpl.
  destruct (decide (c = eid)) as [->|Hne].
  - exists (f e). rewrite list_lookup_alter_eq, He. auto.
  - exists e. now rewrite list_lookup_alter_ne.
Qed.

Lemma halted_cancelPolling c w : halted eid w -> halted eid (cancelPolling c w).
Proof.
  intros Hh. unfold cancelPolling. repeat case_match; try done;
    repeat (apply halted_upd_engine; [done|]); done.
Qed.

Lemma halted_startPolling callbacks w :
  halted eid w -> halted eid (startPolling callbacks w).
Proof.
  intros Hh. unfold startPolling. destruct (w_state w) as [s|]; [|done].
  destruct (negb (s_isPolling s)); [done|].
  set (w1 := match s_pollingCleanup s with
             | Some c => cancelPolling c w
             | None => w
             end).
  assert (halted eid w1) as (e & He & Hp).
  { subst w1. destruct (s_pollingCleanup s); [|done].
    now apply halted_cancelPolling. }
  destruct (startPaymentPolling _ _ _ w1) as [w2 c'] eqn:E.
  apply (halted_same w2); [done|].
  unfold startPaymentPolling in E; simpl in E. injection E as <- <-.
  exists e. split; [|done]. unfold upd_engine; simpl.
  rewrite list_lookup_alter_ne by (apply lookup_lt_Some in He; lia).
  now apply lookup_app_l_Some.
Qed.

Lemma halted_cleanup w : halted eid w -> halted eid (cleanup w).
Proof.
  intros Hh. unfold cleanup. destruct (w_state w) as [s|] eqn:Hs; [|done].
  set (w1 := match s_pollingCleanup s with
             | Some c => cancelPolling c w
             | None => w
             end).
  assert (halted eid w1) as H1.
  { subst w1. destruct (s_pollingCleanup s); [|done].
    now apply halted_cancelPolling. }
  set (w2 := match s_visibilityChangeHandler s with
             | Some h => visibilityCleanup h w1
             | None => w1
             end).
  apply (halted_same w2); [done|]. subst w2.
  destruct (s_visibilityChangeHandler s) as [h|]; [|done].
  unfold visibilityCleanup, handleVisibilityChange.
  repeat case_match; try done.
  apply halted_startPolling. revert H1. now apply halted_same.
Qed.

Lemma halted_invoke k h p w : halted eid w -> halted eid (invoke k h p w).
Proof.
  intros Hh. destruct h as [[f|callbacks]|]; simpl; try done.
  apply (halted_same (cleanup w)); [|now apply halted_cleanup].
  destruct k, (member _ callbacks); done.
Qed.
End Halted.

Lemma schedule_facts (eid : nat) (d : Z) (w : World) (e : Engine) :
  w_engines w !! eid = Some e ->
  w_trace (schedule eid d w) = w_trace w /\
  w_timers (schedule eid d w) !! w_nextTimer w = Some (eid, d) /\
  w_engines (schedule eid d w) !! eid = Some (with_timeoutId (Some (w_nextTimer w)) e) /\
  w_state (schedule eid d w) = w_state w.
Proof.
  intros He. unfold schedule, setTimeout, upd_engine; simpl.
  rewrite lookup_insert_eq, list_lookup_alter_eq, He. done.
Qed.

(** C10: a response in which the amount is [0] or one of description,
    createTime, payTime, attach is the empty string is not complete, so
    whatever the expected token is the attach comparison is not reached:
    the poll function schedules another attempt (while the budget lasts),
    the manual check reports that the payment is not done yet, and the
    one-shot check hands over to the polling loop. *)
Theorem C10_falsy_field_is_incomplete :
  forall r : PaymentStatusResponse,
    r_amount r = Some 0 \/ r_description r = Some "" \/ r_createTime r = Some "" \/
    r_payTime r = Some "" \/ r_attach r = Some "" ->
    isPaymentComplete r = false /\
    (forall expected, classify r expected = Incomplete) /\
    (forall w eid e,
        w_engines w !! eid = Some e -> e_isPolling e = true ->
        e_attempts e < e_maxAttempts e ->
        poll_resume eid (Resolved r) w = schedule eid (e_interval e) w /\
        w_trace (poll_resume eid (Resolved r) w) = w_trace w) /\
    (forall w,
        manualCheckPaymentStatus_resume (Resolved r) w =
        (observe (OToast ToastNotPaidYet) w, Some r)) /\
    (forall w s,
        w_state w = Some s ->
        checkPaymentStatusOnce_resume (Resolved r) w =
        startPolling (default noCallbacks (s_callbacks s)) w).
Proof.
  intros r Hr.
  assert (isPaymentComplete r = false) as Hc.
  { apply isPaymentComplete_false. unfold any_absent_or_falsy.
    destruct Hr as [H|[H|[H|[H|H]]]]; rewrite H; simpl;
      rewrite ?orb_true_r; reflexivity. }
  split; [done|]. split; [|split; [|split]].
  - intros expected. unfold classify. now rewrite Hc.
  - intros w eid e He Hp Ha.
    assert (poll_resume eid (Resolved r) w = schedule eid (e_interval e) w) as ->.
    { unfold poll_resume. rewrite He, Hc, Hp.
      destruct (e_maxAttempts e <=? e_attempts e) eqn:Hle; [|done].
      apply Z.leb_le in Hle. lia. }
    split; [done|]. now apply (schedule_facts eid _ w e).
  - intros w. unfold manualCheckPaymentStatus_resume. now rewrite Hc.
  - intros w s Hs. unfold checkPaymentStatusOnce_resume. now rewrite Hs, Hc.
Qed.

Lemma C10_falsy_field_is_incomplete_witness :
  isPaymentComplete (zero_amount "TOK1") = false /\
  classify (zero_amount "TOK1") "TOK1" = Incomplete.
Proof.
  destruct (C10_falsy_field_is_incomplete (zero_amount "TOK1")) as (H1 & H2 & _).
  - left. reflexivity.
  - split; [exact H1 | apply H2].
Defined.

(** C3, as stated, fails: with a budget of one attempt, an error on that
    attempt makes the poll function call [onFailed] (with the
    query-failed object), and [onTimeout] is not called. *)
Lemma C3_exhausted_error_calls_onFailed :
  w_trace c3_run = [OQuery (APoll 0) "ORD1"; OCallback KFailed 2 PQueryFailed] /\
  ~ In (OCallback KTimeout 3 PNone) (w_trace c3_run).
Proof.
  vm_compute. split; [reflexivity|].
  intros [H|[H|[]]]; discriminate.
Qed.

(** C3 (amended): while the loop has not been cancelled, a gateway error
    on an attempt is retried when attempts remain (a new timer is armed
    after [interval], no callback is called); when the budget is
    exhausted at the time of the error, the loop stops and [onFailed] is
    called with the query-failed object, and [onTimeout] is not called. *)
Theorem C3_error_retried_then_onFailed :
  forall (w : World) (eid : nat) (e : Engine),
    w_engines w !! eid = Some e -> e_isPolling e = true ->
    let w' := poll_resume eid Rejected w in
    (e_attempts e < e_maxAttempts e ->
       w_trace w' = w_trace w /\
       w_timers w' !! w_nextTimer w = Some (eid, e_interval e) /\
       w_engines w' !! eid = Some (with_timeoutId (Some (w_nextTimer w)) e)) /\
    (e_maxAttempts e <= e_attempts e ->
       w_trace w' = w_trace w ++ invoke_obs KFailed (e_onFailed e) PQueryFailed /\
       (forall f, e_onFailed e = Some (HOpaque f) ->
                  w_trace w' = w_trace w ++ [OCallback KFailed f PQueryFailed]) /\
       (forall o, In o (invoke_obs KFailed (e_onFailed e) PQueryFailed) ->
                  is_callback KTimeout o = false) /\
       halted eid w').
Proof.
  intros w eid e He Hp w'. subst w'. unfold poll_resume. rewrite He, Hp.
  split.
  - intros Ha. apply Z.ltb_lt in Ha as ->. simpl.
    pose proof (schedule_facts eid (e_interval e) w e He) as (? & ? & ? & _). done.
  - intros Ha. apply Z.ltb_ge in Ha as ->. simpl.
    split; [|split; [|split]].
    + now rewrite invoke_trace.
    + intros f Hf. now rewrite invoke_trace, Hf.
    + intros o. destruct (e_onFailed e) as [[f|callbacks]|]; simpl; [| |done].
      * intros [<-|[]]. done.
      * destruct (onFailed callbacks); simpl; intuition (subst; done).
    + apply halted_invoke. exists (with_isPolling false e). split; [|done].
      unfold upd_engine; simpl. now rewrite list_lookup_alter_eq, He.
Qed.

Lemma C3_error_retried_then_onFailed_witness :
  w_trace (poll_resume 0 Rejected c3_outstanding) =
  w_trace c3_outstanding ++ [OCallback KFailed 2 PQueryFailed].
Proof.
  refine (proj1 (proj2 (proj2 (C3_error_retried_then_onFailed c3_outstanding 0%nat
    (mkEngine "ORD1" "TOK1" (Some (HOpaque 1)) (Some (HOpaque 2))
       (Some (HOpaque 3)) 1 1000 1 true (Some 1%nat)) _ _) _)) 2%nat _).
  - reflexivity.
  - reflexivity.
  - simpl. lia.
  - reflexivity.
Defined.

(** ** A full run of incomplete responses *)

Lemma queries_by_app (eid : nat) (l1 l2 : list Obs) :
  queries_by eid (l1 ++ l2) = (queries_by eid l1 + queries_by eid l2)%nat.
Proof. unfold queries_by. now rewrite List.filter_app, length_app. Qed.

Lemma queries_by_replicate (eid k : nat) (o : string) :
  queries_by eid (replicate k (OQuery (APoll eid) o)) = k.
Proof.
  unfold queries_by. induction k as [|k IH]; simpl; [done|].
  rewrite Nat.eqb_refl; simpl. now rewrite IH.
Qed.

Lemma queries_by_invoke_obs (eid : nat) k h p :
  queries_by eid (invoke_obs k h p) = 0%nat.
Proof.
  destruct h as [[f|callbacks]|]; simpl; try done.
  destruct (member k callbacks), k; done.
Qed.

Lemma startPaymentPolling_armed orderId expected opts w :
  engine_idle (length (w_engines w)) w ->
  armed (length (w_engines w)) (engine_at orderId expected opts 0 (w_nextTimer w))
    (startPaymentPolling orderId expected opts w).1 /\
  w_trace (startPaymentPolling orderId expected opts w).1 = w_trace w.
Proof.
  intros (Ht & Hq). split; [|done].
  unfold armed, startPaymentPolling, engine_at; simpl. split; [|split; [|split]].
  - unfold upd_engine; simpl.
    rewrite list_lookup_alter_eq, lookup_app_r by lia.
    now rewrite Nat.sub_diag.
  - done.
  - exists (w_nextTimer w). split; [done|]. split; [apply lookup_insert_eq|].
    intros t' d. destruct (decide (w_nextTimer w = t')) as [<-|Hne]; [done|].
    rewrite lookup_insert_ne by done. intros H. now apply Ht in H.
  - done.
Qed.

Section Round.
Variables (eid : nat) (r : PaymentStatusResponse).
Hypothesis Hr : isPaymentComplete r = false.

(** The world in which the response of an attempt is processed. *)
Lemma round_unfold (e : Engine) (w : World) :
  armed eid e w ->
  round eid r w =
  poll_resume eid (Resolved r)
    (set_requests (delete (w_nextRequest w) (<[w_nextRequest w := APoll eid]> (w_requests w)))
       (S (w_nextRequest w))
       (observe (OQuery (APoll eid) (e_orderId e))
          (set_requests (<[w_nextRequest w := APoll eid]> (w_requests w))
             (S (w_nextRequest w))
             (upd_engine eid (with_attempts (e_attempts e + 1))
                (clearTimeout (default 0%nat (e_timeoutId e)) w))))).
Proof.
  intros (He & Hp & (t & Ht & Hin & _) & _).
  unfold round. rewrite He; simpl. rewrite Ht; simpl. rewrite Hin.
  assert (poll eid (clearTimeout t w) =
          getPaymentStatus (APoll eid) (e_orderId e)
            (upd_engine eid (with_attempts (e_attempts e + 1)) (clearTimeout t w)))
    as ->.
  { unfold poll; simpl. now rewrite He, Hp. }
  unfold getPaymentStatus; simpl. now rewrite lookup_insert_eq.
Qed.

Lemma round_retry (e : Engine) (w : World) :
  armed eid e w -> e_attempts e + 1 < e_maxAttempts e ->
  armed eid (with_timeoutId (Some (w_nextTimer w))
               (with_attempts (e_attempts e + 1) e)) (round eid r w) /\
  w_trace (round eid r w) = w_trace w ++ [OQuery (APoll eid) (e_orderId e)] /\
  w_nextTimer (round eid r w) = S (w_nextTimer w).
Proof.
  intros Ha Hlt. rewrite (round_unfold e w Ha).
  destruct Ha as (He & Hp & (t & Ht & Hin & Huniq) & Hq).
  unfold poll_resume; simpl. rewrite list_lookup_alter_eq, He; simpl.
  rewrite Hr, Hp.
  destruct (e_maxAttempts e <=? e_attempts e + 1) eqn:Hle;
    [apply Z.leb_le in Hle; lia|].
  unfold schedule, setTimeout, upd_engine, armed; simpl.
  rewrite !list_lookup_alter_eq, He, Ht; simpl.
  split; [|done]. split; [done|]. split; [done|]. split.
  - exists (w_nextTimer w). split; [done|]. split; [apply lookup_insert_eq|].
    intros t' d. destruct (decide (w_nextTimer w = t')) as [<-|Hne]; [done|].
    rewrite lookup_insert_ne by done.
    destruct (decide (t = t')) as [<-|Hne']; [now rewrite lookup_delete_eq|].
    rewrite lookup_delete_ne by done. intros H. apply Huniq in H. congruence.
  - intros q. destruct (decide (w_nextRequest w = q)) as [<-|Hne].
    + now rewrite lookup_delete_eq.
    + rewrite lookup_delete_ne, lookup_insert_ne by done. apply Hq.
Qed.

Lemma round_timeout (e : Engine) (w : World) :
  armed eid e w -> e_maxAttempts e <= e_attempts e + 1 ->
  w_trace (round eid r w) =
    w_trace w ++ [OQuery (APoll eid) (e_orderId e)] ++
    invoke_obs KTimeout (e_onTimeout e) PNone /\
  stopped eid (S (queries_by eid (w_trace w))) (round eid r w).
Proof.
  intros Ha Hle. rewrite (round_unfold e w Ha).
  destruct Ha as (He & Hp & (t & Ht & Hin & Huniq) & Hq).
  unfold poll_resume; simpl. rewrite list_lookup_alter_eq, He; simpl.
  rewrite Hr. apply Z.leb_le in Hle as ->.
  split.
  - rewrite invoke_trace; simpl. now rewrite <- app_assoc.
  - apply stopped_invoke. unfold stopped, engine_idle, upd_engine; simpl.
    rewrite !list_lookup_alter_eq, He, Ht; simpl. split; [eauto|]. split; [split|].
    + intros t' d. destruct (decide (t = t')) as [<-|Hne'].
      * now rewrite lookup_delete_eq.
      * rewrite lookup_delete_ne by done. intros H. apply Huniq in H. congruence.
    + intros q. destruct (decide (w_nextRequest w = q)) as [<-|Hne].
      * now rewrite lookup_delete_eq.
      * rewrite lookup_delete_ne, lookup_insert_ne by done. apply Hq.
    + rewrite queries_by_app. unfold queries_by at 2; simpl.
      rewrite Nat.eqb_refl; simpl. lia.
Qed.
End Round.

Section Rounds.
Variable eid : nat.

Lemma rounds_retry (rs : list PaymentStatusResponse) :
  forall (e : Engine) (w : World),
    armed eid e w ->
    Forall (fun r => isPaymentComplete r = false) rs ->
    e_attempts e + Z.of_nat (length rs) < e_maxAttempts e ->
    exists t,
      armed eid (with_timeoutId (Some t)
                   (with_attempts (e_attempts e + Z.of_nat (length rs)) e))
        (rounds eid rs w) /\
      w_trace (rounds eid rs w) =
        w_trace w ++ replicate (length rs) (OQuery (APoll eid) (e_orderId e)).
Proof.
  induction rs as [|r rs IH]; intros e w Ha Hrs Hlt.
  - destruct Ha as (He & Hp & (t & Ht & Hin & Hu) & Hq). exists t. simpl.
    rewrite app_nil_r, Z.add_0_r. split; [|done].
    replace (with_timeoutId (Some t) (with_attempts (e_attempts e) e)) with e
      by (destruct e; unfold with_timeoutId, with_attempts; simpl in *; congruence).
    unfold armed. eauto 10.
  - apply Forall_cons in Hrs as [Hr Hrs]. simpl length in *.
    destruct (round_retry eid r Hr e w Ha) as (Ha1 & Htr1 & _); [lia|].
    destruct (IH _ _ Ha1 Hrs) as (t & Ha2 & Htr2); [simpl; lia|].
    exists t. change (rounds eid (r :: rs) w) with (rounds eid rs (round eid r w)).
    split.
    + replace (e_attempts e + Z.of_nat (S (length rs)))
        with (e_attempts e + 1 + Z.of_nat (length rs)) by lia.
      exact Ha2.
    + rewrite Htr2, Htr1, <- app_assoc. done.
Qed.

Lemma rounds_timeout (rs : list PaymentStatusResponse) (r : PaymentStatusResponse) :
  forall (e : Engine) (w : World),
    armed eid e w ->
    Forall (fun r => isPaymentComplete r = false) (rs ++ [r]) ->
    e_attempts e + Z.of_nat (length (rs ++ [r])) = e_maxAttempts e ->
    w_trace (rounds eid (rs ++ [r]) w) =
      w_trace w ++ replicate (length (rs ++ [r])) (OQuery (APoll eid) (e_orderId e)) ++
      invoke_obs KTimeout (e_onTimeout e) PNone /\
    stopped eid (queries_by eid (w_trace w) + length (rs ++ [r])) (rounds eid (rs ++ [r]) w).
Proof.
  intros e w Ha Hrs Hmax. rewrite length_app in *. simpl length in *.
  apply Forall_app in Hrs as [Hrs Hr]. rewrite Forall_singleton in Hr.
  destruct (rounds_retry rs e w Ha Hrs) as (t & Ha1 & Htr1); [lia|].
  unfold rounds in *. rewrite foldl_app; simpl.
  destruct (round_timeout eid r Hr _ _ Ha1) as (Htr2 & Hst); [simpl; lia|].
  split.
  - rewrite Htr2, Htr1; simpl.
    rewrite Nat.add_1_r, replicate_S_end, <- !app_assoc. done.
  - rewrite Htr1, queries_by_app, queries_by_replicate in Hst.
    now rewrite Nat.add_assoc, Nat.add_1_r.
Qed.
End Rounds.

Lemma calls_of_app (f : nat) (l1 l2 : list Obs) :
  calls_of f (l1 ++ l2) = (calls_of f l1 + calls_of f l2)%nat.
Proof. unfold calls_of. now rewrite List.filter_app, length_app. Qed.

Lemma calls_of_queries (f k : nat) (a : Awaiter) (o : string) :
  calls_of f (replicate k (OQuery a o)) = 0%nat.
Proof. unfold calls_of. induction k as [|k IH]; simpl; done. Qed.

Lemma calls_of_single (f : nat) (k : CbKind) (p : Payload) :
  calls_of f [OCallback k f p] = 1%nat.
Proof. unfold calls_of; simpl. now rewrite Nat.eqb_refl. Qed.

(** C7: a polling run with a budget of [n >= 1] attempts that gets [n]
    incomplete responses in a row: attempt [k+1] is made with the counter
    at [k+1] after a timer of [interval] (after [k < n] incomplete
    responses the counter is [k], the loop is still polling and a timer
    with delay [interval] is armed); after the [n]-th response the
    observer has seen exactly [n] queries followed by one invocation of
    [onTimeout]; and whatever happens afterwards, this run issues no
    further query. *)
Theorem C7_timeout_after_maxAttempts :
  forall (n : nat) (orderId expected : string) (opts : PollOptions)
         (rs : list PaymentStatusResponse) (w : World),
    default 60 (o_maxAttempts opts) = Z.of_nat n -> (1 <= n)%nat ->
    engine_idle (length (w_engines w)) w ->
    length rs = n ->
    Forall (fun r => isPaymentComplete r = false) rs ->
    (forall k, (k < n)%nat ->
       exists t,
         w_engines (rounds (length (w_engines w)) (take k rs)
                      (startPaymentPolling orderId expected opts w).1)
           !! length (w_engines w) =
           Some (engine_at orderId expected opts (Z.of_nat k) t) /\
         w_timers (rounds (length (w_engines w)) (take k rs)
                     (startPaymentPolling orderId expected opts w).1) !! t =
           Some (length (w_engines w), default 2000 (o_interval opts)) /\
         w_trace (rounds (length (w_engines w)) (take k rs)
                    (startPaymentPolling orderId expected opts w).1) =
           w_trace w ++ replicate k (OQuery (APoll (length (w_engines w))) orderId)) /\
    w_trace (rounds (length (w_engines w)) rs
               (startPaymentPolling orderId expected opts w).1) =
      w_trace w ++ replicate n (OQuery (APoll (length (w_engines w))) orderId) ++
      invoke_obs KTimeout (o_onTimeout opts) PNone /\
    (forall f, o_onTimeout opts = Some (HOpaque f) ->
       calls_of f (w_trace (rounds (length (w_engines w)) rs
                              (startPaymentPolling orderId expected opts w).1)) =
       S (calls_of f (w_trace w))) /\
    (forall evs,
       queries_by (length (w_engines w))
         (w_trace (run evs (rounds (length (w_engines w)) rs
                              (startPaymentPolling orderId expected opts w).1))) =
       (queries_by (length (w_engines w)) (w_trace w) + n)%nat).
Proof.
  intros n orderId expected opts rs w Hmax Hn Hidle Hlen Hrs.
  destruct (startPaymentPolling_armed orderId expected opts w Hidle) as (Ha & Htr).
  set (eid := length (w_engines w)) in *.
  set (w0 := (startPaymentPolling orderId expected opts w).1) in *.
  assert (exists rs' r, rs = rs' ++ [r]) as (rs' & r & ->).
  { destruct rs as [|r rs'] using rev_ind; [simpl in Hlen; lia|]. eauto. }
  destruct (rounds_timeout eid rs' r _ w0 Ha Hrs) as (Htr' & Hst).
  { simpl. rewrite Hmax, Hlen. lia. }
  rewrite Hlen, Htr in *. simpl in Htr'.
  split; [|split; [done|split]].
  - intros k Hk.
    destruct (rounds_retry eid (take k (rs' ++ [r])) _ w0 Ha) as (t & Ha1 & Htr1).
    { now apply Forall_take. }
    { rewrite length_take_le by lia. simpl. rewrite Hmax. lia. }
    rewrite length_take_le in * by lia. exists t.
    destruct Ha1 as (He & _ & (t' & Ht' & Hin & _) & _).
    simpl in Ht'. injection Ht' as <-.
    split; [|done]. rewrite He. reflexivity.
  - intros f Hf. rewrite Htr', Hf; simpl.
    rewrite !calls_of_app, calls_of_queries, calls_of_single. lia.
  - intros evs. apply (stopped_run _ _ evs) in Hst. apply Hst.
Qed.

Lemma initial_idle (env : EnvType) (document : option bool) (c : nat) :
  engine_idle c (initial env document).
Proof. split; intros; simpl; now rewrite lookup_empty. Qed.

Lemma C7_timeout_after_maxAttempts_witness :
  w_trace (rounds 0 [unpaid; unpaid; unpaid]
             (startPaymentPolling "ORD1" "TOK1" (opaque123 3) (initial WEAPP None)).1) =
  [OQuery (APoll 0) "ORD1"; OQuery (APoll 0) "ORD1"; OQuery (APoll 0) "ORD1";
   OCallback KTimeout 3 PNone].
Proof.
  destruct (C7_timeout_after_maxAttempts 3 "ORD1" "TOK1" (opaque123 3)
              [unpaid; unpaid; unpaid] (initial WEAPP None)) as (_ & H & _).
  - reflexivity.
  - lia.
  - apply initial_idle.
  - reflexivity.
  - repeat constructor.
  - exact H.
Defined.

(** ** Resume signals while polling *)

(** C4, as stated, fails: in the mini-program, a session is polling and
    its loop has made one attempt; [handlePageShow] arrives; once its
    one-shot query is answered (payment still pending) the loop has been
    cancelled and replaced by a new one whose attempt counter is 0. *)
Lemma C4_resume_restarts_loop :
  (s_pollingCleanup <$> w_state c4_polling) = Some (Some 0%nat) /\
  ((fun e => (e_attempts e, e_isPolling e)) <$> w_engines c4_polling !! 0%nat)
    = Some (1, true) /\
  (s_pollingCleanup <$> w_state c4_resumed) = Some (Some 1%nat) /\
  ((fun e => (e_attempts e, e_isPolling e)) <$> w_engines c4_resumed !! 0%nat)
    = Some (1, false) /\
  ((fun e => (e_attempts e, e_isPolling e)) <$> w_engines c4_resumed !! 1%nat)
    = Some (0, true) /\
  w_engines c4_resumed <> w_engines c4_polling.
Proof.
  vm_compute. repeat (split; [reflexivity|]). discriminate.
Qed.

Lemma cancelPolling_engine (c : nat) (e : Engine) (w : World) :
  w_engines w !! c = Some e ->
  w_engines (cancelPolling c w) =
  alter (fun _ => with_timeoutId None (with_isPolling false e)) c (w_engines w).
Proof.
  intros He. unfold cancelPolling, upd_engine. rewrite He.
  destruct (e_timeoutId e) as [t|] eqn:Ht; simpl.
  - rewrite list_alter_alter_eq. apply list_alter_ext; [|done].
    intros e' He'. simpl. congruence.
  - apply list_alter_ext; [|done]. intros e' He'.
    assert (e' = e) as -> by congruence.
    unfold with_timeoutId, with_isPolling; simpl. now rewrite Ht.
Qed.

(** C4 (amended): a resume signal arriving while the session is already
    polling restarts the loop.  In the browser the focus and visibility
    handlers and [handlePageShow] call [startPolling] at once; in the
    mini-program [handlePageShow] issues one one-shot query and
    [startPolling] is called when its answer is incomplete or an error.
    [startPolling] cancels the loop the session refers to (flag down,
    timer handle cleared, its attempt counter untouched) and starts a new
    loop with counter 0, budget 30 and interval 3000, to which the
    session now refers; no callback is called. *)
Theorem C4_resume_while_polling_restarts :
  forall (w : World) (s : PaymentState) (c : nat) (e : Engine) (callbacks : Callbacks),
    w_state w = Some s -> s_isPolling s = true ->
    s_pollingCleanup s = Some c -> w_engines w !! c = Some e ->
    (handleFocus callbacks w = startPolling callbacks w /\
     (w_document w = Some false ->
        handleVisibilityChange callbacks w = startPolling callbacks w) /\
     (w_env w = WEB ->
        handlePageShow w = startPolling (default noCallbacks (s_callbacks s)) w) /\
     (w_env w = WEAPP ->
        handlePageShow w = getPaymentStatus ACheckOnce (s_orderId s) w /\
        checkPaymentStatusOnce_resume Rejected w =
          startPolling (default noCallbacks (s_callbacks s)) w /\
        forall r, isPaymentComplete r = false ->
          checkPaymentStatusOnce_resume (Resolved r) w =
          startPolling (default noCallbacks (s_callbacks s)) w)) /\
    (w_engines (startPolling callbacks w) !! c =
       Some (with_timeoutId None (with_isPolling false e)) /\
     w_engines (startPolling callbacks w) !! length (w_engines w) =
       Some (mkEngine (s_orderId s) (s_attach s) (Some (HManager callbacks))
               (Some (HManager callbacks)) (Some (HManager callbacks))
               30 3000 0 true (Some (w_nextTimer w))) /\
     w_timers (startPolling callbacks w) !! w_nextTimer w =
       Some (length (w_engines w), 3000) /\
     w_state (startPolling callbacks w) =
       Some (with_pollingCleanup (Some (length (w_engines w))) s) /\
     w_trace (startPolling callbacks w) = w_trace w).
Proof.
  intros w s c e callbacks Hs Hp Hc He. split.
  - split; [|split; [|split]].
    + unfold handleFocus. now rewrite Hs, Hp.
    + intros Hd. unfold handleVisibilityChange. now rewrite Hd, Hs, Hp.
    + intros Henv. unfold handlePageShow. now rewrite Hs, Hp, Henv.
    + intros Henv. split; [|split].
      * unfold handlePageShow, checkPaymentStatusOnce. now rewrite Hs, Hp, Henv.
      * unfold checkPaymentStatusOnce_resume, checkPaymentStatusOnce_catch.
        now rewrite Hs.
      * intros r Hr. unfold checkPaymentStatusOnce_resume. now rewrite Hs, Hr.
  - pose proof (lookup_lt_Some _ _ _ He) as Hlt.
    pose proof (cancelPolling_engine c e w He) as Hcancel.
    pose proof (cancelPolling_state c w) as Hcs.
    unfold startPolling. rewrite Hs, Hp, Hc; simpl.
    unfold upd_engine; simpl. rewrite Hcancel, Hcs, Hs, length_alter.
    assert (w_nextTimer (cancelPolling c w) = w_nextTimer w) as ->.
    { unfold cancelPolling. rewrite He. now destruct (e_timeoutId e). }
    rewrite cancelPolling_trace.
    split; [|split; [|split; [|done]]].
    + rewrite list_lookup_alter_ne, lookup_app_l by (rewrite ?length_alter; lia).
      now rewrite list_lookup_alter_eq, He.
    + rewrite list_lookup_alter_eq, lookup_app_r by (rewrite length_alter; lia).
      now rewrite length_alter, Nat.sub_diag.
    + apply lookup_insert_eq.
Qed.

Lemma C4_resume_while_polling_restarts_witness :
  w_engines (startPolling noCallbacks c4_polling) !! 0%nat =
    Some (mkEngine "ORD1" "TOK1" (Some (HManager cb123)) (Some (HManager cb123))
            (Some (HManager cb123)) 30 3000 1 false None) /\
  w_engines (startPolling noCallbacks c4_polling) !! 1%nat =
    Some (mkEngine "ORD1" "TOK1" (Some (HManager noCallbacks))
            (Some (HManager noCallbacks)) (Some (HManager noCallbacks))
            30 3000 0 true (Some 3%nat)).
Proof.
  destruct (C4_resume_while_polling_restarts c4_polling
              (mkState "ORD1" "TOK1" 1000 true (Some 0%nat) None (Some cb123)) 0%nat
              (mkEngine "ORD1" "TOK1" (Some (HManager cb123)) (Some (HManager cb123))
                 (Some (HManager cb123)) 30 3000 1 true (Some 2%nat))
              noCallbacks) as (_ & H0 & H1 & _).
  - reflexivity.
  - reflexivity.
  - reflexivity.
  - reflexivity.
  - split; [exact H0 | exact H1].
Defined.

(** ** The manual check *)

(** C9, as stated, fails: with an active session, the manual check returns
    [null] when the response is complete but carries another attach, and
    when the query fails. *)
Lemma C9_null_despite_active_session :
  w_state c9_session =
    Some (mkState "ORD1" "TOK1" 1000 true None None (Some cb123)) /\
  manualCheckPaymentStatus c9_session =
    (getPaymentStatus AManual "ORD1" c9_session, None) /\
  (manualCheckPaymentStatus_resume (Resolved (paid "TOK2"))
     (manualCheckPaymentStatus c9_session).1).2 = None /\
  (manualCheckPaymentStatus_resume Rejected
     (manualCheckPaymentStatus c9_session).1).2 = None /\
  w_trace (run [EManualCheck; EResponse 1 (Resolved (paid "TOK2"))] c9_session) =
    [OQuery AManual "ORD1"; OToast ToastVerifyFailed; OReturn None].
Proof. vm_compute. repeat (split; [reflexivity|]). reflexivity. Qed.

(** C9 (amended): without a session the manual check returns [null] at
    once and leaves the world untouched (no query).  With a session it
    issues one status query and, when the answer arrives, returns the
    response if it is incomplete (nothing but a toast happens) or if it is
    complete with the session's attach (after [cleanup()]); it returns
    [null] if the response is complete with another attach (after
    [cleanup()]), if the query fails, or if the response is complete and
    the session is gone by then.  The manual check never calls
    [startPolling]: apart from what [cleanup()] does, the polling closures
    and timers are left as they are. *)
Theorem C9_manual_check_result :
  forall w : World,
    (w_state w = None -> manualCheckPaymentStatus w = (w, Some None)) /\
    (forall s, w_state w = Some s ->
       manualCheckPaymentStatus w = (getPaymentStatus AManual (s_orderId s) w, None) /\
       w_engines (manualCheckPaymentStatus w).1 = w_engines w /\
       w_timers (manualCheckPaymentStatus w).1 = w_timers w) /\
    manualCheckPaymentStatus_resume Rejected w =
      (observe (OToast ToastQueryFailed) w, None) /\
    (forall r, isPaymentComplete r = false ->
       manualCheckPaymentStatus_resume (Resolved r) w =
       (observe (OToast ToastNotPaidYet) w, Some r)) /\
    (forall r s, isPaymentComplete r = true -> w_state w = Some s ->
       r_attach r = Some (s_attach s) ->
       manualCheckPaymentStatus_resume (Resolved r) w = (cleanup w, Some r)) /\
    (forall r s, isPaymentComplete r = true -> w_state w = Some s ->
       r_attach r <> Some (s_attach s) ->
       manualCheckPaymentStatus_resume (Resolved r) w =
       (observe (OToast ToastVerifyFailed) (cleanup w), None)) /\
    (forall r, isPaymentComplete r = true -> w_state w = None ->
       manualCheckPaymentStatus_resume (Resolved r) w =
       (observe (OToast ToastQueryFailed) w, None)).
Proof.
  intros w. unfold manualCheckPaymentStatus, manualCheckPaymentStatus_resume.
  split; [now intros ->|]. split; [now intros s ->|]. split; [done|].
  split; [now intros r ->|]. split; [|split].
  - intros r s -> -> Ha. apply attach_differs_spec in Ha. now rewrite Ha.
  - intros r s -> -> Ha. destruct (attach_differs r (s_attach s)) eqn:Hd; [done|].
    now apply attach_differs_spec in Hd.
  - now intros r -> ->.
Qed.

Lemma C9_manual_check_result_witness :
  manualCheckPaymentStatus (initial WEAPP None) = (initial WEAPP None, Some None) /\
  manualCheckPaymentStatus_resume (Resolved (paid "TOK1")) c9_session =
    (cleanup c9_session, Some (paid "TOK1")).
Proof.
  destruct (C9_manual_check_result (initial WEAPP None)) as (H0 & _).
  destruct (C9_manual_check_result c9_session) as (_ & _ & _ & _ & H1 & _).
  split.
  - apply H0. reflexivity.
  - apply (H1 (paid "TOK1")
             (mkState "ORD1" "TOK1" 1000 true None None (Some cb123)));
      reflexivity.
Defined.

(** ** Callbacks after cancellation, repeated callbacks, coexisting loops *)

(** What the answer to an outstanding query does in a closure that has
    been cancelled meanwhile (its flag is down): only an incomplete
    response with attempts left is dropped; in every other case the
    handler is invoked as if the loop were still running. *)
Lemma cancelled_poll_resume (w : World) (eid : nat) (e : Engine) :
  w_engines w !! eid = Some e -> e_isPolling e = false ->
  (forall r, classify r (e_expectedAttach e) = Verified ->
     w_trace (poll_resume eid (Resolved r) w) =
     w_trace w ++ invoke_obs KSuccess (e_onSuccess e) (PResult r)) /\
  (forall r, classify r (e_expectedAttach e) = Mismatched ->
     w_trace (poll_resume eid (Resolved r) w) =
     w_trace w ++ invoke_obs KFailed (e_onFailed e) (PMismatch r)) /\
  (forall r, classify r (e_expectedAttach e) = Incomplete ->
     e_maxAttempts e <= e_attempts e ->
     w_trace (poll_resume eid (Resolved r) w) =
     w_trace w ++ invoke_obs KTimeout (e_onTimeout e) PNone) /\
  (forall r, classify r (e_expectedAttach e) = Incomplete ->
     e_attempts e < e_maxAttempts e ->
     poll_resume eid (Resolved r) w = w) /\
  w_trace (poll_resume eid Rejected w) =
    w_trace w ++ invoke_obs KFailed (e_onFailed e) PQueryFailed.
Proof.
  intros He Hp. unfold poll_resume, classify. rewrite He, Hp, andb_false_r.
  repeat split.
  - intros r Hc. destruct (isPaymentComplete r); [|done].
    destruct (attach_differs r _); [done|]. now rewrite invoke_trace.
  - intros r Hc. destruct (isPaymentComplete r); [|done].
    destruct (attach_differs r _); [|done]. now rewrite invoke_trace.
  - intros r Hc Hle. destruct (isPaymentComplete r).
    + destruct (attach_differs r _); done.
    + apply Z.leb_le in Hle as ->. now rewrite invoke_trace.
  - intros r Hc Hlt. destruct (isPaymentComplete r).
    + destruct (attach_differs r _); done.
    + destruct (e_maxAttempts e <=? e_attempts e) eqn:Hle; [|done].
      apply Z.leb_le in Hle. lia.
  - now rewrite invoke_trace.
Qed.

(** C1 on the code: in the mini-program a session is polling and the
    query of its first attempt is outstanding; [cleanup()] is called (no
    session is left, the loop's flag is down).  When the query is then
    answered, a callback is called all the same: [onSuccess] on a complete
    response with the right attach, [onFailed] on a complete response with
    another attach and on an error. *)
Theorem C1_callback_after_cleanup :
  w_requests c1_query_outstanding !! 2%nat = Some (APoll 0) /\
  w_state (step ECleanup c1_query_outstanding) = None /\
  (e_isPolling <$> w_engines (step ECleanup c1_query_outstanding) !! 0%nat) = Some false /\
  w_trace (step ECleanup c1_query_outstanding) =
    [OQuery ACheckOnce "ORD1"; OQuery (APoll 0) "ORD1"] /\
  w_trace (run [ECleanup; EResponse 2 (Resolved (paid "TOK1"))] c1_query_outstanding) =
    [OQuery ACheckOnce "ORD1"; OQuery (APoll 0) "ORD1";
     OCallback KSuccess 1 (PResult (paid "TOK1"))] /\
  w_trace (run [ECleanup; EResponse 2 (Resolved (paid "TOK2"))] c1_query_outstanding) =
    [OQuery ACheckOnce "ORD1"; OQuery (APoll 0) "ORD1";
     OCallback KFailed 2 (PMismatch (paid "TOK2"));
     OToast (ToastPayFailed (PMismatch (paid "TOK2")))] /\
  w_trace (run [ECleanup; EResponse 2 Rejected] c1_query_outstanding) =
    [OQuery ACheckOnce "ORD1"; OQuery (APoll 0) "ORD1";
     OCallback KFailed 2 PQueryFailed; OToast (ToastPayFailed PQueryFailed)].
Proof. vm_compute. repeat (split; [reflexivity|]). reflexivity. Qed.

(** C2 on the code: in the browser, with the page visible, one session
    whose first attempt finds the payment done: [cleanup()], run by the
    success handler, starts a further loop through [originalCleanup];
    that loop queries again and [onSuccess] is called a second time.  In
    the mini-program, a second [handlePageShow] restarts the loop while
    the query of the first loop is outstanding; both loops then get a
    complete response and [onSuccess] is called twice. *)
Theorem C2_onSuccess_called_twice :
  w_trace c2_run =
    [OQuery (APoll 0) "ORD1"; OCallback KSuccess 1 (PResult (paid "TOK1"));
     OQuery (APoll 1) "ORD1"; OCallback KSuccess 1 (PResult (paid "TOK1"))] /\
  calls_of 1 (w_trace c2_run) = 2%nat /\
  w_trace c2_run_miniprogram =
    [OQuery ACheckOnce "ORD1"; OQuery (APoll 0) "ORD1";
     OQuery ACheckOnce "ORD1"; OQuery (APoll 1) "ORD1";
     OCallback KSuccess 1 (PResult (paid "TOK1"));
     OCallback KSuccess 1 (PResult (paid "TOK1"))] /\
  calls_of 1 (w_trace c2_run_miniprogram) = 2%nat.
Proof. vm_compute. repeat (split; [reflexivity|]). reflexivity. Qed.

(** In the browser, with the page visible, [cleanup()] on a session whose
    listeners are registered leaves a new polling loop behind: it is
    started by [originalCleanup] just before [state] is set to [null], so
    that no cleanup function refers to it any more. *)
Lemma cleanup_starts_loop (w : World) (s : PaymentState) (l : nat) (callbacks : Callbacks) :
  w_state w = Some s -> s_isPolling s = true ->
  s_visibilityChangeHandler s = Some (l, callbacks) ->
  w_document w = Some false ->
  w_state (cleanup w) = None /\
  w_engines (cleanup w) !! length (w_engines w) =
    Some (mkEngine (s_orderId s) (s_attach s) (Some (HManager callbacks))
            (Some (HManager callbacks)) (Some (HManager callbacks))
            30 3000 0 true (Some (w_nextTimer w))) /\
  w_timers (cleanup w) !! w_nextTimer w = Some (length (w_engines w), 3000).
Proof.
  intros Hs Hp Hv Hd. split; [apply cleanup_state|].
  unfold cleanup. rewrite Hs, Hv.
  set (w1 := match s_pollingCleanup s with
             | Some c => cancelPolling c w
             | None => w
             end).
  assert (w_state w1 = Some s /\ w_document w1 = Some false /\
          length (w_engines w1) = length (w_engines w) /\
          w_nextTimer w1 = w_nextTimer w) as (Hs1 & Hd1 & Hl1 & Hn1).
  { subst w1. destruct (s_pollingCleanup s) as [c|]; [|done].
    unfold cancelPolling, upd_engine.
    repeat case_match; simpl; rewrite ?length_alter; done. }
  unfold visibilityCleanup, handleVisibilityChange; simpl.
  rewrite Hd1, Hs1, Hp. unfold startPolling; simpl. rewrite Hs1, Hp; simpl.
  set (w2 := match s_pollingCleanup s with
             | Some c => cancelPolling c _
             | None => _
             end).
  assert (length (w_engines w2) = length (w_engines w) /\
          w_nextTimer w2 = w_nextTimer w) as (Hl2 & Hn2).
  { subst w2. destruct (s_pollingCleanup s) as [c|]; [|done].
    unfold cancelPolling, upd_engine.
    repeat case_match; simpl; rewrite ?length_alter; done. }
  unfold upd_engine; simpl. rewrite Hl2, Hn2. split.
  - rewrite list_lookup_alter_eq, lookup_app_r by lia.
    now rewrite Hl2, Nat.sub_diag.
  - apply lookup_insert_eq.
Qed.

(** C8 on the code: in the browser, with the page visible, [cleanup()] on
    a session that has never polled is not without effect.  Before the
    call no closure is polling and no timer is pending; the call ends the
    session, and a second call changes nothing more, but the first call
    has started a polling loop for the order, with its timer armed, that
    no cleanup function refers to.  When the timer fires the loop queries
    the gateway, and on a complete answer with the matching attach the
    caller's [onSuccess] is called, after [cleanup()]. *)
Theorem C8_cleanup_starts_polling :
  active_engines c8_session = [] /\
  w_timers c8_session = ∅ /\
  w_state (step ECleanup c8_session) = None /\
  run [ECleanup; ECleanup] c8_session = step ECleanup c8_session /\
  active_engines (step ECleanup c8_session) = [0%nat] /\
  (e_orderId <$> w_engines (step ECleanup c8_session) !! 0%nat) = Some "ORD1" /\
  w_timers (step ECleanup c8_session) !! 1%nat = Some (0%nat, 3000) /\
  w_trace (step ECleanup c8_session) = [] /\
  w_trace (run [ECleanup; ETimer 1; EResponse 1 (Resolved (paid "TOK1"))] c8_session) =
    [OQuery (APoll 0) "ORD1"; OCallback KSuccess 1 (PResult (paid "TOK1"))].
Proof. vm_compute. repeat (split; [reflexivity|]). reflexivity. Qed.

(** C5 on the code: in the browser, with the page visible, a second
    [startPayment] starts a loop for the first order while tearing its
    session down; after the next focus event the loop of the second
    session polls next to it: two loops are active, each with its timer
    armed, and both query. *)
Theorem C5_two_loops_active :
  active_engines c5_run = [0; 1]%nat /\
  (e_orderId <$> w_engines c5_run !! 0%nat) = Some "ORD1" /\
  (e_orderId <$> w_engines c5_run !! 1%nat) = Some "ORD2" /\
  w_timers c5_run !! 1%nat = Some (0%nat, 3000) /\
  w_timers c5_run !! 2%nat = Some (1%nat, 3000) /\
  (s_pollingCleanup <$> w_state c5_run) = Some (Some 1%nat) /\
  w_trace (run [ETimer 1; ETimer 2] c5_run) =
    [OQuery (APoll 0) "ORD1"; OQuery (APoll 1) "ORD2"].
Proof. vm_compute. repeat (split; [reflexivity|]). reflexivity. Qed.

(** ** Reachable worlds are bounded *)

Section Bounded.
Implicit Types (w : World) (c : nat).

Lemma bounded_same w w' :
  length (w_engines w') = length (w_engines w) -> w_timers w' = w_timers w ->
  w_requests w' = w_requests w -> bounded w -> bounded w'.
Proof. unfold bounded. intros -> -> ->. done. Qed.

Lemma bounded_upd_engine c f w : bounded w -> bounded (upd_engine c f w).
Proof. apply bounded_same; simpl; [apply length_alter|done|done]. Qed.

Lemma bounded_clearTimeout t w : bounded w -> bounded (clearTimeout t w).
Proof.
  intros (Ht & Hq). split; [|done]. intros t' c d; simpl.
  destruct (decide (t = t')) as [->|Hne].
  - now rewrite lookup_delete_eq.
  - rewrite lookup_delete_ne by done. apply Ht.
Qed.

Lemma bounded_answered q w :
  bounded w -> bounded (set_requests (delete q (w_requests w)) (w_nextRequest w) w).
Proof.
  intros (Ht & Hq). split; [done|]. intros q' c; simpl.
  destruct (decide (q = q')) as [->|Hne].
  - now rewrite lookup_delete_eq.
  - rewrite lookup_delete_ne by done. apply Hq.
Qed.

Lemma bounded_setTimeout c d w :
  (c < length (w_engines w))%nat -> bounded w -> bounded (setTimeout c d w).1.
Proof.
  intros Hc (Ht & Hq). split; [|done]. intros t' c' d'; simpl.
  destruct (decide (w_nextTimer w = t')) as [<-|Hne].
  - rewrite lookup_insert_eq. congruence.
  - rewrite lookup_insert_ne by done. apply Ht.
Qed.

Lemma bounded_schedule c d w :
  (c < length (w_engines w))%nat -> bounded w -> bounded (schedule c d w).
Proof.
  intros Hc Hb. unfold schedule.
  pose proof (bounded_setTimeout c d w Hc Hb) as H.
  destruct (setTimeout c d w) as [w1 t]. now apply bounded_upd_engine.
Qed.

Lemma bounded_getPaymentStatus a o w :
  (forall c, a = APoll c -> (c < length (w_engines w))%nat) ->
  bounded w -> bounded (getPaymentStatus a o w).
Proof.
  intros Ha (Ht & Hq). split; [done|]. intros q c; simpl.
  destruct (decide (w_nextRequest w = q)) as [<-|Hne].
  - rewrite lookup_insert_eq. intros [= ->]. now apply Ha.
  - rewrite lookup_insert_ne by done. apply Hq.
Qed.

Lemma bounded_call_opt k f p w : bounded w -> bounded (call_opt k f p w).
Proof. destruct f; simpl; [|done]. now apply bounded_same. Qed.

Lemma bounded_cancelPolling c w : bounded w -> bounded (cancelPolling c w).
Proof.
  intros Hb. unfold cancelPolling. repeat case_match; try done;
    repeat first [apply bounded_upd_engine | apply bounded_clearTimeout]; done.
Qed.

Lemma bounded_startPaymentPolling o a opts w :
  bounded w -> bounded (startPaymentPolling o a opts w).1.
Proof.
  intros (Ht & Hq). unfold startPaymentPolling; simpl.
  apply bounded_upd_engine.
  match goal with |- bounded (set_timers _ _ ?w1) =>
    change (bounded (setTimeout (length (w_engines w))
              (default 2000 (o_interval opts)) w1).1) end.
  apply bounded_setTimeout; simpl; [rewrite length_app; simpl; lia|].
  split; simpl.
  - intros t c d H. apply Ht in H. rewrite length_app. lia.
  - intros q c H. apply Hq in H. rewrite length_app. lia.
Qed.

Lemma bounded_upd_state f w : bounded w -> bounded (upd_state f w).
Proof. now apply bounded_same. Qed.

Lemma bounded_startPolling callbacks w : bounded w -> bounded (startPolling callbacks w).
Proof.
  intros Hb. unfold startPolling. repeat case_match; try done;
    apply bounded_upd_state;
    match goal with H : startPaymentPolling ?o ?a ?p ?w1 = (?w2, _) |- _ =>
      replace w2 with (startPaymentPolling o a p w1).1 by now rewrite H end;
    apply bounded_startPaymentPolling; try done.
  now apply bounded_cancelPolling.
Qed.

Lemma bounded_handleVisibilityChange callbacks w :
  bounded w -> bounded (handleVisibilityChange callbacks w).
Proof.
  intros Hb. unfold handleVisibilityChange. repeat case_match; try done.
  now apply bounded_startPolling.
Qed.

Lemma bounded_handleFocus callbacks w : bounded w -> bounded (handleFocus callbacks w).
Proof.
  intros Hb. unfold handleFocus. repeat case_match; try done.
  now apply bounded_startPolling.
Qed.

Lemma bounded_cleanup w : bounded w -> bounded (cleanup w).
Proof.
  intros Hb. unfold cleanup. destruct (w_state w) as [s|]; [|done].
  set (w1 := match s_pollingCleanup s with
             | Some c => cancelPolling c w
             | None => w
             end).
  assert (bounded w1) as H1.
  { subst w1. destruct (s_pollingCleanup s); [|done]. now apply bounded_cancelPolling. }
  set (w2 := match s_visibilityChangeHandler s with
             | Some h => visibilityCleanup h w1
             | None => w1
             end).
  apply (bounded_same w2); try done. subst w2.
  destruct (s_visibilityChangeHandler s) as [h|]; [|done].
  apply bounded_handleVisibilityChange. revert H1. now apply bounded_same.
Qed.

Lemma bounded_invoke k h p w : bounded w -> bounded (invoke k h p w).
Proof.
  intros Hb. destruct h as [[f|callbacks]|]; simpl; try done.
  apply (bounded_same (cleanup w)); try (destruct k, (member _ callbacks); done).
  now apply bounded_cleanup.
Qed.

Lemma bounded_startPayment o a m callbacks w :
  bounded w -> bounded (startPayment o a m callbacks w).
Proof.
  intros Hb. apply bounded_cleanup in Hb.
  apply (bounded_same (cleanup w)); try done;
    unfold startPayment, setupAppShowHandler, setupVisibilityChangeHandler;
    repeat (simpl; case_match); done.
Qed.

Lemma bounded_checkPaymentStatusOnce_resume out w :
  bounded w -> bounded (checkPaymentStatusOnce_resume out w).
Proof.
  intros Hb. unfold checkPaymentStatusOnce_resume, checkPaymentStatusOnce_catch.
  repeat case_match; try done; try (now apply bounded_startPolling).
  - apply (bounded_same (cleanup (call_opt KFailed (s_callbacks p ≫= onFailed) (PResult r) w)));
      try done.
    now apply bounded_cleanup, bounded_call_opt.
  - now apply bounded_cleanup, bounded_call_opt.
Qed.

Lemma bounded_handlePageShow w : bounded w -> bounded (handlePageShow w).
Proof.
  intros Hb. unfold handlePageShow, checkPaymentStatusOnce.
  repeat case_match; try done.
  - now apply bounded_startPolling.
  - now apply bounded_getPaymentStatus.
Qed.

Lemma bounded_manualCheckPaymentStatus w :
  bounded w -> bounded (manualCheckPaymentStatus w).1.
Proof.
  intros Hb. unfold manualCheckPaymentStatus. case_match; simpl; [|done].
  now apply bounded_getPaymentStatus.
Qed.

Lemma bounded_manualCheckPaymentStatus_resume out w :
  bounded w -> bounded (manualCheckPaymentStatus_resume out w).1.
Proof.
  intros Hb. pose proof (bounded_cleanup w Hb) as Hc.
  unfold manualCheckPaymentStatus_resume.
  repeat case_match; simpl; try done;
    first [revert Hc; now apply bounded_same | revert Hb; now apply bounded_same].
Qed.

Lemma bounded_poll c w : bounded w -> bounded (poll c w).
Proof.
  intros Hb. unfold poll. destruct (w_engines w !! c) as [e|] eqn:He; [|done].
  destruct (e_isPolling e); [|done]. apply lookup_lt_Some in He.
  apply bounded_getPaymentStatus; [|now apply bounded_upd_engine].
  intros c' [= <-]. simpl. now rewrite length_alter.
Qed.

Lemma bounded_poll_resume c out w : bounded w -> bounded (poll_resume c out w).
Proof.
  intros Hb. unfold poll_resume. destruct (w_engines w !! c) as [e|] eqn:He; [|done].
  apply lookup_lt_Some in He.
  repeat case_match; try done;
    try (apply bounded_invoke, bounded_upd_engine; done);
    now apply bounded_schedule.
Qed.

Lemma bounded_dispatch f ls w :
  (forall cb w', bounded w' -> bounded (f cb w')) ->
  bounded w -> bounded (dispatch f ls w).
Proof.
  intros Hf. unfold dispatch. revert w.
  induction ls as [|p ls IH]; intros w Hb; simpl; [done|].
  apply IH, Hf, Hb.
Qed.

Lemma bounded_step ev w : bounded w -> bounded (step ev w).
Proof.
  intros Hb. destruct ev; simpl.
  - now apply bounded_startPayment.
  - now apply bounded_handlePageShow.
  - now apply bounded_cleanup.
  - pose proof (bounded_manualCheckPaymentStatus w Hb) as H.
    destruct (manualCheckPaymentStatus w) as [w1 [v|]]; simpl in H; [|done].
    revert H. now apply bounded_same.
  - case_match; [|done].
    apply bounded_dispatch; [apply bounded_handleVisibilityChange|].
    revert Hb. now apply bounded_same.
  - case_match; [|done].
    now apply bounded_dispatch; [apply bounded_handleFocus|].
  - destruct (w_timers w !! t) as [[c d]|]; [|done].
    now apply bounded_poll, bounded_clearTimeout.
  - destruct (w_requests w !! q) as [a|]; [|done].
    pose proof (bounded_answered q w Hb) as Hb'.
    destruct a as [c| |]; simpl.
    + now apply bounded_poll_resume.
    + now apply bounded_checkPaymentStatusOnce_resume.
    + pose proof (bounded_manualCheckPaymentStatus_resume out _ Hb') as H.
      destruct (manualCheckPaymentStatus_resume out _) as [w1 v].
      revert H. now apply bounded_same.
Qed.

Lemma bounded_run evs w : bounded w -> bounded (run evs w).
Proof.
  unfold run. revert w. induction evs as [|ev evs IH]; intros w Hb; simpl; [done|].
  apply IH, bounded_step, Hb.
Qed.

Lemma bounded_initial env document : bounded (initial env document).
Proof. split; intros *; simpl; now rewrite lookup_empty. Qed.

(** In a bounded world nothing is pending for the closure that the next
    [startPaymentPolling] will create: the freshness assumption of C7. *)
Lemma bounded_idle w : bounded w -> engine_idle (length (w_engines w)) w.
Proof.
  intros (Ht & Hq). split.
  - intros t d H. apply Ht in H. lia.
  - intros q H. apply Hq in H. lia.
Qed.

Lemma reachable_idle env document evs :
  engine_idle (length (w_engines (run evs (initial env document))))
    (run evs (initial env document)).
Proof. apply bounded_idle, bounded_run, bounded_initial. Qed.
End Bounded.

(** ** Outside the browser at most one loop is active

    The loop that [cleanup()] starts needs a registered visibility
    handler.  Where none can be registered (mini-program, or no
    document), every polling closure is the one the session refers to. *)

Section SingleLoop.
Implicit Types (w : World) (c : nat).

Lemma single_same w w' :
  w_env w' = w_env w -> w_document w' = w_document w ->
  w_state w' = w_state w -> w_engines w' = w_engines w ->
  single_loop w -> single_loop w'.
Proof. unfold single_loop, no_listeners. intros -> -> -> ->. done. Qed.

Lemma cancelPolling_lookup c c' w :
  w_engines (cancelPolling c w) !! c' =
  if decide (c = c')
  then (fun e => with_timeoutId None (with_isPolling false e)) <$> w_engines w !! c
  else w_engines w !! c'.
Proof.
  destruct (w_engines w !! c) as [e|] eqn:He.
  - rewrite (cancelPolling_engine c e w He). case_decide as Hc.
    + subst c'. now rewrite list_lookup_alter_eq, He.
    + now rewrite list_lookup_alter_ne.
  - unfold cancelPolling. rewrite He. case_decide; [|done].
    subst c'. simpl. done.
Qed.

Lemma cancelPolling_frame c w :
  w_env (cancelPolling c w) = w_env w /\ w_document (cancelPolling c w) = w_document w /\
  w_state (cancelPolling c w) = w_state w.
Proof. unfold cancelPolling, upd_engine. repeat case_match; done. Qed.

(** Cancelling the loop the session refers to leaves no loop polling. *)
Lemma cancel_quiet w s :
  single_loop w -> w_state w = Some s ->
  quiet (match s_pollingCleanup s with
         | Some c => cancelPolling c w
         | None => w
         end).
Proof.
  intros (_ & _ & Hact) Hs c' e' He'.
  destruct (e_isPolling e') eqn:Hp; [exfalso|done].
  destruct (s_pollingCleanup s) as [c|] eqn:Hc.
  - rewrite cancelPolling_lookup in He'. case_decide as Hcc.
    + destruct (w_engines w !! c); simpl in He'; [|done].
      injection He' as <-. done.
    + destruct (Hact _ _ He' Hp) as (s' & Hs' & Hc'). congruence.
  - destruct (Hact _ _ He' Hp) as (s' & Hs' & Hc'). congruence.
Qed.

Lemma single_cleanup w :
  single_loop w ->
  single_loop (cleanup w) /\ quiet (cleanup w) /\
  w_env (cleanup w) = w_env w /\ w_document (cleanup w) = w_document w.
Proof.
  intros Hj. unfold cleanup. destruct (w_state w) as [s|] eqn:Hs.
  - pose proof (cancel_quiet w s Hj Hs) as Hq.
    destruct Hj as (Hn & Hvis & Hact). rewrite (Hvis s Hs).
    assert (forall w1, w_env w1 = w_env w -> w_document w1 = w_document w ->
              quiet w1 ->
              single_loop (set_state None w1) /\ quiet (set_state None w1) /\
              w_env (set_state None w1) = w_env w /\
              w_document (set_state None w1) = w_document w) as Hgen.
    { intros w1 He Hd Hq1. split; [|done]. split; [|split]; simpl.
      - unfold no_listeners; simpl. now rewrite He, Hd.
      - done.
      - intros c e Hl Hp. apply Hq1 in Hl. congruence. }
    destruct (s_pollingCleanup s) as [c|]; [|now apply Hgen].
    destruct (cancelPolling_frame c w) as (He & Hd & _). now apply Hgen.
  - split; [done|]. split; [|done]. intros c e Hl.
    destruct (e_isPolling e) eqn:Hp; [|done].
    destruct Hj as (_ & _ & Hact). destruct (Hact _ _ Hl Hp) as (s & Hs' & _).
    congruence.
Qed.

Lemma single_startPolling callbacks w :
  single_loop w -> single_loop (startPolling callbacks w).
Proof.
  intros Hj. unfold startPolling. destruct (w_state w) as [s|] eqn:Hs; [|done].
  destruct (negb (s_isPolling s)); [done|].
  pose proof (cancel_quiet w s Hj Hs) as Hq.
  destruct Hj as (Hn & Hvis & _).
  set (w1 := match s_pollingCleanup s with
             | Some c => cancelPolling c w
             | None => w
             end) in *.
  assert (w_env w1 = w_env w /\ w_document w1 = w_document w /\
          w_state w1 = Some s) as (He & Hd & Hs1).
  { subst w1. destruct (s_pollingCleanup s) as [c|]; [|done].
    destruct (cancelPolling_frame c w) as (? & ? & ?). split; [done|].
    split; congruence. }
  unfold startPaymentPolling, upd_state, upd_engine; simpl.
  split; [|split].
  - unfold no_listeners; simpl. now rewrite He, Hd.
  - simpl. rewrite Hs1; simpl. intros s' [= <-]. simpl. now apply Hvis.
  - simpl. rewrite Hs1; simpl. intros c e Hl Hp.
    exists (with_pollingCleanup (Some (length (w_engines w1))) s).
    split; [done|]. simpl. f_equal.
    destruct (decide (c = length (w_engines w1))) as [->|Hne]; [done|].
    rewrite list_lookup_alter_ne in Hl by done.
    apply lookup_app_Some in Hl as [Hl|[Hge Hl]].
    + apply Hq in Hl. congruence.
    + destruct (c - length (w_engines w1))%nat as [|k] eqn:Hk; [lia|].
      simpl in Hl. now rewrite lookup_nil in Hl.
Qed.

Lemma single_observe o w : single_loop w -> single_loop (observe o w).
Proof. now apply single_same. Qed.

Lemma single_call_opt k f p w : single_loop w -> single_loop (call_opt k f p w).
Proof. destruct f; simpl; [|done]. now apply single_same. Qed.

Lemma single_invoke k h p w : single_loop w -> single_loop (invoke k h p w).
Proof.
  intros Hj. destruct h as [[f|callbacks]|]; [| |done].
  - revert Hj. now apply single_same.
  - apply single_cleanup in Hj as (Hj & _).
    apply (single_same (cleanup w)); try done;
      simpl; destruct k, (member _ callbacks); done.
Qed.

Lemma single_upd_engine c f w :
  (forall e, e_isPolling (f e) = true -> e_isPolling e = true) ->
  single_loop w -> single_loop (upd_engine c f w).
Proof.
  intros Hf (Hn & Hvis & Hact). split; [done|]. split; [done|].
  unfold upd_engine; simpl. intros c' e' Hl Hp.
  destruct (decide (c = c')) as [->|Hne].
  - rewrite list_lookup_alter_eq in Hl.
    destruct (w_engines w !! c') as [e|] eqn:He; simpl in Hl; [|done].
    injection Hl as <-. eauto.
  - rewrite list_lookup_alter_ne in Hl by done. eauto.
Qed.

Lemma single_getPaymentStatus a o w :
  single_loop w -> single_loop (getPaymentStatus a o w).
Proof. now apply single_same. Qed.

Lemma single_schedule c d w : single_loop w -> single_loop (schedule c d w).
Proof.
  intros Hj. unfold schedule, setTimeout.
  apply single_upd_engine; [done|]. revert Hj. now apply single_same.
Qed.

Lemma single_startPayment o a m callbacks w :
  single_loop w -> single_loop (startPayment o a m callbacks w).
Proof.
  intros Hj. destruct (single_cleanup w Hj) as ((Hn & _) & Hq & He & Hd).
  unfold startPayment, setupVisibilityChangeHandler, setupAppShowHandler, upd_state.
  simpl. rewrite He, Hd.
  assert (forall s, s_visibilityChangeHandler s = None ->
            single_loop (set_state (Some s) (cleanup w))) as Hgen.
  { intros s Hv. split; [done|]. split; simpl.
    - now intros s' [= <-].
    - intros c e Hl Hp. apply Hq in Hl. congruence. }
  destruct (w_env w) eqn:Henv; simpl; rewrite ?He, ?Henv; simpl.
  - destruct (w_document w) eqn:Hdoc; simpl; rewrite ?He, ?Henv.
    + destruct Hn as [Hn|Hn]; [now rewrite He in Hn | rewrite Hd in Hn; done].
    + now apply Hgen.
  - eapply single_same; [| | |reflexivity|apply (Hgen (mkState o a m true None None (Some callbacks)))];
      done.
  - now apply Hgen.
Qed.

Lemma single_checkPaymentStatusOnce_resume out w :
  single_loop w -> single_loop (checkPaymentStatusOnce_resume out w).
Proof.
  intros Hj. unfold checkPaymentStatusOnce_resume, checkPaymentStatusOnce_catch.
  repeat case_match; try (now apply single_startPolling);
    try (now apply single_observe).
  - apply single_observe. now apply single_cleanup, single_call_opt.
  - now apply single_cleanup, single_call_opt.
Qed.

Lemma single_handlePageShow w : single_loop w -> single_loop (handlePageShow w).
Proof.
  intros Hj. unfold handlePageShow, checkPaymentStatusOnce.
  repeat case_match;
    first [done | now apply single_startPolling | now apply single_getPaymentStatus].
Qed.

Lemma single_manualCheckPaymentStatus_resume out w :
  single_loop w -> single_loop (manualCheckPaymentStatus_resume out w).1.
Proof.
  intros Hj. destruct (single_cleanup w Hj) as (Hc & _).
  unfold manualCheckPaymentStatus_resume.
  repeat case_match; simpl; try done; now apply single_observe.
Qed.

Lemma single_poll c w : single_loop w -> single_loop (poll c w).
Proof.
  intros Hj. unfold poll. repeat case_match; try done.
  apply single_getPaymentStatus. now apply single_upd_engine.
Qed.

Lemma single_poll_resume c out w : single_loop w -> single_loop (poll_resume c out w).
Proof.
  intros Hj. unfold poll_resume. repeat case_match; try done;
    try (apply single_invoke, single_upd_engine; done);
    now apply single_schedule.
Qed.

Lemma single_dispatch f ls w :
  (forall cb w', single_loop w' -> single_loop (f cb w')) ->
  single_loop w -> single_loop (dispatch f ls w).
Proof.
  intros Hf. unfold dispatch. revert w.
  induction ls as [|p ls IH]; intros w Hj; simpl; [done|].
  apply IH, Hf, Hj.
Qed.

Lemma single_step ev w : single_loop w -> single_loop (step ev w).
Proof.
  intros Hj. destruct ev; simpl.
  - now apply single_startPayment.
  - now apply single_handlePageShow.
  - now apply single_cleanup.
  - unfold manualCheckPaymentStatus. destruct (w_state w); simpl.
    + now apply single_getPaymentStatus.
    + now apply single_observe.
  - destruct (w_document w) as [h|] eqn:Hd; [|done].
    apply single_dispatch.
    + intros cb w' Hj'. unfold handleVisibilityChange.
      repeat case_match; try done. now apply single_startPolling.
    + destruct Hj as (Hn & Hrest). split; [|done].
      destruct Hn as [Hn|Hn]; [now left | congruence].
  - destruct (w_document w); [|done].
    apply single_dispatch; [|done].
    intros cb w' Hj'. unfold handleFocus.
    repeat case_match; try done. now apply single_startPolling.
  - destruct (w_timers w !! t) as [[c d]|]; [|done].
    apply single_poll. revert Hj. now apply single_same.
  - destruct (w_requests w !! q) as [a|]; [|done].
    assert (single_loop (set_requests (delete q (w_requests w)) (w_nextRequest w) w))
      as Hj' by (revert Hj; now apply single_same).
    destruct a as [c| |]; simpl.
    + now apply single_poll_resume.
    + now apply single_checkPaymentStatusOnce_resume.
    + pose proof (single_manualCheckPaymentStatus_resume out _ Hj') as H.
      destruct (manualCheckPaymentStatus_resume out _) as [w1 v].
      now apply single_observe.
Qed.

Lemma single_run evs w : single_loop w -> single_loop (run evs w).
Proof.
  unfold run. revert w. induction evs as [|ev evs IH]; intros w Hj; simpl; [done|].
  apply IH, single_step, Hj.
Qed.

Lemma single_initial env document :
  env <> WEB \/ document = None -> single_loop (initial env document).
Proof.
  intros Hn. split; [done|]. split; simpl; [done|].
  intros c e Hl. now rewrite lookup_nil in Hl.
Qed.

Lemma active_engines_spec w c :
  In c (active_engines w) <->
  exists e, w_engines w !! c = Some e /\ e_isPolling e = true.
Proof.
  unfold active_engines. rewrite List.filter_In, List.in_seq. split.
  - intros (_ & H). destruct (w_engines w !! c) as [e|]; [eauto|done].
  - intros (e & He & Hp). rewrite He. split; [|done].
    apply lookup_lt_Some in He. lia.
Qed.

(** Where no visibility handler can be registered (not a browser, or no
    document), after any sequence of events at most one polling loop is
    active, and it is the one the session refers to. *)
Theorem single_loop_without_listeners :
  forall (env : EnvType) (document : option bool) (evs : list Event),
    env <> WEB \/ document = None ->
    (length (active_engines (run evs (initial env document))) <= 1)%nat /\
    (forall c, In c (active_engines (run evs (initial env document))) ->
       s_pollingCleanup <$> w_state (run evs (initial env document)) = Some (Some c)).
Proof.
  intros env document evs Hn.
  pose proof (single_run evs _ (single_initial env document Hn)) as (_ & _ & Hact).
  set (w := run evs (initial env document)) in *.
  assert (forall c, In c (active_engines w) ->
            s_pollingCleanup <$> w_state w = Some (Some c)) as Hall.
  { intros c Hc. apply active_engines_spec in Hc as (e & He & Hp).
    destruct (Hact c e He Hp) as (s & Hs & Hc). rewrite Hs; simpl. now rewrite Hc. }
  split; [|done].
  assert (List.NoDup (active_engines w)) as Hnd
    by apply List.NoDup_filter, List.seq_NoDup.
  destruct (active_engines w) as [|a [|b l]]; simpl; [lia|lia|exfalso].
  pose proof (Hall a (or_introl eq_refl)) as Ha.
  pose proof (Hall b (or_intror (or_introl eq_refl))) as Hb.
  rewrite Ha in Hb. injection Hb as ->.
  inversion Hnd as [|? ? Hnin _]. apply Hnin. now left.
Qed.
End SingleLoop.

(** * Further properties of the modelled code *)

(** ** Attempts of a loop are serial and bounded *)

Section Serial.
Implicit Types (w : World) (c eid : nat).

Lemma serial_same w w' :
  w_engines w' = w_engines w -> w_timers w' = w_timers w ->
  w_requests w' = w_requests w -> w_trace w' = w_trace w ->
  serial w -> serial w'.
Proof.
  unfold serial, serial_at, bounded. intros -> -> -> ->. done.
Qed.

Lemma queries_by_snoc eid (tr : list Obs) (o : Obs) :
  queries_by eid (tr ++ [o]) =
  (queries_by eid tr + if is_query_by eid o then 1 else 0)%nat.
Proof. rewrite queries_by_app. unfold queries_by at 2; simpl. now destruct (is_query_by eid o). Qed.

Lemma serial_observe o w :
  (forall eid, is_query_by eid o = false) -> serial w -> serial (observe o w).
Proof.
  intros Ho (Hb & Hz & Hs). split; [done|]. split.
  - intros eid Hle; simpl. rewrite queries_by_snoc, Ho, Nat.add_0_r. now apply Hz.
  - intros eid e He. destruct (Hs eid e He) as (H1 & H2 & H3 & H4).
    split; [done|]. split; [done|]. split; [|done].
    simpl. now rewrite queries_by_snoc, Ho, Nat.add_0_r.
Qed.

Lemma serial_call_opt k f p w : serial w -> serial (call_opt k f p w).
Proof. destruct f; simpl; [|done]. now apply serial_observe. Qed.

(** Removing a timer or a request keeps the invariant. *)
Lemma serial_clearTimeout t w : serial w -> serial (clearTimeout t w).
Proof.
  intros (Hb & Hz & Hs). split; [now apply bounded_clearTimeout|]. split; [done|].
  intros eid e He. destruct (Hs eid e He) as (H1 & H2 & H3 & H4).
  split; [|done]. intros t' d; simpl.
  destruct (decide (t = t')) as [->|Hne]; [now rewrite lookup_delete_eq|].
  rewrite lookup_delete_ne by done. apply H1.
Qed.

Lemma serial_answered q w :
  serial w -> serial (set_requests (delete q (w_requests w)) (w_nextRequest w) w).
Proof.
  intros (Hb & Hz & Hs). split; [now apply bounded_answered|]. split; [done|].
  intros eid e He. destruct (Hs eid e He) as (H1 & H2 & H3 & H4).
  assert (forall q', delete q (w_requests w) !! q' = Some (APoll eid) ->
                     w_requests w !! q' = Some (APoll eid)) as Hsub.
  { intros q'. destruct (decide (q = q')) as [->|Hne].
    - now rewrite lookup_delete_eq.
    - now rewrite lookup_delete_ne. }
  split; [|split; [|done]]; simpl.
  - intros t d Ht. destruct (H1 t d Ht) as (? & ? & ? & ? & Hq).
    repeat (split; [done|]). intros q' Hq'. apply (Hq q'). now apply Hsub.
  - intros q1 q2 Hq1 Hq2. apply H2; now apply Hsub.
Qed.

(** A request of somebody else than a poll function. *)
Lemma serial_getPaymentStatus a o w :
  (forall c, a <> APoll c) -> serial w -> serial (getPaymentStatus a o w).
Proof.
  intros Ha Hs. unfold getPaymentStatus. apply serial_observe.
  { intros eid. destruct a; simpl; try done. now destruct (Ha eid0). }
  destruct Hs as (Hb & Hz & Hs). split; [|split; [done|]].
  - destruct Hb as (Hbt & Hbq). split; [done|]. intros q c; simpl.
    destruct (decide (w_nextRequest w = q)) as [<-|Hne].
    + rewrite lookup_insert_eq. intros [= ->]. now destruct (Ha c).
    + rewrite lookup_insert_ne by done. apply Hbq.
  - intros eid e He. destruct (Hs eid e He) as (H1 & H2 & H3 & H4).
    assert (forall q', <[w_nextRequest w:=a]> (w_requests w) !! q' = Some (APoll eid) ->
                       w_requests w !! q' = Some (APoll eid)) as Hsub.
    { intros q'. destruct (decide (w_nextRequest w = q')) as [<-|Hne].
      - rewrite lookup_insert_eq. intros [= ->]. now destruct (Ha eid).
      - now rewrite lookup_insert_ne. }
    split; [|split; [|done]]; simpl.
    + intros t d Ht. destruct (H1 t d Ht) as (? & ? & ? & ? & Hq).
      repeat (split; [done|]). intros q' Hq'. apply (Hq q'). now apply Hsub.
    + intros q1 q2 Hq1 Hq2. apply H2; now apply Hsub.
Qed.

(** Lowering the flag of a closure for which no timer is pending. *)
Lemma serial_lower c w :
  (forall t d, w_timers w !! t <> Some (c, d)) ->
  serial w -> serial (upd_engine c (with_isPolling false) w).
Proof.
  intros Hnt (Hb & Hz & Hs). split; [now apply bounded_upd_engine|]. split.
  - intros eid Hle. simpl in *. rewrite length_alter in Hle. now apply Hz.
  - intros eid e'. unfold upd_engine; simpl.
    destruct (decide (c = eid)) as [->|Hne].
    + rewrite list_lookup_alter_eq.
      destruct (w_engines w !! eid) as [e|] eqn:He; simpl; [|done].
      intros [= <-]. destruct (Hs eid e He) as (H1 & H2 & H3 & H4).
      split; [|done]. intros t d Ht. now destruct (Hnt t d).
    + rewrite list_lookup_alter_ne by done. apply Hs.
Qed.

Lemma serial_cancelPolling c w : serial w -> serial (cancelPolling c w).
Proof.
  intros Hs. unfold cancelPolling.
  destruct (w_engines w !! c) as [e|] eqn:He; [|done].
  destruct Hs as (Hb & Hz & Hs). destruct (Hs c e He) as (H1 & H2 & H3 & H4).
  assert (forall e', w_engines w !! c = Some e ->
            forall ts, (forall t d, ts !! t = Some (c, d) -> False) ->
            (forall t eid d, ts !! t = Some (eid, d) -> w_timers w !! t = Some (eid, d)) ->
            e_isPolling e' = false -> e_attempts e' = e_attempts e ->
            e_maxAttempts e' = e_maxAttempts e ->
            serial (set_timers ts (w_nextTimer w)
                      (set_engines (alter (fun _ => e') c (w_engines w)) w))) as Hgen.
  { intros e' _ ts Hnone Hsub Hp Ha Hm. split; [|split].
    - destruct Hb as (Hbt & Hbq). split; simpl; intros *; rewrite length_alter.
      + intros Ht. apply Hsub in Ht. now apply Hbt in Ht.
      + apply Hbq.
    - intros eid. simpl. rewrite length_alter. apply Hz.
    - intros eid e2; simpl. destruct (decide (c = eid)) as [->|Hne].
      + rewrite list_lookup_alter_eq, He; simpl. intros [= <-].
        split; [|split; [done|]].
        * intros t d Ht. now destruct (Hnone t d).
        * rewrite Ha, Hm. done.
      + rewrite list_lookup_alter_ne by done. intros He2.
        destruct (Hs eid e2 He2) as (G1 & G2 & G3 & G4).
        split; [|done]. intros t d Ht. apply G1. now apply Hsub. }
  destruct (e_timeoutId e) as [t0|] eqn:Ht0.
  - unfold upd_engine, clearTimeout; simpl. rewrite list_alter_alter_eq.
    eapply serial_same; [| | | |apply (Hgen (with_timeoutId None (with_isPolling false e)) He
                                      (delete t0 (w_timers w)))]; try done.
    + simpl. apply list_alter_ext; [|done]. intros e' He'. simpl. congruence.
    + intros t d. destruct (decide (t0 = t)) as [->|Hne];
        [now rewrite lookup_delete_eq|].
      rewrite lookup_delete_ne by done. intros Ht.
      destruct (H1 t d Ht) as (Heq & _). congruence.
    + intros t eid d. destruct (decide (t0 = t)) as [->|Hne];
        [now rewrite lookup_delete_eq|].
      now rewrite lookup_delete_ne.
  - unfold upd_engine; simpl.
    eapply serial_same; [| | | |apply (Hgen (with_isPolling false e) He (w_timers w))];
      try done.
    + simpl. apply list_alter_ext; [|done]. intros e' He'. simpl. congruence.
    + intros t d Ht. destruct (H1 t d Ht) as (Heq & _). congruence.
Qed.

Lemma serial_startPaymentPolling o a opts w :
  serial w -> serial (startPaymentPolling o a opts w).1.
Proof.
  intros Hs. pose proof Hs as (Hb & Hz & Hall).
  split; [now apply bounded_startPaymentPolling|].
  pose proof (bounded_idle w Hb) as (Hnt & Hnq).
  unfold startPaymentPolling, upd_engine; simpl. split.
  - intros eid. rewrite length_alter, length_app; simpl. intros Hle. apply Hz. lia.
  - intros eid e.
    destruct (decide (length (w_engines w) = eid)) as [<-|Hne].
    + rewrite list_lookup_alter_eq, lookup_app_r, Nat.sub_diag by lia; simpl.
      intros [= <-]. split; [|split; [|split]]; simpl.
      * intros t d. destruct (decide (w_nextTimer w = t)) as [<-|Hne].
        -- rewrite lookup_insert_eq. intros [= <-]. repeat split; auto.
        -- rewrite lookup_insert_ne by done. intros H. now destruct (Hnt t d).
      * intros q q' Hq. now destruct (Hnq q).
      * now rewrite Hz.
      * lia.
    + rewrite list_lookup_alter_ne by done. intros He.
      assert (w_engines w !! eid = Some e) as He'.
      { apply lookup_app_Some in He as [He|[Hge He]]; [done|].
        destruct (eid - length (w_engines w))%nat as [|k] eqn:Hk; [lia|].
        simpl in He. now rewrite lookup_nil in He. }
      destruct (Hall eid e He') as (H1 & H2 & H3 & H4).
      split; [|done]. simpl. intros t d.
      destruct (decide (w_nextTimer w = t)) as [<-|Hne'].
      * rewrite lookup_insert_eq. congruence.
      * rewrite lookup_insert_ne by done. apply H1.
Qed.

Lemma serial_upd_state f w : serial w -> serial (upd_state f w).
Proof. now apply serial_same. Qed.

Lemma serial_startPolling callbacks w : serial w -> serial (startPolling callbacks w).
Proof.
  intros Hs. unfold startPolling. repeat case_match; try done;
    apply serial_upd_state;
    match goal with H : startPaymentPolling ?o ?a ?p ?w1 = (?w2, _) |- _ =>
      replace w2 with (startPaymentPolling o a p w1).1 by now rewrite H end;
    apply serial_startPaymentPolling; try done.
  now apply serial_cancelPolling.
Qed.

Lemma serial_handleVisibilityChange callbacks w :
  serial w -> serial (handleVisibilityChange callbacks w).
Proof.
  intros Hs. unfold handleVisibilityChange.
  repeat case_match; first [done | now apply serial_startPolling].
Qed.

Lemma serial_handleFocus callbacks w : serial w -> serial (handleFocus callbacks w).
Proof.
  intros Hs. unfold handleFocus.
  repeat case_match; first [done | now apply serial_startPolling].
Qed.

Lemma serial_cleanup w : serial w -> serial (cleanup w).
Proof.
  intros Hs. unfold cleanup. destruct (w_state w) as [s|]; [|done].
  set (w1 := match s_pollingCleanup s with
             | Some c => cancelPolling c w
             | None => w
             end).
  assert (serial w1) as H1.
  { subst w1. destruct (s_pollingCleanup s); [|done]. now apply serial_cancelPolling. }
  set (w2 := match s_visibilityChangeHandler s with
             | Some h => visibilityCleanup h w1
             | None => w1
             end).
  apply (serial_same w2); try done. subst w2.
  destruct (s_visibilityChangeHandler s) as [h|]; [|done].
  apply serial_handleVisibilityChange. revert H1. now apply serial_same.
Qed.

Lemma serial_invoke k h p w : serial w -> serial (invoke k h p w).
Proof.
  intros Hs. destruct h as [[f|callbacks]|]; [| |done].
  - now apply serial_observe.
  - assert (serial (call_opt k (member k callbacks) p (cleanup w))) as H
      by now apply serial_call_opt, serial_cleanup.
    simpl. destruct k; [done| |]; now apply serial_observe.
Qed.

Lemma serial_startPayment o a m callbacks w :
  serial w -> serial (startPayment o a m callbacks w).
Proof.
  intros Hs. apply serial_cleanup in Hs.
  apply (serial_same (cleanup w)); try done;
    unfold startPayment, setupAppShowHandler, setupVisibilityChangeHandler;
    repeat (simpl; case_match); done.
Qed.

Lemma serial_checkPaymentStatusOnce_resume out w :
  serial w -> serial (checkPaymentStatusOnce_resume out w).
Proof.
  intros Hs. unfold checkPaymentStatusOnce_resume, checkPaymentStatusOnce_catch.
  repeat case_match;
    first [ now apply serial_startPolling
          | now apply serial_observe
          | now apply serial_cleanup, serial_call_opt
          | apply serial_observe; [done|]; now apply serial_cleanup, serial_call_opt ].
Qed.

Lemma serial_handlePageShow w : serial w -> serial (handlePageShow w).
Proof.
  intros Hs. unfold handlePageShow, checkPaymentStatusOnce.
  repeat case_match;
    first [done | now apply serial_startPolling | now apply serial_getPaymentStatus].
Qed.

Lemma serial_manualCheckPaymentStatus w :
  serial w -> serial (manualCheckPaymentStatus w).1.
Proof.
  intros Hs. unfold manualCheckPaymentStatus. case_match; simpl; [|done].
  now apply serial_getPaymentStatus.
Qed.

Lemma serial_manualCheckPaymentStatus_resume out w :
  serial w -> serial (manualCheckPaymentStatus_resume out w).1.
Proof.
  intros Hs. pose proof (serial_cleanup w Hs) as Hc.
  unfold manualCheckPaymentStatus_resume.
  repeat case_match; simpl; try done;
    first [ now apply serial_observe ].
Qed.

(** The timer [t] of closure [c] fires. *)
Lemma serial_timer t c d w :
  serial w -> w_timers w !! t = Some (c, d) -> serial (poll c (clearTimeout t w)).
Proof.
  intros Hs Ht. pose proof (serial_clearTimeout t w Hs) as Hs1.
  unfold poll. destruct (w_engines (clearTimeout t w) !! c) as [e|] eqn:He; [|done].
  destruct (e_isPolling e) eqn:Hp; [|done]. simpl in He.
  destruct Hs as (Hb & Hz & Hall).
  destruct (Hall c e He) as (H1 & H2 & H3 & H4).
  destruct (H1 t d Ht) as (Hid & _ & _ & Hatt & Hnoq).
  assert (forall t' d', delete t (w_timers w) !! t' <> Some (c, d')) as Hnot.
  { intros t' d'. destruct (decide (t = t')) as [->|Hne];
      [now rewrite lookup_delete_eq|].
    rewrite lookup_delete_ne by done. intros Ht'.
    destruct (H1 t' d' Ht') as (Hid' & _). congruence. }
  destruct Hs1 as (Hb1 & Hz1 & Hall1).
  unfold getPaymentStatus, upd_engine; simpl. split; [|split].
  - destruct Hb1 as (Hbt & Hbq). split; simpl; intros *; rewrite length_alter.
    + apply Hbt.
    + destruct (decide (w_nextRequest w = q)) as [<-|Hne].
      * rewrite lookup_insert_eq. intros [= <-]. now apply lookup_lt_Some in He.
      * rewrite lookup_insert_ne by done. apply Hbq.
  - intros eid. simpl. rewrite length_alter. intros Hle.
    rewrite queries_by_snoc. simpl.
    assert ((c =? eid)%nat = false) as ->.
    { apply Nat.eqb_neq. apply lookup_lt_Some in He. lia. }
    rewrite Nat.add_0_r. now apply Hz.
  - intros eid e2. simpl. destruct (decide (c = eid)) as [<-|Hne].
    + rewrite list_lookup_alter_eq, He; simpl. intros [= <-].
      split; [|split; [|split]]; simpl.
      * intros t' d' Ht'. now destruct (Hnot t' d').
      * intros q q'.
        destruct (decide (w_nextRequest w = q)) as [<-|Hq];
          destruct (decide (w_nextRequest w = q')) as [<-|Hq']; try done;
          rewrite ?lookup_insert_eq, ?lookup_insert_ne by done; intros G1 G2;
          try (now destruct (Hnoq q)); now destruct (Hnoq q').
      * rewrite queries_by_snoc; simpl. rewrite Nat.eqb_refl. lia.
      * lia.
    + rewrite list_lookup_alter_ne by done. intros He2.
      destruct (Hall1 eid e2 He2) as (G1 & G2 & G3 & G4). simpl in *.
      assert (forall q', <[w_nextRequest w:=APoll c]> (w_requests w) !! q' = Some (APoll eid) ->
                         w_requests w !! q' = Some (APoll eid)) as Hsub.
      { intros q'. destruct (decide (w_nextRequest w = q')) as [<-|Hne'].
        - rewrite lookup_insert_eq. congruence.
        - now rewrite lookup_insert_ne. }
      split; [|split; [|split; [|done]]].
      * intros t' d' Ht'. destruct (G1 t' d' Ht') as (? & ? & ? & ? & Hq).
        repeat (split; [done|]). intros q' Hq'. apply (Hq q'). now apply Hsub.
      * intros q1 q2 Hq1 Hq2. apply G2; now apply Hsub.
      * simpl. rewrite queries_by_snoc; simpl.
        assert ((c =? eid)%nat = false) as -> by now apply Nat.eqb_neq.
        now rewrite Nat.add_0_r.
Qed.

(** Arming the next timer of a closure that polls, has attempts left, and
    for which nothing is pending. *)
Lemma serial_schedule c e w :
  serial w -> w_engines w !! c = Some e -> e_isPolling e = true ->
  e_attempts e < e_maxAttempts e ->
  (forall q, w_requests w !! q <> Some (APoll c)) ->
  (forall t d, w_timers w !! t <> Some (c, d)) ->
  serial (schedule c (e_interval e) w).
Proof.
  intros (Hb & Hz & Hall) He Hp Hlt Hnoq Hnot.
  split; [apply bounded_schedule; [now apply lookup_lt_Some in He|done]|].
  unfold schedule, setTimeout, upd_engine; simpl. split.
  - intros eid. rewrite length_alter. apply Hz.
  - intros eid e2. destruct (decide (c = eid)) as [<-|Hne].
    + rewrite list_lookup_alter_eq, He; simpl. intros [= <-].
      destruct (Hall c e He) as (H1 & H2 & H3 & H4).
      split; [|done]. simpl. intros t d.
      destruct (decide (w_nextTimer w = t)) as [<-|Hne].
      * rewrite lookup_insert_eq. intros [= <-]. repeat split; auto.
      * rewrite lookup_insert_ne by done. intros Ht. now destruct (Hnot t d).
    + rewrite list_lookup_alter_ne by done. intros He2.
      destruct (Hall eid e2 He2) as (G1 & G2 & G3 & G4).
      split; [|done]. simpl. intros t d.
      destruct (decide (w_nextTimer w = t)) as [<-|Hne'].
      * rewrite lookup_insert_eq. congruence.
      * rewrite lookup_insert_ne by done. apply G1.
Qed.

(** The outstanding query [q] of closure [c] is answered. *)
Lemma serial_response q c out w :
  serial w -> w_requests w !! q = Some (APoll c) ->
  serial (poll_resume c out
            (set_requests (delete q (w_requests w)) (w_nextRequest w) w)).
Proof.
  intros Hs Hq. pose proof (serial_answered q w Hs) as Hs1.
  set (w1 := set_requests (delete q (w_requests w)) (w_nextRequest w) w) in *.
  unfold poll_resume. destruct (w_engines w1 !! c) as [e|] eqn:He; [|done].
  destruct Hs as (Hb & Hz & Hall). simpl in He.
  destruct (Hall c e He) as (H1 & H2 & H3 & H4).
  assert (forall t d, w_timers w1 !! t <> Some (c, d)) as Hnot.
  { intros t d Ht. destruct (H1 t d Ht) as (_ & _ & _ & _ & Hn). now apply (Hn q). }
  assert (forall q', w_requests w1 !! q' <> Some (APoll c)) as Hnoq.
  { intros q'; simpl. destruct (decide (q = q')) as [->|Hne];
      [now rewrite lookup_delete_eq|].
    rewrite lookup_delete_ne by done. intros Hq'. apply Hne. now apply H2. }
  assert (serial (upd_engine c (with_isPolling false) w1)) as Hlow
    by now apply serial_lower.
  destruct out as [r|].
  - destruct (isPaymentComplete r).
    + destruct (attach_differs r _); now apply serial_invoke.
    + destruct (e_maxAttempts e <=? e_attempts e) eqn:Hle; [now apply serial_invoke|].
      destruct (e_isPolling e) eqn:Hp; [|done].
      apply Z.leb_gt in Hle. now apply serial_schedule.
  - destruct (e_attempts e <? e_maxAttempts e) eqn:Hlt; simpl;
      [|now apply serial_invoke].
    destruct (e_isPolling e) eqn:Hp; [|now apply serial_invoke].
    apply Z.ltb_lt in Hlt. now apply serial_schedule.
Qed.

Lemma serial_dispatch f ls w :
  (forall cb w', serial w' -> serial (f cb w')) ->
  serial w -> serial (dispatch f ls w).
Proof.
  intros Hf. unfold dispatch. revert w.
  induction ls as [|p ls IH]; intros w Hs; simpl; [done|].
  apply IH, Hf, Hs.
Qed.

Lemma serial_step ev w : serial w -> serial (step ev w).
Proof.
  intros Hs. destruct ev; simpl.
  - now apply serial_startPayment.
  - now apply serial_handlePageShow.
  - now apply serial_cleanup.
  - pose proof (serial_manualCheckPaymentStatus w Hs) as H.
    destruct (manualCheckPaymentStatus w) as [w1 [v|]]; simpl in H; [|done].
    now apply serial_observe.
  - case_match; [|done].
    apply serial_dispatch; [apply serial_handleVisibilityChange|].
    revert Hs. now apply serial_same.
  - case_match; [|done].
    now apply serial_dispatch; [apply serial_handleFocus|].
  - destruct (w_timers w !! t) as [[c d]|] eqn:Ht; [|done].
    now apply (serial_timer t c d).
  - destruct (w_requests w !! q) as [a|] eqn:Hq; [|done].
    pose proof (serial_answered q w Hs) as Hs'.
    destruct a as [c| |]; simpl.
    + now apply serial_response.
    + now apply serial_checkPaymentStatusOnce_resume.
    + pose proof (serial_manualCheckPaymentStatus_resume out _ Hs') as H.
      destruct (manualCheckPaymentStatus_resume out _) as [w1 v].
      now apply serial_observe.
Qed.

Lemma serial_run evs w : serial w -> serial (run evs w).
Proof.
  unfold run. revert w. induction evs as [|ev evs IH]; intros w Hs; simpl; [done|].
  apply IH, serial_step, Hs.
Qed.

Lemma serial_initial env document : serial (initial env document).
Proof.
  split; [apply bounded_initial|]. split; [done|].
  intros eid e He. simpl in He. now rewrite lookup_nil in He.
Qed.
End Serial.

(** X1: in every world reachable from a freshly loaded page, the attempts
    of a polling closure are serial: while one of its timers is pending
    none of its queries is outstanding, it never has two timers pending
    and never two queries outstanding. *)
Theorem attempts_are_serial :
  forall (env : EnvType) (document : option bool) (evs : list Event) (eid : nat),
    (forall t d q,
       w_timers (run evs (initial env document)) !! t = Some (eid, d) ->
       w_requests (run evs (initial env document)) !! q <> Some (APoll eid)) /\
    (forall t t' d d',
       w_timers (run evs (initial env document)) !! t = Some (eid, d) ->
       w_timers (run evs (initial env document)) !! t' = Some (eid, d') -> t = t') /\
    (forall q q',
       w_requests (run evs (initial env document)) !! q = Some (APoll eid) ->
       w_requests (run evs (initial env document)) !! q' = Some (APoll eid) -> q = q').
Proof.
  intros env document evs eid.
  pose proof (serial_run evs _ (serial_initial env document)) as ((Hbt & Hbq) & _ & Hall).
  set (w := run evs (initial env document)) in *.
  assert (forall t d, w_timers w !! t = Some (eid, d) ->
            exists e, w_engines w !! eid = Some e) as Hex.
  { intros t d Ht. apply Hbt in Ht. now apply lookup_lt_is_Some_2. }
  split; [|split].
  - intros t d q Ht. destruct (Hex t d Ht) as (e & He).
    destruct (Hall eid e He) as (H1 & _). destruct (H1 t d Ht) as (_ & _ & _ & _ & Hq).
    apply Hq.
  - intros t t' d d' Ht Ht'. destruct (Hex t d Ht) as (e & He).
    destruct (Hall eid e He) as (H1 & _).
    destruct (H1 t d Ht) as (Hid & _). destruct (H1 t' d' Ht') as (Hid' & _).
    congruence.
  - intros q q' Hq Hq'. pose proof (Hbq q eid Hq) as Hlt.
    apply lookup_lt_is_Some_2 in Hlt as (e & He).
    destruct (Hall eid e He) as (_ & H2 & _). now apply H2.
Qed.

Lemma attempts_are_serial_witness :
  w_requests c4_polling !! 7%nat <> Some (APoll 0).
Proof.
  destruct (attempts_are_serial WEAPP None
              [EStartPayment "ORD1" "TOK1" 1000 cb123; EHandlePageShow;
               EResponse 1 (Resolved unpaid); ETimer 1; EResponse 2 (Resolved unpaid)]
              0%nat) as (H & _).
  apply (H 2%nat 3000 7%nat). reflexivity.
Defined.

(** ** Every loop of the manager has a budget of 30 *)

Section ManagerMade.
Implicit Types (w : World) (c : nat).

Lemma made_same w w' :
  w_engines w' = w_engines w -> all_manager_made w -> all_manager_made w'.
Proof. unfold all_manager_made. now intros ->. Qed.

Lemma made_upd_engine c f w :
  (forall e, manager_made e -> manager_made (f e)) ->
  all_manager_made w -> all_manager_made (upd_engine c f w).
Proof.
  intros Hf Hm. unfold all_manager_made, upd_engine in *; simpl.
  apply Forall_lookup. intros i e. destruct (decide (c = i)) as [->|Hne].
  - rewrite list_lookup_alter_eq. destruct (w_engines w !! i) as [e0|] eqn:He; [|done].
    intros [= <-]. apply Hf. eapply Forall_lookup_1; eauto.
  - rewrite list_lookup_alter_ne by done. intros He. eapply Forall_lookup_1; eauto.
Qed.

Lemma made_cancelPolling c w : all_manager_made w -> all_manager_made (cancelPolling c w).
Proof.
  intros Hm. unfold cancelPolling. repeat case_match; try done;
    repeat (apply made_upd_engine; [done|]); done.
Qed.

Lemma made_startPolling callbacks w :
  all_manager_made w -> all_manager_made (startPolling callbacks w).
Proof.
  intros Hm. unfold startPolling. destruct (w_state w) as [s|]; [|done].
  destruct (negb (s_isPolling s)); [done|].
  set (w1 := match s_pollingCleanup s with
             | Some c => cancelPolling c w
             | None => w
             end).
  assert (all_manager_made w1) as H1.
  { subst w1. destruct (s_pollingCleanup s); [|done]. now apply made_cancelPolling. }
  unfold startPaymentPolling, upd_state; simpl.
  apply (made_same (upd_engine (length (w_engines w1))
                      (with_timeoutId (Some (w_nextTimer w1)))
                      (set_engines (w_engines w1 ++
                         [mkEngine (s_orderId s) (s_attach s) (Some (HManager callbacks))
                            (Some (HManager callbacks)) (Some (HManager callbacks))
                            30 3000 0 true None]) w1))); [done|].
  apply made_upd_engine; [done|]. unfold all_manager_made; simpl.
  apply Forall_app. split; [done|]. apply Forall_singleton.
  repeat split; eauto.
Qed.

Lemma made_cleanup w : all_manager_made w -> all_manager_made (cleanup w).
Proof.
  intros Hm. unfold cleanup. destruct (w_state w) as [s|]; [|done].
  set (w1 := match s_pollingCleanup s with
             | Some c => cancelPolling c w
             | None => w
             end).
  assert (all_manager_made w1) as H1.
  { subst w1. destruct (s_pollingCleanup s); [|done]. now apply made_cancelPolling. }
  set (w2 := match s_visibilityChangeHandler s with
             | Some h => visibilityCleanup h w1
             | None => w1
             end).
  apply (made_same w2); [done|]. subst w2.
  destruct (s_visibilityChangeHandler s) as [h|]; [|done].
  unfold visibilityCleanup, handleVisibilityChange.
  repeat case_match; try done. apply made_startPolling. revert H1. now apply made_same.
Qed.

Lemma made_invoke k h p w : all_manager_made w -> all_manager_made (invoke k h p w).
Proof.
  intros Hm. destruct h as [[f|callbacks]|]; [| |done].
  - revert Hm. now apply made_same.
  - apply (made_same (cleanup w)); [|now apply made_cleanup].
    simpl. destruct k, (member _ callbacks); done.
Qed.

Lemma made_startPayment o a m callbacks w :
  all_manager_made w -> all_manager_made (startPayment o a m callbacks w).
Proof.
  intros Hm. apply made_cleanup in Hm. revert Hm. apply made_same.
  unfold startPayment, setupAppShowHandler, setupVisibilityChangeHandler.
  repeat (simpl; case_match); done.
Qed.

Lemma made_checkPaymentStatusOnce_resume out w :
  all_manager_made w -> all_manager_made (checkPaymentStatusOnce_resume out w).
Proof.
  intros Hm. pose proof (made_cleanup w Hm) as Hc.
  unfold checkPaymentStatusOnce_resume, checkPaymentStatusOnce_catch.
  repeat case_match; try (now apply made_startPolling);
    try (revert Hm; now apply made_same).
  - apply (made_same (cleanup (call_opt KFailed (s_callbacks p ≫= onFailed) (PResult r) w)));
      [done|]. apply made_cleanup. revert Hm. apply made_same.
    now destruct (s_callbacks p ≫= onFailed).
  - apply made_cleanup. revert Hm. apply made_same.
    now destruct (s_callbacks p ≫= onSuccess).
Qed.

Lemma made_poll_resume c out w :
  all_manager_made w -> all_manager_made (poll_resume c out w).
Proof.
  intros Hm. unfold poll_resume, schedule, setTimeout.
  repeat case_match; try done;
    try (apply made_invoke, made_upd_engine; done);
    (apply made_upd_engine; [done|]; revert Hm; now apply made_same).
Qed.

Lemma made_dispatch f ls w :
  (forall cb w', all_manager_made w' -> all_manager_made (f cb w')) ->
  all_manager_made w -> all_manager_made (dispatch f ls w).
Proof.
  intros Hf. unfold dispatch. revert w.
  induction ls as [|p ls IH]; intros w Hm; simpl; [done|].
  apply IH, Hf, Hm.
Qed.

Lemma made_step ev w : all_manager_made w -> all_manager_made (step ev w).
Proof.
  intros Hm. destruct ev; simpl.
  - now apply made_startPayment.
  - unfold handlePageShow, checkPaymentStatusOnce.
    repeat case_match; first [done | now apply made_startPolling
                             | revert Hm; now apply made_same].
  - now apply made_cleanup.
  - unfold manualCheckPaymentStatus.
    destruct (w_state w); revert Hm; now apply made_same.
  - case_match; [|done]. apply made_dispatch.
    + intros cb w' Hm'. unfold handleVisibilityChange.
      repeat case_match; first [done | now apply made_startPolling].
    + revert Hm. now apply made_same.
  - case_match; [|done]. apply made_dispatch; [|done].
    intros cb w' Hm'. unfold handleFocus.
    repeat case_match; first [done | now apply made_startPolling].
  - destruct (w_timers w !! t) as [[c d]|]; [|done].
    unfold poll. repeat case_match; try (revert Hm; now apply made_same).
    apply (made_same (upd_engine c (with_attempts (e_attempts e + 1)) (clearTimeout t w)));
      [done|].
    apply made_upd_engine; [done|]. revert Hm. now apply made_same.
  - destruct (w_requests w !! q) as [a|]; [|done].
    assert (all_manager_made
              (set_requests (delete q (w_requests w)) (w_nextRequest w) w)) as Hm'
      by (revert Hm; now apply made_same).
    destruct a as [c| |]; simpl.
    + now apply made_poll_resume.
    + now apply made_checkPaymentStatusOnce_resume.
    + pose proof (made_cleanup _ Hm') as Hc.
      unfold manualCheckPaymentStatus_resume.
      repeat case_match; simplify_eq; simpl;
        first [revert Hc; now apply made_same | revert Hm'; now apply made_same].
Qed.

Lemma made_run evs w : all_manager_made w -> all_manager_made (run evs w).
Proof.
  unfold run. revert w. induction evs as [|ev evs IH]; intros w Hm; simpl; [done|].
  apply IH, made_step, Hm.
Qed.
End ManagerMade.

(** X2: whatever the interleaving of calls, DOM events, timers and
    answers, the attempt counter of a polling closure equals the number
    of status queries it has issued, and a loop started by the manager
    never issues more than 30 queries. *)
Theorem loop_queries_bounded :
  forall (env : EnvType) (document : option bool) (evs : list Event) (eid : nat),
    (queries_by eid (w_trace (run evs (initial env document))) <= 30)%nat /\
    (forall e, w_engines (run evs (initial env document)) !! eid = Some e ->
       e_attempts e = Z.of_nat (queries_by eid (w_trace (run evs (initial env document)))) /\
       e_maxAttempts e = 30).
Proof.
  intros env document evs eid.
  pose proof (serial_run evs _ (serial_initial env document)) as (_ & Hz & Hall).
  assert (all_manager_made (run evs (initial env document))) as Hm
    by (apply made_run; constructor).
  set (w := run evs (initial env document)) in *.
  destruct (w_engines w !! eid) as [e|] eqn:He.
  - destruct (Hall eid e He) as (_ & _ & H3 & H4).
    destruct (Forall_lookup_1 _ _ _ _ Hm He) as (Hmax & _).
    split; [lia|]. intros e' [= <-]. done.
  - split; [|done]. rewrite Hz; [lia|]. now apply lookup_ge_None.
Qed.

Lemma loop_queries_bounded_witness :
  (e_attempts <$> w_engines c4_polling !! 0%nat) = Some 1 /\
  queries_by 0 (w_trace c4_polling) = 1%nat.
Proof.
  destruct (loop_queries_bounded WEAPP None
              [EStartPayment "ORD1" "TOK1" 1000 cb123; EHandlePageShow;
               EResponse 1 (Resolved unpaid); ETimer 1; EResponse 2 (Resolved unpaid)]
              0%nat) as (_ & H).
  destruct (H (mkEngine "ORD1" "TOK1" (Some (HManager cb123)) (Some (HManager cb123))
                 (Some (HManager cb123)) 30 3000 1 true (Some 2%nat)))
    as (Ha & _); [reflexivity|].
  split; [reflexivity|]. apply Nat2Z.inj. symmetry. exact Ha.
Defined.

(** ** How a run ends *)

Section Attempts.
Variable eid : nat.

Lemma poll_resume_signal (e : Engine) (out : Outcome) (w : World) :
  w_engines w !! eid = Some e -> e_isPolling e = true ->
  poll_resume eid out w =
  match signal e (e_attempts e) out with
  | Some (k, h, p) => invoke k h p (upd_engine eid (with_isPolling false) w)
  | None => schedule eid (e_interval e) w
  end.
Proof.
  intros He Hp. unfold poll_resume, signal. rewrite He, Hp, andb_true_r.
  repeat case_match; simplify_eq; done.
Qed.

Lemma attempt_unfold (e : Engine) (out : Outcome) (w : World) :
  armed eid e w ->
  attempt eid out w =
  poll_resume eid out
    (set_requests (delete (w_nextRequest w) (<[w_nextRequest w := APoll eid]> (w_requests w)))
       (S (w_nextRequest w))
       (observe (OQuery (APoll eid) (e_orderId e))
          (set_requests (<[w_nextRequest w := APoll eid]> (w_requests w))
             (S (w_nextRequest w))
             (upd_engine eid (with_attempts (e_attempts e + 1))
                (clearTimeout (default 0%nat (e_timeoutId e)) w))))).
Proof.
  intros (He & Hp & (t & Ht & Hin & _) & _).
  unfold attempt. rewrite He; simpl. rewrite Ht; simpl. rewrite Hin.
  assert (poll eid (clearTimeout t w) =
          getPaymentStatus (APoll eid) (e_orderId e)
            (upd_engine eid (with_attempts (e_attempts e + 1)) (clearTimeout t w)))
    as ->.
  { unfold poll; simpl. now rewrite He, Hp. }
  unfold getPaymentStatus; simpl. now rewrite lookup_insert_eq.
Qed.

Lemma attempt_continue (e : Engine) (out : Outcome) (w : World) :
  armed eid e w -> signal e (e_attempts e + 1) out = None ->
  armed eid (with_timeoutId (Some (w_nextTimer w))
               (with_attempts (e_attempts e + 1) e)) (attempt eid out w) /\
  w_trace (attempt eid out w) = w_trace w ++ [OQuery (APoll eid) (e_orderId e)].
Proof.
  intros Ha Hsig. rewrite (attempt_unfold e out w Ha).
  destruct Ha as (He & Hp & (t & Ht & Hin & Huniq) & Hq).
  erewrite poll_resume_signal;
    [|unfold upd_engine; simpl; rewrite list_lookup_alter_eq, He; reflexivity|done].
  change (signal (with_attempts (e_attempts e + 1) e)
            (e_attempts (with_attempts (e_attempts e + 1) e)) out)
    with (signal e (e_attempts e + 1) out).
  rewrite Hsig.
  unfold schedule, setTimeout, upd_engine, armed; simpl.
  rewrite !list_lookup_alter_eq, He, Ht; simpl.
  split; [|done]. split; [done|]. split; [done|]. split.
  - exists (w_nextTimer w). split; [done|]. split; [apply lookup_insert_eq|].
    intros t' d. destruct (decide (w_nextTimer w = t')) as [<-|Hne]; [done|].
    rewrite lookup_insert_ne by done.
    destruct (decide (t = t')) as [<-|Hne']; [now rewrite lookup_delete_eq|].
    rewrite lookup_delete_ne by done. intros H. apply Huniq in H. congruence.
  - intros q. destruct (decide (w_nextRequest w = q)) as [<-|Hne].
    + now rewrite lookup_delete_eq.
    + rewrite lookup_delete_ne, lookup_insert_ne by done. apply Hq.
Qed.

Lemma attempt_end (e : Engine) (out : Outcome) (w : World) k h p :
  armed eid e w -> signal e (e_attempts e + 1) out = Some (k, h, p) ->
  w_trace (attempt eid out w) =
    w_trace w ++ [OQuery (APoll eid) (e_orderId e)] ++ invoke_obs k h p /\
  stopped eid (S (queries_by eid (w_trace w))) (attempt eid out w).
Proof.
  intros Ha Hsig. rewrite (attempt_unfold e out w Ha).
  destruct Ha as (He & Hp & (t & Ht & Hin & Huniq) & Hq).
  erewrite poll_resume_signal;
    [|unfold upd_engine; simpl; rewrite list_lookup_alter_eq, He; reflexivity|done].
  change (signal (with_attempts (e_attempts e + 1) e)
            (e_attempts (with_attempts (e_attempts e + 1) e)) out)
    with (signal e (e_attempts e + 1) out).
  rewrite Hsig. split.
  - rewrite invoke_trace; simpl. now rewrite <- app_assoc.
  - apply stopped_invoke. unfold stopped, engine_idle, upd_engine; simpl.
    rewrite !list_lookup_alter_eq, He, Ht; simpl. split; [eauto|]. split; [split|].
    + intros t' d. destruct (decide (t = t')) as [<-|Hne'].
      * now rewrite lookup_delete_eq.
      * rewrite lookup_delete_ne by done. intros H. apply Huniq in H. congruence.
    + intros q. destruct (decide (w_nextRequest w = q)) as [<-|Hne].
      * now rewrite lookup_delete_eq.
      * rewrite lookup_delete_ne, lookup_insert_ne by done. apply Hq.
    + rewrite queries_by_app. unfold queries_by at 2; simpl.
      rewrite Nat.eqb_refl; simpl. lia.
Qed.

Lemma signal_retry (e : Engine) (a : Z) (out : Outcome) :
  retryable out = true -> a < e_maxAttempts e -> signal e a out = None.
Proof.
  intros Hr Hlt. destruct out as [r|]; simpl in *.
  - apply negb_true_iff in Hr. rewrite Hr.
    destruct (e_maxAttempts e <=? a) eqn:Hle; [|done]. apply Z.leb_le in Hle. lia.
  - apply Z.ltb_lt in Hlt. now rewrite Hlt.
Qed.

Lemma attempts_retry (outs : list Outcome) :
  forall (e : Engine) (w : World),
    armed eid e w -> Forall (fun out => retryable out = true) outs ->
    e_attempts e + Z.of_nat (length outs) < e_maxAttempts e ->
    exists t,
      armed eid (with_timeoutId (Some t)
                   (with_attempts (e_attempts e + Z.of_nat (length outs)) e))
        (attempts eid outs w) /\
      w_trace (attempts eid outs w) =
        w_trace w ++ replicate (length outs) (OQuery (APoll eid) (e_orderId e)).
Proof.
  induction outs as [|out outs IH]; intros e w Ha Houts Hlt.
  - destruct Ha as (He & Hp & (t & Ht & Hin & Hu) & Hq). exists t. simpl.
    rewrite app_nil_r, Z.add_0_r. split; [|done].
    replace (with_timeoutId (Some t) (with_attempts (e_attempts e) e)) with e
      by (destruct e; unfold with_timeoutId, with_attempts; simpl in *; congruence).
    unfold armed. eauto 10.
  - apply Forall_cons in Houts as [Hout Houts]. simpl length in *.
    destruct (attempt_continue e out w Ha) as (Ha1 & Htr1).
    { apply signal_retry; [done|lia]. }
    destruct (IH _ _ Ha1 Houts) as (t & Ha2 & Htr2); [simpl; lia|].
    exists t. change (attempts eid (out :: outs) w)
                with (attempts eid outs (attempt eid out w)).
    split.
    + replace (e_attempts e + Z.of_nat (S (length outs)))
        with (e_attempts e + 1 + Z.of_nat (length outs)) by lia.
      exact Ha2.
    + rewrite Htr2, Htr1, <- app_assoc. done.
Qed.
End Attempts.

(** X3: a polling run with a budget of [n >= 1] attempts, whose first
    answers are errors or incomplete responses in any order, ends at the
    first complete response, or at the [n]-th answer if none is
    complete.  Up to then it has issued one query per answer.  It then
    invokes exactly one handler: [onSuccess] with the response if the
    attach matches, [onFailed] with the mismatch object if it does not,
    [onTimeout] if the [n]-th answer is an incomplete response, [onFailed]
    with the query-failed object if the [n]-th answer is an error.
    Afterwards the run never issues a query again. *)
Theorem run_ends_with_one_signal :
  forall (n : nat) (orderId expected : string) (opts : PollOptions)
         (outs : list Outcome) (last : Outcome) (w : World),
    default 60 (o_maxAttempts opts) = Z.of_nat n -> (1 <= n)%nat ->
    engine_idle (length (w_engines w)) w ->
    Forall (fun out => retryable out = true) outs ->
    (length outs < n)%nat ->
    retryable last = false \/ S (length outs) = n ->
    w_trace (attempts (length (w_engines w)) (outs ++ [last])
               (startPaymentPolling orderId expected opts w).1) =
      w_trace w ++
      replicate (S (length outs)) (OQuery (APoll (length (w_engines w))) orderId) ++
      final_obs expected opts last /\
    (forall evs,
       queries_by (length (w_engines w))
         (w_trace (run evs (attempts (length (w_engines w)) (outs ++ [last])
                              (startPaymentPolling orderId expected opts w).1))) =
       (queries_by (length (w_engines w)) (w_trace w) + S (length outs))%nat).
Proof.
  intros n orderId expected opts outs last w Hmax Hn Hidle Houts Hlen Hlast.
  destruct (startPaymentPolling_armed orderId expected opts w Hidle) as (Ha & Htr).
  set (eid := length (w_engines w)) in *.
  set (w0 := (startPaymentPolling orderId expected opts w).1) in *.
  destruct (attempts_retry eid outs _ w0 Ha Houts) as (t & Ha1 & Htr1).
  { simpl. rewrite Hmax. lia. }
  unfold attempts in *. rewrite foldl_app; simpl.
  set (w1 := foldl (fun w' out => attempt eid out w') w0 outs) in *.
  assert (signal (with_timeoutId (Some t)
                    (with_attempts (0 + Z.of_nat (length outs))
                       (engine_at orderId expected opts 0 (w_nextTimer w))))
            (0 + Z.of_nat (length outs) + 1) last =
          match last with
          | Resolved r =>
            if isPaymentComplete r then
              if attach_differs r expected
              then Some (KFailed, o_onFailed opts, PMismatch r)
              else Some (KSuccess, o_onSuccess opts, PResult r)
            else Some (KTimeout, o_onTimeout opts, PNone)
          | Rejected => Some (KFailed, o_onFailed opts, PQueryFailed)
          end) as Hsig.
  { unfold signal; simpl e_maxAttempts; simpl e_expectedAttach;
      simpl e_onFailed; simpl e_onSuccess; simpl e_onTimeout.
    rewrite Hmax. destruct last as [r|]; simpl in Hlast.
    - destruct (isPaymentComplete r); [done|].
      destruct Hlast as [Hl|Hl]; [done|].
      destruct (_ <=? _) eqn:Hle; [done|]. apply Z.leb_gt in Hle. lia.
    - destruct Hlast as [Hl|Hl]; [done|].
      destruct (_ <? _) eqn:Hle; [|done]. apply Z.ltb_lt in Hle. lia. }
  assert (exists k h p,
            signal (with_timeoutId (Some t)
                      (with_attempts (0 + Z.of_nat (length outs))
                         (engine_at orderId expected opts 0 (w_nextTimer w))))
              (0 + Z.of_nat (length outs) + 1) last = Some (k, h, p) /\
            invoke_obs k h p = final_obs expected opts last) as (k & h & p & Hs & Hobs).
  { rewrite Hsig. unfold final_obs. destruct last as [r|]; [|eauto 10].
    destruct (isPaymentComplete r); [|eauto 10].
    destruct (attach_differs r expected); eauto 10. }
  destruct (attempt_end eid _ last w1 k h p Ha1 Hs) as (Htr2 & Hst).
  rewrite Htr1, Htr in *. simpl in Htr2. split.
  - rewrite Htr2, Hobs.
    change (OQuery (APoll eid) orderId ::
              replicate (length outs) (OQuery (APoll eid) orderId) ++
              final_obs expected opts last)
      with (replicate (S (length outs)) (OQuery (APoll eid) orderId) ++
              final_obs expected opts last).
    rewrite replicate_S_end, <- !app_assoc. done.
  - intros evs. destruct (stopped_run _ _ evs _ Hst) as (_ & _ & Hq).
    rewrite Hq, queries_by_app. simpl e_orderId.
    rewrite queries_by_replicate. lia.
Qed.

Lemma run_ends_with_one_signal_witness :
  w_trace (attempts 0 [Rejected; Resolved unpaid; Resolved (paid "TOK1")]
             (startPaymentPolling "ORD1" "TOK1" (opaque123 5) (initial WEAPP None)).1) =
  [OQuery (APoll 0) "ORD1"; OQuery (APoll 0) "ORD1"; OQuery (APoll 0) "ORD1";
   OCallback KSuccess 1 (PResult (paid "TOK1"))].
Proof.
  destruct (run_ends_with_one_signal 5 "ORD1" "TOK1" (opaque123 5)
              [Rejected; Resolved unpaid] (Resolved (paid "TOK1"))
              (initial WEAPP None)) as (H & _).
  - reflexivity.
  - lia.
  - apply initial_idle.
  - repeat constructor.
  - simpl. lia.
  - left. reflexivity.
  - exact H.
Defined.

(** ** The shape of a session *)

Section Shape.
Implicit Types (w : World) (c : nat).

Lemma kept_refl w w' : w_engines w' = w_engines w -> engines_kept w w'.
Proof. intros Heq c e He. rewrite Heq. eauto. Qed.

Lemma kept_trans w1 w2 w3 : engines_kept w1 w2 -> engines_kept w2 w3 -> engines_kept w1 w3.
Proof.
  intros H12 H23 c e He. destruct (H12 c e He) as (e2 & He2 & Ho & Ha).
  destruct (H23 c e2 He2) as (e3 & He3 & Ho3 & Ha3). exists e3.
  split; [done|]. split; congruence.
Qed.

Lemma kept_upd_engine c f w :
  (forall e, e_orderId (f e) = e_orderId e /\ e_expectedAttach (f e) = e_expectedAttach e) ->
  engines_kept w (upd_engine c f w).
Proof.
  intros Hf c' e He. unfold upd_engine; simpl.
  destruct (decide (c = c')) as [->|Hne].
  - exists (f e). rewrite list_lookup_alter_eq, He. split; [done|]. apply Hf.
  - exists e. now rewrite list_lookup_alter_ne.
Qed.

Lemma kept_cancelPolling c w : engines_kept w (cancelPolling c w).
Proof.
  intros c' e He. rewrite cancelPolling_lookup. case_decide as Hc.
  - subst c'. rewrite He. simpl. eauto.
  - eauto.
Qed.

Lemma kept_startPaymentPolling o a opts w :
  engines_kept w (startPaymentPolling o a opts w).1.
Proof.
  intros c e He. unfold startPaymentPolling, upd_engine; simpl. exists e.
  split; [|done].
  rewrite list_lookup_alter_ne by (apply lookup_lt_Some in He; lia).
  now apply lookup_app_l_Some.
Qed.

(** What [cancelPolling] and [startPaymentPolling] leave alone. *)
Lemma cancelPolling_rest c w :
  w_env (cancelPolling c w) = w_env w /\ w_document (cancelPolling c w) = w_document w /\
  w_state (cancelPolling c w) = w_state w /\
  w_visibilityListeners (cancelPolling c w) = w_visibilityListeners w /\
  w_focusListeners (cancelPolling c w) = w_focusListeners w /\
  length (w_engines (cancelPolling c w)) = length (w_engines w).
Proof.
  unfold cancelPolling, upd_engine. repeat case_match; simpl;
    rewrite ?length_alter; done.
Qed.

Lemma shape_kept w w' :
  w_env w' = w_env w -> (is_Some (w_document w') <-> is_Some (w_document w)) ->
  w_state w' = w_state w ->
  w_visibilityListeners w' = w_visibilityListeners w ->
  w_focusListeners w' = w_focusListeners w ->
  engines_kept w w' -> session_shape w -> session_shape w'.
Proof.
  unfold session_shape. intros -> Hd -> -> -> Hk (Hfl & Hst). split; [done|].
  destruct (w_state w) as [s|]; [|done].
  destruct Hst as (Hp & Hl & Hv & Hc & He). rewrite Hd.
  repeat (split; [done|]). intros c Hc'.
  destruct (He c Hc') as (e & Hle & Ho & Ha).
  destruct (Hk c e Hle) as (e' & Hle' & Ho' & Ha'). exists e'.
  split; [done|]. split; congruence.
Qed.

Lemma shape_same w w' :
  w_env w' = w_env w -> w_document w' = w_document w -> w_state w' = w_state w ->
  w_visibilityListeners w' = w_visibilityListeners w ->
  w_focusListeners w' = w_focusListeners w ->
  w_engines w' = w_engines w -> session_shape w -> session_shape w'.
Proof.
  intros He Hd Hs Hv Hf Hen. apply shape_kept; try done.
  - now rewrite Hd.
  - now apply kept_refl.
Qed.

Lemma shape_cancelPolling c w : session_shape w -> session_shape (cancelPolling c w).
Proof.
  destruct (cancelPolling_rest c w) as (He & Hd & Hs & Hv & Hf & _).
  apply shape_kept; try done.
  - now rewrite Hd.
  - apply kept_cancelPolling.
Qed.

Lemma startPolling_rest callbacks w :
  w_env (startPolling callbacks w) = w_env w /\
  w_document (startPolling callbacks w) = w_document w /\
  w_visibilityListeners (startPolling callbacks w) = w_visibilityListeners w /\
  w_focusListeners (startPolling callbacks w) = w_focusListeners w /\
  engines_kept w (startPolling callbacks w).
Proof.
  unfold startPolling. destruct (w_state w) as [s|]; [|repeat split; now apply kept_refl].
  destruct (negb (s_isPolling s)); [repeat split; now apply kept_refl|].
  set (w1 := match s_pollingCleanup s with
             | Some c => cancelPolling c w
             | None => w
             end).
  assert (w_env w1 = w_env w /\ w_document w1 = w_document w /\
          w_visibilityListeners w1 = w_visibilityListeners w /\
          w_focusListeners w1 = w_focusListeners w /\ engines_kept w w1)
    as (He & Hd & Hv & Hf & Hk).
  { subst w1. destruct (s_pollingCleanup s) as [c|].
    - destruct (cancelPolling_rest c w) as (? & ? & ? & ? & ? & _).
      repeat split; try done. apply kept_cancelPolling.
    - repeat split; now apply kept_refl. }
  pose proof (kept_startPaymentPolling (s_orderId s) (s_attach s)
                (mkOptions (Some (HManager callbacks)) (Some (HManager callbacks))
                   (Some (HManager callbacks)) (Some 30) (Some 3000)) w1) as Hk2.
  destruct (startPaymentPolling _ _ _ w1) as [w2 c'] eqn:E.
  unfold startPaymentPolling in E; simpl in E. injection E as <- <-.
  simpl in *. repeat split; try done.
  eapply kept_trans; [exact Hk|]. exact Hk2.
Qed.

Lemma shape_startPolling callbacks w :
  session_shape w -> session_shape (startPolling callbacks w).
Proof.
  intros Hsh. destruct (startPolling_rest callbacks w) as (He & Hd & Hv & Hf & Hk).
  destruct Hsh as (Hfl & Hst). split; [congruence|].
  unfold startPolling in *. destruct (w_state w) as [s|] eqn:Hs; [|now rewrite Hs].
  destruct (negb (s_isPolling s)) eqn:Hp.
  { rewrite Hs. done. }
  set (w1 := match s_pollingCleanup s with
             | Some c => cancelPolling c w
             | None => w
             end) in *.
  assert (w_state w1 = Some s) as Hs1.
  { subst w1. destruct (s_pollingCleanup s) as [c|]; [|done].
    now rewrite cancelPolling_state. }
  destruct Hst as (Hpol & Hl & Hvh & Hcb & _).
  unfold startPaymentPolling, upd_state, upd_engine in *; simpl in *.
  rewrite Hs1; simpl. rewrite Hv, He, Hd.
  repeat (split; [done|]). intros c [= <-].
  rewrite list_lookup_alter_eq, lookup_app_r, Nat.sub_diag by lia. simpl. eauto.
Qed.

Lemma shape_cleanup w :
  session_shape w -> session_shape (cleanup w) /\ engines_kept w (cleanup w).
Proof.
  intros (Hfl & Hst). unfold cleanup. destruct (w_state w) as [s|] eqn:Hs.
  2:{ split; [|now apply kept_refl]. split; [done|]. now rewrite Hs. }
  destruct Hst as (Hpol & Hl & Hvh & Hcb & _).
  set (w1 := match s_pollingCleanup s with
             | Some c => cancelPolling c w
             | None => w
             end).
  assert (w_visibilityListeners w1 = w_visibilityListeners w /\
          w_focusListeners w1 = w_focusListeners w /\ engines_kept w w1)
    as (Hv1 & Hf1 & Hk1).
  { subst w1. destruct (s_pollingCleanup s) as [c|].
    - destruct (cancelPolling_rest c w) as (? & ? & ? & ? & ? & _).
      repeat split; try done. apply kept_cancelPolling.
    - repeat split; now apply kept_refl. }
  destruct (s_visibilityChangeHandler s) as [h|].
  - unfold visibilityCleanup, handleVisibilityChange.
    set (w2 := set_listeners _ _ _ w1).
    assert (w_visibilityListeners w2 = [] /\ w_focusListeners w2 = [] /\
            engines_kept w w2) as (Hv2 & Hf2 & Hk2).
    { subst w2; simpl. rewrite Hf1, Hfl, Hv1, Hl. unfold remove_listener.
      rewrite filter_cons_False, filter_nil by (simpl; tauto).
      split; [done|]. split; [done|]. exact Hk1. }
    assert (forall w3, w_visibilityListeners w3 = [] -> w_focusListeners w3 = [] ->
              engines_kept w w3 ->
              session_shape (set_state None w3) /\ engines_kept w (set_state None w3))
      as Hgen.
    { intros w3 Hv3 Hf3 Hk3. split; [|done]. split; simpl; congruence. }
    destruct (w_document w2) as [[|]|]; try (now apply Hgen).
    destruct (w_state w2) as [s2|]; [|now apply Hgen].
    destruct (s_isPolling s2); [|now apply Hgen].
    destruct (startPolling_rest h.2 w2) as (_ & _ & Hv3 & Hf3 & Hk3).
    apply Hgen; try congruence. eapply kept_trans; eauto.
  - split; [|done]. split; simpl; congruence.
Qed.

Lemma shape_call_opt k f p w : session_shape w -> session_shape (call_opt k f p w).
Proof. destruct f; simpl; [|done]. now apply shape_same. Qed.

Lemma shape_invoke k h p w : session_shape w -> session_shape (invoke k h p w).
Proof.
  intros Hsh. destruct h as [[f|callbacks]|]; [| |done].
  - revert Hsh. now apply shape_same.
  - apply shape_cleanup in Hsh as (Hsh & _). revert Hsh.
    apply shape_same; simpl; destruct k, (member _ callbacks); done.
Qed.

Lemma shape_startPayment o a m callbacks w :
  session_shape w -> session_shape (startPayment o a m callbacks w).
Proof.
  intros Hsh. apply shape_cleanup in Hsh as ((Hfl & Hst) & _).
  pose proof (cleanup_state w) as Hs. rewrite Hs in Hst.
  unfold startPayment, setupVisibilityChangeHandler, setupAppShowHandler, upd_state.
  simpl. destruct (w_env (cleanup w)) eqn:Henv; simpl; rewrite ?Henv;
    [destruct (w_document (cleanup w)) eqn:Hd; simpl; rewrite ?Henv| |];
    (split; simpl; [congruence|]); rewrite ?Hst, ?Hd, ?Henv; simpl;
    repeat split; try done; eauto;
    first [ intros [x Hx]; done | intros (_ & [x Hx]); done | intros (Hx & _); done ].
Qed.

Lemma shape_checkPaymentStatusOnce_resume out w :
  session_shape w -> session_shape (checkPaymentStatusOnce_resume out w).
Proof.
  intros Hsh. unfold checkPaymentStatusOnce_resume, checkPaymentStatusOnce_catch.
  repeat case_match; try (now apply shape_startPolling);
    try (revert Hsh; now apply shape_same).
  - eapply shape_same; [| | | | | |
      apply (shape_cleanup (call_opt KFailed (s_callbacks p ≫= onFailed) (PResult r) w)),
            shape_call_opt, Hsh]; done.
  - now apply shape_cleanup, shape_call_opt.
Qed.

Lemma shape_poll_resume c out w :
  session_shape w -> session_shape (poll_resume c out w).
Proof.
  intros Hsh. unfold poll_resume.
  assert (session_shape (upd_engine c (with_isPolling false) w)) as Hlow.
  { revert Hsh. apply shape_kept; try done. now apply kept_upd_engine. }
  assert (forall d, session_shape (schedule c d w)) as Hsched.
  { intros d. revert Hsh. unfold schedule, setTimeout.
    apply shape_kept; try done. eapply kept_trans; [|now apply kept_upd_engine].
    now apply kept_refl. }
  repeat case_match; try done; now apply shape_invoke.
Qed.

Lemma shape_dispatch f ls w :
  (forall cb w', session_shape w' -> session_shape (f cb w')) ->
  session_shape w -> session_shape (dispatch f ls w).
Proof.
  intros Hf. unfold dispatch. revert w.
  induction ls as [|p ls IH]; intros w Hsh; simpl; [done|].
  apply IH, Hf, Hsh.
Qed.

Lemma shape_step ev w : session_shape w -> session_shape (step ev w).
Proof.
  intros Hsh. destruct ev; simpl.
  - now apply shape_startPayment.
  - unfold handlePageShow, checkPaymentStatusOnce.
    repeat case_match; first [done | now apply shape_startPolling
                             | revert Hsh; now apply shape_same].
  - now apply shape_cleanup.
  - unfold manualCheckPaymentStatus.
    destruct (w_state w); revert Hsh; now apply shape_same.
  - destruct (w_document w) eqn:Hd; [|done]. apply shape_dispatch.
    + intros cb w' Hsh'. unfold handleVisibilityChange.
      repeat case_match; first [done | now apply shape_startPolling].
    + revert Hsh. apply shape_kept; try done. now apply kept_refl.
  - case_match; [|done]. apply shape_dispatch; [|done].
    intros cb w' Hsh'. unfold handleFocus.
    repeat case_match; first [done | now apply shape_startPolling].
  - destruct (w_timers w !! t) as [[c d]|]; [|done].
    unfold poll. repeat case_match; try (revert Hsh; now apply shape_same).
    revert Hsh. apply shape_kept; try done.
    eapply kept_trans; [|apply kept_refl; reflexivity].
    eapply kept_trans; [apply (kept_refl w (clearTimeout t w)); reflexivity|].
    now apply kept_upd_engine.
  - destruct (w_requests w !! q) as [a|]; [|done].
    assert (session_shape
              (set_requests (delete q (w_requests w)) (w_nextRequest w) w)) as Hsh'
      by (revert Hsh; now apply shape_same).
    destruct a as [c| |]; simpl.
    + now apply shape_poll_resume.
    + now apply shape_checkPaymentStatusOnce_resume.
    + pose proof (shape_cleanup _ Hsh') as (Hc & _).
      unfold manualCheckPaymentStatus_resume.
      repeat case_match; simplify_eq; simpl;
        first [revert Hc; now apply shape_same | revert Hsh'; now apply shape_same].
Qed.

Lemma shape_run evs w : session_shape w -> session_shape (run evs w).
Proof.
  unfold run. revert w. induction evs as [|ev evs IH]; intros w Hsh; simpl; [done|].
  apply IH, shape_step, Hsh.
Qed.

Lemma shape_initial env document : session_shape (initial env document).
Proof. split; done. Qed.
End Shape.

(** ** The runtime environment does not change *)

Section Env.
Implicit Types (w : World) (c : nat).

Lemma env_cleanup w : w_env (cleanup w) = w_env w.
Proof. by_cases. Qed.

Lemma requests_cleanup w : w_requests (cleanup w) = w_requests w.
Proof. by_cases. Qed.

Lemma env_call_opt k f p w : w_env (call_opt k f p w) = w_env w.
Proof. now destruct f. Qed.

Lemma env_invoke k h p w : w_env (invoke k h p w) = w_env w.
Proof.
  destruct h as [[f|callbacks]|]; simpl; try done.
  destruct k; simpl; now rewrite ?env_call_opt, env_cleanup.
Qed.

Lemma env_startPolling callbacks w : w_env (startPolling callbacks w) = w_env w.
Proof. apply startPolling_rest. Qed.

Lemma env_startPayment o a m callbacks w :
  w_env (startPayment o a m callbacks w) = w_env w.
Proof.
  unfold startPayment, setupVisibilityChangeHandler, setupAppShowHandler.
  repeat (simpl; case_match); simpl; apply env_cleanup.
Qed.

Lemma env_checkPaymentStatusOnce_resume out w :
  w_env (checkPaymentStatusOnce_resume out w) = w_env w.
Proof.
  unfold checkPaymentStatusOnce_resume, checkPaymentStatusOnce_catch.
  repeat case_match; simpl;
    rewrite ?env_cleanup, ?env_call_opt, ?env_startPolling; done.
Qed.

Lemma env_poll_resume c out w : w_env (poll_resume c out w) = w_env w.
Proof.
  unfold poll_resume, schedule, setTimeout.
  repeat case_match; simpl; rewrite ?env_invoke; done.
Qed.

Lemma env_dispatch f ls w :
  (forall cb w', w_env (f cb w') = w_env w') -> w_env (dispatch f ls w) = w_env w.
Proof.
  intros Hf. unfold dispatch. revert w.
  induction ls as [|p ls IH]; intros w; simpl; [done|].
  now rewrite IH, Hf.
Qed.

Lemma env_step ev w : w_env (step ev w) = w_env w.
Proof.
  destruct ev; simpl.
  - apply env_startPayment.
  - unfold handlePageShow, checkPaymentStatusOnce.
    repeat case_match; simpl; rewrite ?env_startPolling; done.
  - apply env_cleanup.
  - unfold manualCheckPaymentStatus. now destruct (w_state w).
  - case_match; [|done]. rewrite env_dispatch; [done|].
    intros cb w'. unfold handleVisibilityChange.
    repeat case_match; rewrite ?env_startPolling; done.
  - case_match; [|done]. rewrite env_dispatch; [done|].
    intros cb w'. unfold handleFocus.
    repeat case_match; rewrite ?env_startPolling; done.
  - destruct (w_timers w !! t) as [[c d]|]; [|done].
    unfold poll. repeat case_match; done.
  - destruct (w_requests w !! q) as [a|]; [|done].
    destruct a as [c| |]; simpl.
    + now rewrite env_poll_resume.
    + now rewrite env_checkPaymentStatusOnce_resume.
    + unfold manualCheckPaymentStatus_resume.
      repeat case_match; simplify_eq; simpl; rewrite ?env_cleanup; done.
Qed.

Lemma env_run evs w : w_env (run evs w) = w_env w.
Proof.
  unfold run. revert w. induction evs as [|ev evs IH]; intros w; simpl; [done|].
  now rewrite IH, env_step.
Qed.
End Env.

(** X4: in every reachable world the focus listener and the visibility
    listener are registered together, at most one pair at a time: none
    when there is no session, none outside the browser, and otherwise
    exactly the pair that the session's [visibilityChangeHandler]
    removes.  No listener outlives its session. *)
Theorem listeners_follow_session :
  forall (env : EnvType) (document : option bool) (evs : list Event),
    w_focusListeners (run evs (initial env document)) =
      w_visibilityListeners (run evs (initial env document)) /\
    (length (w_visibilityListeners (run evs (initial env document))) <= 1)%nat /\
    (w_state (run evs (initial env document)) = None ->
       w_visibilityListeners (run evs (initial env document)) = []) /\
    (env <> WEB -> w_visibilityListeners (run evs (initial env document)) = []) /\
    (forall s, w_state (run evs (initial env document)) = Some s ->
       w_visibilityListeners (run evs (initial env document)) =
       match s_visibilityChangeHandler s with
       | Some h => [h]
       | None => []
       end).
Proof.
  intros env document evs.
  pose proof (shape_run evs _ (shape_initial env document)) as (Hfl & Hst).
  pose proof (env_run evs (initial env document)) as Henv. simpl in Henv.
  set (w := run evs (initial env document)) in *.
  split; [done|]. destruct (w_state w) as [s|].
  - destruct Hst as (_ & Hl & Hv & _). rewrite Hl.
    split; [destruct (s_visibilityChangeHandler s); simpl; lia|].
    split; [done|]. split; [|now intros s' [= <-]].
    intros Hne. destruct (s_visibilityChangeHandler s) as [h|]; [|done].
    destruct Hv as (Hv & _). destruct Hv as (Hweb & _); [eauto|]. congruence.
  - rewrite Hst. simpl. repeat split; try done. lia.
Qed.

Lemma listeners_follow_session_witness :
  w_visibilityListeners
    (run [EStartPayment "ORD1" "TOK1" 1000 cb123;
          EStartPayment "ORD2" "TOK2" 2000 cb456; EFocus; ECleanup]
       (initial WEB (Some false))) = [].
Proof.
  destruct (listeners_follow_session WEB (Some false)
              [EStartPayment "ORD1" "TOK1" 1000 cb123;
               EStartPayment "ORD2" "TOK2" 2000 cb456; EFocus; ECleanup])
    as (_ & _ & H & _).
  apply H. vm_compute. reflexivity.
Defined.

(** X5: while a session exists its [isPolling] flag is up (nothing ever
    lowers it), its [callbacks] field is set exactly in the mini-program,
    and the cleanup function it holds belongs to an existing closure that
    polls the session's order with the session's attach, with budget 30
    and interval 3000. *)
Theorem session_refers_to_its_loop :
  forall (env : EnvType) (document : option bool) (evs : list Event)
         (s : PaymentState),
    w_state (run evs (initial env document)) = Some s ->
    s_isPolling s = true /\
    (is_Some (s_callbacks s) <-> env = WEAPP) /\
    (forall c, s_pollingCleanup s = Some c ->
       exists e, w_engines (run evs (initial env document)) !! c = Some e /\
                 e_orderId e = s_orderId s /\ e_expectedAttach e = s_attach s /\
                 e_maxAttempts e = 30 /\ e_interval e = 3000).
Proof.
  intros env document evs s Hs.
  pose proof (shape_run evs _ (shape_initial env document)) as (_ & Hst).
  pose proof (env_run evs (initial env document)) as Henv. simpl in Henv.
  assert (all_manager_made (run evs (initial env document))) as Hm
    by (apply made_run; constructor).
  rewrite Hs in Hst. destruct Hst as (Hp & _ & _ & Hcb & He).
  split; [done|]. split; [now rewrite <- Henv|].
  intros c Hc. destruct (He c Hc) as (e & Hl & Ho & Ha). exists e.
  destruct (Forall_lookup_1 _ _ _ _ Hm Hl) as (Hmax & Hint & _). done.
Qed.

Lemma session_refers_to_its_loop_witness :
  exists e, w_engines c4_polling !! 0%nat = Some e /\
            e_orderId e = "ORD1" /\ e_expectedAttach e = "TOK1" /\
            e_maxAttempts e = 30 /\ e_interval e = 3000.
Proof.
  destruct (session_refers_to_its_loop WEAPP None
              [EStartPayment "ORD1" "TOK1" 1000 cb123; EHandlePageShow;
               EResponse 1 (Resolved unpaid); ETimer 1; EResponse 2 (Resolved unpaid)]
              (mkState "ORD1" "TOK1" 1000 true (Some 0%nat) None (Some cb123)))
    as (_ & _ & H); [reflexivity|].
  apply (H 0%nat). reflexivity.
Defined.

Lemma startPolling_creates (callbacks : Callbacks) (w : World) (s : PaymentState) :
  w_state w = Some s -> s_isPolling s = true ->
  w_engines (startPolling callbacks w) !! length (w_engines w) =
    Some (mkEngine (s_orderId s) (s_attach s) (Some (HManager callbacks))
            (Some (HManager callbacks)) (Some (HManager callbacks))
            30 3000 0 true (Some (w_nextTimer w))).
Proof.
  intros Hs Hp. unfold startPolling. rewrite Hs, Hp; simpl.
  set (w1 := match s_pollingCleanup s with
             | Some c => cancelPolling c w
             | None => w
             end).
  assert (length (w_engines w1) = length (w_engines w) /\
          w_nextTimer w1 = w_nextTimer w) as (Hl & Hn).
  { subst w1. destruct (s_pollingCleanup s) as [c|]; [|done].
    unfold cancelPolling, upd_engine.
    repeat case_match; simpl; rewrite ?length_alter; done. }
  unfold upd_engine; simpl. rewrite Hl, Hn.
  rewrite list_lookup_alter_eq, lookup_app_r by lia.
  now rewrite Hl, Nat.sub_diag.
Qed.

(** X6: in the browser [state.callbacks] is never set, so [handlePageShow]
    starts its loop over the empty callbacks object: whatever callbacks
    [startPayment] was given, the handlers of that loop call none of
    them. *)
Theorem browser_handlePageShow_has_no_callbacks :
  forall (document : option bool) (evs : list Event),
    handlePageShow (run evs (initial WEB document)) =
      startPolling noCallbacks (run evs (initial WEB document)) /\
    (forall s, w_state (run evs (initial WEB document)) = Some s ->
       exists e,
         w_engines (handlePageShow (run evs (initial WEB document)))
           !! length (w_engines (run evs (initial WEB document))) = Some e /\
         e_onSuccess e = Some (HManager noCallbacks) /\
         e_onFailed e = Some (HManager noCallbacks) /\
         e_onTimeout e = Some (HManager noCallbacks) /\
         forall k p f, calls_of f (invoke_obs k (Some (HManager noCallbacks)) p) = 0%nat).
Proof.
  intros document evs.
  pose proof (shape_run evs _ (shape_initial WEB document)) as (_ & Hst).
  pose proof (env_run evs (initial WEB document)) as Henv. simpl in Henv.
  set (w := run evs (initial WEB document)) in *.
  assert (handlePageShow w = startPolling noCallbacks w) as Heq.
  { unfold handlePageShow. destruct (w_state w) as [s|] eqn:Hs.
    - destruct Hst as (Hp & _ & _ & Hcb & _). rewrite Hp, Henv.
      destruct (s_callbacks s) as [cb|]; [|done].
      destruct Hcb as (Hcb & _). rewrite Henv in Hcb.
      assert (WEB = WEAPP) by (apply Hcb; eauto). done.
    - unfold startPolling. now rewrite Hs. }
  split; [done|]. intros s Hs. rewrite Heq. rewrite Hs in Hst.
  destruct Hst as (Hp & _).
  eexists. split; [apply (startPolling_creates noCallbacks w s Hs Hp)|]. simpl.
  repeat split. intros k p f. now destruct k.
Qed.

Lemma browser_handlePageShow_has_no_callbacks_witness :
  exists e,
    w_engines (handlePageShow (step (EStartPayment "ORD1" "TOK1" 1000 cb123)
                                 (initial WEB (Some false)))) !! 0%nat = Some e /\
    e_onSuccess e = Some (HManager noCallbacks).
Proof.
  destruct (browser_handlePageShow_has_no_callbacks (Some false)
              [EStartPayment "ORD1" "TOK1" 1000 cb123]) as (_ & H).
  destruct (H (mkState "ORD1" "TOK1" 1000 true None (Some (1%nat, cb123)) None))
    as (e & He & Hs & _); [reflexivity|].
  exists e. split; [exact He | exact Hs].
Defined.

(** ** When cancellation does work *)

Lemma cancelPolling_stops (c : nat) (e : Engine) (w : World) :
  serial w -> w_engines w !! c = Some e ->
  (forall q, w_requests w !! q <> Some (APoll c)) ->
  stopped c (queries_by c (w_trace w)) (cancelPolling c w).
Proof.
  intros (_ & _ & Hall) He Hnoq. destruct (Hall c e He) as (H1 & _).
  split; [|split; [split|]].
  - rewrite cancelPolling_lookup. case_decide; [|done]. rewrite He. simpl. eauto.
  - intros t d. unfold cancelPolling, clearTimeout, upd_engine. rewrite He.
    destruct (e_timeoutId e) as [t0|] eqn:Ht0; simpl.
    + destruct (decide (t0 = t)) as [->|Hne]; [now rewrite lookup_delete_eq|].
      rewrite lookup_delete_ne by done. intros Ht.
      destruct (H1 t d Ht) as (Hid & _). congruence.
    + intros Ht. destruct (H1 t d Ht) as (Hid & _). congruence.
  - intros q. unfold cancelPolling, upd_engine. rewrite He.
    destruct (e_timeoutId e); simpl; apply Hnoq.
  - now rewrite cancelPolling_trace.
Qed.

(** X7: when [cleanup()] is called between two attempts of the session's
    loop (none of its queries is outstanding), the cancellation is
    complete: the loop's flag is down, its timer is gone, and whatever
    happens afterwards it never issues a status query again. *)
Theorem cleanup_between_attempts_stops_loop :
  forall (env : EnvType) (document : option bool) (evs : list Event)
         (s : PaymentState) (c : nat),
    w_state (run evs (initial env document)) = Some s ->
    s_pollingCleanup s = Some c ->
    (forall q, w_requests (run evs (initial env document)) !! q <> Some (APoll c)) ->
    halted c (cleanup (run evs (initial env document))) /\
    (forall t d, w_timers (cleanup (run evs (initial env document))) !! t <> Some (c, d)) /\
    (forall evs',
       queries_by c (w_trace (run evs' (cleanup (run evs (initial env document))))) =
       queries_by c (w_trace (run evs (initial env document)))).
Proof.
  intros env document evs s c Hs Hc Hnoq.
  pose proof (serial_run evs _ (serial_initial env document)) as Hser.
  pose proof (shape_run evs _ (shape_initial env document)) as (_ & Hst).
  set (w := run evs (initial env document)) in *.
  rewrite Hs in Hst. destruct Hst as (_ & _ & _ & _ & He).
  destruct (He c Hc) as (e & Hl & _).
  pose proof (cancelPolling_stops c e w Hser Hl Hnoq) as Hstop.
  assert (stopped c (queries_by c (w_trace w)) (cleanup w)) as Hst.
  { unfold cleanup. rewrite Hs, Hc. apply stopped_set_state.
    destruct (s_visibilityChangeHandler s) as [h|]; [|done].
    unfold visibilityCleanup. now apply stopped_handleVisibilityChange, stopped_set_listeners. }
  split; [apply Hst|]. split; [apply Hst|].
  intros evs'. now destruct (stopped_run _ _ evs' _ Hst) as (_ & _ & Hq).
Qed.

Lemma cleanup_between_attempts_stops_loop_witness :
  queries_by 0 (w_trace (run [ETimer 2; EHandlePageShow] (cleanup c4_polling))) =
  queries_by 0 (w_trace c4_polling).
Proof.
  destruct (cleanup_between_attempts_stops_loop WEAPP None
              [EStartPayment "ORD1" "TOK1" 1000 cb123; EHandlePageShow;
               EResponse 1 (Resolved unpaid); ETimer 1; EResponse 2 (Resolved unpaid)]
              (mkState "ORD1" "TOK1" 1000 true (Some 0%nat) None (Some cb123)) 0%nat)
    as (_ & _ & H).
  - reflexivity.
  - reflexivity.
  - intros q. vm_compute. destruct (Pos.of_succ_nat q); discriminate.
  - apply (H [ETimer 2; EHandlePageShow]).
Defined.

Lemma dispatch_without_session f (ls : list (nat * Callbacks)) (w : World) :
  (forall cb w', w_state w' = None -> f cb w' = w') ->
  w_state w = None -> dispatch f ls w = w.
Proof.
  intros Hf Hs. unfold dispatch.
  induction ls as [|p ls IH]; simpl; [done|]. now rewrite Hf.
Qed.

Lemma dormant_step (ev : Event) (w : World) :
  dormant w -> is_startPayment ev = false ->
  dormant (step ev w) /\
  (w_trace (step ev w) = w_trace w \/ w_trace (step ev w) = w_trace w ++ [OReturn None]) /\
  w_engines (step ev w) = w_engines w.
Proof.
  intros (Hs & Ht & Hq) Hev. destruct ev; simpl in *; try done.
  - unfold handlePageShow. rewrite Hs. repeat split; auto.
  - unfold cleanup. rewrite Hs. repeat split; auto.
  - unfold manualCheckPaymentStatus. rewrite Hs. simpl. repeat split; auto.
  - destruct (w_document w); [|repeat split; auto].
    rewrite dispatch_without_session; [repeat split; auto| |done].
    intros cb w' Hs'. unfold handleVisibilityChange. rewrite Hs'.
    now destruct (w_document w') as [[|]|].
  - destruct (w_document w); [|repeat split; auto].
    rewrite dispatch_without_session; [repeat split; auto| |done].
    intros cb w' Hs'. unfold handleFocus. now rewrite Hs'.
  - rewrite Ht, lookup_empty. repeat split; auto.
  - rewrite Hq, lookup_empty. repeat split; auto.
Qed.

Lemma dormant_run (evs : list Event) :
  forall w : World,
    dormant w -> Forall (fun ev => is_startPayment ev = false) evs ->
    dormant (run evs w) /\
    (exists k, w_trace (run evs w) = w_trace w ++ replicate k (OReturn None)) /\
    w_engines (run evs w) = w_engines w.
Proof.
  unfold run. induction evs as [|ev evs IH]; intros w Hd Hevs; simpl.
  - split; [done|]. split; [|done]. exists 0%nat. simpl. now rewrite app_nil_r.
  - apply Forall_cons in Hevs as [Hev Hevs].
    destruct (dormant_step ev w Hd Hev) as (Hd1 & Htr1 & He1).
    destruct (IH _ Hd1 Hevs) as (Hd2 & (k & Htr2) & He2).
    split; [done|]. split; [|congruence].
    destruct Htr1 as [Htr1|Htr1]; rewrite Htr2, Htr1.
    + now exists k.
    + exists (S k). now rewrite <- app_assoc.
Qed.

(** X8: outside the browser, once [cleanup()] has been called while no
    request is outstanding, nothing happens any more until the next
    [startPayment]: whatever calls and events follow, no status query is
    issued, no callback is called and no toast is shown (the only thing
    an observer sees are manual checks returning [null]), and no polling
    closure is created. *)
Theorem nothing_happens_after_cleanup :
  forall (env : EnvType) (document : option bool) (evs evs' : list Event),
    env <> WEB \/ document = None ->
    w_requests (run evs (initial env document)) = ∅ ->
    Forall (fun ev => is_startPayment ev = false) evs' ->
    (exists k,
       w_trace (run evs' (cleanup (run evs (initial env document)))) =
       w_trace (run evs (initial env document)) ++ replicate k (OReturn None)) /\
    active_engines (run evs' (cleanup (run evs (initial env document)))) = [] /\
    length (w_engines (run evs' (cleanup (run evs (initial env document))))) =
      length (w_engines (run evs (initial env document))).
Proof.
  intros env document evs evs' Hn Hreq Hevs.
  pose proof (single_run evs _ (single_initial env document Hn)) as Hsingle.
  pose proof (serial_run evs _ (serial_initial env document)) as Hser.
  set (w := run evs (initial env document)) in *.
  destruct (single_cleanup w Hsingle) as (_ & Hquiet & _).
  pose proof (serial_cleanup w Hser) as ((Hbt & _) & _ & Hall).
  assert (dormant (cleanup w)) as Hd.
  { split; [apply cleanup_state|]. split; [|now rewrite requests_cleanup].
    apply map_empty. intros t.
    destruct (w_timers (cleanup w) !! t) as [[c d]|] eqn:Ht; [exfalso|done].
    pose proof (Hbt t c d Ht) as Hlt.
    apply lookup_lt_is_Some_2 in Hlt as (e & He).
    destruct (Hall c e He) as (H1 & _). destruct (H1 t d Ht) as (_ & Hp & _).
    apply Hquiet in He. congruence. }
  destruct (dormant_run evs' _ Hd Hevs) as (_ & (k & Htr) & Heng).
  split; [exists k; now rewrite Htr, cleanup_trace|].
  assert (length (w_engines (cleanup w)) = length (w_engines w)) as Hlen.
  { unfold cleanup. destruct (w_state w) as [s|] eqn:Hs; [|done].
    destruct Hsingle as (_ & Hvis & _). rewrite (Hvis s Hs). simpl.
    destruct (s_pollingCleanup s) as [c|]; [|done]. apply cancelPolling_rest. }
  split; [|congruence].
  destruct (active_engines (run evs' (cleanup w))) as [|c l] eqn:Hact; [done|exfalso].
  assert (In c (active_engines (run evs' (cleanup w)))) as Hin
    by (rewrite Hact; now left).
  apply active_engines_spec in Hin as (e & He & Hp).
  rewrite Heng in He. apply Hquiet in He. congruence.
Qed.

Lemma nothing_happens_after_cleanup_witness :
  exists k,
    w_trace (run [EHandlePageShow; EManualCheck; ETimer 2]
               (cleanup (run [EStartPayment "ORD1" "TOK1" 1000 cb123; EHandlePageShow;
                              EResponse 1 (Resolved unpaid); ETimer 1;
                              EResponse 2 (Resolved unpaid)]
                           (initial WEAPP None)))) =
    w_trace (run [EStartPayment "ORD1" "TOK1" 1000 cb123; EHandlePageShow;
                  EResponse 1 (Resolved unpaid); ETimer 1;
                  EResponse 2 (Resolved unpaid)]
               (initial WEAPP None)) ++ replicate k (OReturn None).
Proof.
  destruct (nothing_happens_after_cleanup WEAPP None
              [EStartPayment "ORD1" "TOK1" 1000 cb123; EHandlePageShow;
               EResponse 1 (Resolved unpaid); ETimer 1; EResponse 2 (Resolved unpaid)]
              [EHandlePageShow; EManualCheck; ETimer 2]) as (H & _).
  - left. discriminate.
  - vm_compute. reflexivity.
  - repeat constructor.
  - exact H.
Defined.

(** ** The one-shot check of the mini-program *)

Lemma quiet_no_active (w : World) : quiet w -> active_engines w = [].
Proof.
  intros Hq. destruct (active_engines w) as [|c l] eqn:Hact; [done|exfalso].
  assert (In c (active_engines w)) as Hin by (rewrite Hact; now left).
  apply active_engines_spec in Hin as (e & He & Hp). apply Hq in He. congruence.
Qed.

(** X9: in the mini-program, a resume signal ([handlePageShow]) on a
    session whose order the gateway reports complete: exactly one status
    query is issued; if the attach is the session's, [onSuccess] is
    called once with the response, otherwise [onFailed] is called once
    with the response and the verification toast is shown, and
    [onSuccess] is not called; in both cases the session is over
    afterwards and no polling loop is active. *)
Theorem miniprogram_resume_on_complete_response :
  forall (document : option bool) (evs : list Event) (s : PaymentState)
         (callbacks : Callbacks) (r : PaymentStatusResponse),
    w_state (run evs (initial WEAPP document)) = Some s ->
    s_callbacks s = Some callbacks ->
    isPaymentComplete r = true ->
    w_trace (run [EHandlePageShow;
                  EResponse (w_nextRequest (run evs (initial WEAPP document))) (Resolved r)]
               (run evs (initial WEAPP document))) =
      w_trace (run evs (initial WEAPP document)) ++
      [OQuery ACheckOnce (s_orderId s)] ++
      (if attach_differs r (s_attach s)
       then match onFailed callbacks with
            | Some f => [OCallback KFailed f (PResult r)]
            | None => []
            end ++ [OToast ToastVerifyFailed]
       else match onSuccess callbacks with
            | Some f => [OCallback KSuccess f (PResult r)]
            | None => []
            end) /\
    w_state (run [EHandlePageShow;
                  EResponse (w_nextRequest (run evs (initial WEAPP document))) (Resolved r)]
               (run evs (initial WEAPP document))) = None /\
    active_engines
      (run [EHandlePageShow;
            EResponse (w_nextRequest (run evs (initial WEAPP document))) (Resolved r)]
         (run evs (initial WEAPP document))) = [].
Proof.
  intros document evs s callbacks r Hs Hcb Hr.
  assert (WEAPP <> WEB \/ document = None) as Hn by (left; discriminate).
  pose proof (single_run evs _ (single_initial WEAPP document Hn)) as Hsingle.
  pose proof (shape_run evs _ (shape_initial WEAPP document)) as (_ & Hst).
  pose proof (env_run evs (initial WEAPP document)) as Henv. simpl in Henv.
  set (w := run evs (initial WEAPP document)) in *.
  rewrite Hs in Hst. destruct Hst as (Hp & _).
  assert (step EHandlePageShow w = getPaymentStatus ACheckOnce (s_orderId s) w) as H1.
  { simpl. unfold handlePageShow, checkPaymentStatusOnce. now rewrite Hs, Hp, Henv. }
  unfold run; simpl foldl. fold (step EHandlePageShow w). rewrite H1.
  unfold step, getPaymentStatus at 1. simpl w_requests. rewrite lookup_insert_eq.
  unfold resume, checkPaymentStatusOnce_resume. simpl w_state. rewrite Hs, Hr, Hcb.
  simpl.
  set (w1 := set_requests _ _ _).
  assert (single_loop w1) as Hs1 by (revert Hsingle; now apply single_same).
  assert (w_trace w1 = w_trace w ++ [OQuery ACheckOnce (s_orderId s)]) as Htr1 by done.
  destruct (attach_differs r (s_attach s)).
  - assert (single_loop (call_opt KFailed (onFailed callbacks) (PResult r) w1)) as Hs2
      by now apply single_call_opt.
    destruct (single_cleanup _ Hs2) as (_ & Hq & _).
    split; [|split].
    + simpl. rewrite cleanup_trace, call_opt_trace, Htr1, <- !app_assoc. done.
    + simpl. apply cleanup_state.
    + apply quiet_no_active. exact Hq.
  - assert (single_loop (call_opt KSuccess (onSuccess callbacks) (PResult r) w1)) as Hs2
      by now apply single_call_opt.
    destruct (single_cleanup _ Hs2) as (_ & Hq & _).
    split; [|split].
    + rewrite cleanup_trace, call_opt_trace, Htr1, <- !app_assoc. done.
    + apply cleanup_state.
    + now apply quiet_no_active.
Qed.

Lemma miniprogram_resume_on_complete_response_witness :
  w_trace (run [EHandlePageShow; EResponse 1 (Resolved (paid "TOK1"))]
             (run [EStartPayment "ORD1" "TOK1" 1000 cb123] (initial WEAPP None))) =
  [OQuery ACheckOnce "ORD1"; OCallback KSuccess 1 (PResult (paid "TOK1"))].
Proof.
  destruct (miniprogram_resume_on_complete_response None
              [EStartPayment "ORD1" "TOK1" 1000 cb123]
              (mkState "ORD1" "TOK1" 1000 true None None (Some cb123)) cb123
              (paid "TOK1")) as (H & _).
  - reflexivity.
  - reflexivity.
  - reflexivity.
  - exact H.
Defined.

(** ** The profile page: recharge confirmation and manual check *)

Lemma startPayment_state (o a : string) (m : Z) (callbacks : Callbacks) (w : World) :
  exists h c,
    w_state (startPayment o a m callbacks w) = Some (mkState o a m true None h c) /\
    (w_env w = WEB -> is_Some (w_document w) ->
       exists l, h = Some (l, callbacks) /\
                 (l, callbacks) ∈ w_visibilityListeners (startPayment o a m callbacks w) /\
                 (l, callbacks) ∈ w_focusListeners (startPayment o a m callbacks w)).
Proof.
  pose proof (env_cleanup w) as He.
  assert (w_document (cleanup w) = w_document w) as Hd by by_cases.
  unfold startPayment, setupVisibilityChangeHandler, setupAppShowHandler, upd_state.
  destruct (w_env w) eqn:Henv; destruct (w_document w) as [hd|] eqn:Hdoc;
    simpl; rewrite ?He, ?Hd; simpl; rewrite ?He; simpl;
    eexists _, _; (split; [reflexivity|]); try done.
  - intros _ _. eexists. split; [reflexivity|].
    split; apply elem_of_app; right; left.
Qed.

(** X10: [handleRechargeConfirm] when the order was created but
    [handlePaymentRedirect] throws for its response.  In the mini-program
    the session that [startPayment] has just opened is cleaned up again and
    the page leaves the pending state.  In the browser the page leaves the
    pending state too, but the session stays: the manager still holds the
    order and, where there is a document, its visibility and focus
    listeners stay registered.  In any other environment the redirect is
    not attempted: the page stays pending and the session stays. *)
Theorem failed_redirect_outcome (attach : string) (amount : Z)
    (response : RechargeResponse) (pg : Page) (e : RedirectError) :
  handlePaymentRedirect (w_env (pg_world pg)) response = RedirectThrows e ->
  match w_env (pg_world pg) with
  | WEAPP =>
    pg_paymentPending (handleRechargeConfirm_created attach amount (Some response) pg).1 = false /\
    w_state (pg_world (handleRechargeConfirm_created attach amount (Some response) pg).1) = None /\
    pg_toasts (handleRechargeConfirm_created attach amount (Some response) pg).1 =
      pg_toasts pg ++ [PToastFailure (Some e)]
  | WEB =>
    pg_paymentPending (handleRechargeConfirm_created attach amount (Some response) pg).1 = false /\
    (exists h c,
       w_state (pg_world (handleRechargeConfirm_created attach amount (Some response) pg).1) =
         Some (mkState (rr_orderId response) attach amount true None h c) /\
       (is_Some (w_document (pg_world pg)) ->
          exists l,
            (l, page_callbacks) ∈ w_visibilityListeners
              (pg_world (handleRechargeConfirm_created attach amount (Some response) pg).1) /\
            (l, page_callbacks) ∈ w_focusListeners
              (pg_world (handleRechargeConfirm_created attach amount (Some response) pg).1))) /\
    pg_toasts (handleRechargeConfirm_created attach amount (Some response) pg).1 =
      pg_toasts pg ++ [PToastFailure (Some e)]
  | OTHER =>
    pg_paymentPending (handleRechargeConfirm_created attach amount (Some response) pg).1 = true /\
    (exists h c,
       w_state (pg_world (handleRechargeConfirm_created attach amount (Some response) pg).1) =
         Some (mkState (rr_orderId response) attach amount true None h c)) /\
    pg_toasts (handleRechargeConfirm_created attach amount (Some response) pg).1 = pg_toasts pg
  end.
Proof.
  intros Hthrow. unfold handleRechargeConfirm_created.
  rewrite env_startPayment.
  destruct (startPayment_state (rr_orderId response) attach amount page_callbacks
              (pg_world pg)) as (h & c & Hstate & Hlisten).
  destruct (w_env (pg_world pg)) eqn:Henv; rewrite ?Hthrow; simpl.
  - split; [done|]. split; [|done].
    exists h, c. split; [done|]. intros Hdoc.
    destruct (Hlisten eq_refl Hdoc) as (l & _ & Hv & Hf). now exists l.
  - split; [done|]. split; [|done]. apply cleanup_state.
  - split; [done|]. split; [|done]. now exists h, c.
Qed.

Lemma failed_redirect_outcome_witness :
  handlePaymentRedirect (w_env (pg_world (mkPage (initial WEB (Some false)) false true [] None)))
    (mkRecharge "ORD1" None None None) = RedirectThrows ErrPayUrl /\
  pg_paymentPending
    (handleRechargeConfirm_created "TOK1" 1000 (Some (mkRecharge "ORD1" None None None))
       (mkPage (initial WEB (Some false)) false true [] None)).1 = false.
Proof.
  split; [reflexivity|].
  exact (proj1 (failed_redirect_outcome "TOK1" 1000 (mkRecharge "ORD1" None None None)
                  (mkPage (initial WEB (Some false)) false true [] None) ErrPayUrl eq_refl)).
Defined.

(** X11: [handleManualCheckPayment] on a page whose manager holds a
    session, once the status query is settled.  A rejected query changes
    neither the session nor the pending state.  A complete response with
    the session's attach ends the session and the pending state.  A
    complete response with another attach ends the session but leaves the
    pending state as it was.  An incomplete response keeps the session, and
    ends the pending state exactly when it carries a non-empty [payTime]. *)
Theorem manual_check_page_outcome (out : Outcome) (pg : Page) (s : PaymentState) :
  w_state (pg_world pg) = Some s ->
  match out with
  | Rejected =>
    w_state (pg_world (handleManualCheckPayment_resume out pg)) = Some s /\
    pg_paymentPending (handleManualCheckPayment_resume out pg) = pg_paymentPending pg
  | Resolved r =>
    match classify r (s_attach s) with
    | Verified =>
      w_state (pg_world (handleManualCheckPayment_resume out pg)) = None /\
      pg_paymentPending (handleManualCheckPayment_resume out pg) = false
    | Mismatched =>
      w_state (pg_world (handleManualCheckPayment_resume out pg)) = None /\
      pg_paymentPending (handleManualCheckPayment_resume out pg) = pg_paymentPending pg
    | Incomplete =>
      w_state (pg_world (handleManualCheckPayment_resume out pg)) = Some s /\
      pg_paymentPending (handleManualCheckPayment_resume out pg) =
        (if truthy_str (r_payTime r) then false else pg_paymentPending pg)
    end
  end.
Proof.
  intros Hs. unfold handleManualCheckPayment_resume, manualCheckPaymentStatus_resume.
  destruct out as [r|]; [|now simpl].
  unfold classify. destruct (isPaymentComplete r) eqn:Hc.
  - rewrite Hs. destruct (attach_differs r (s_attach s)); simpl.
    + split; [apply cleanup_state | done].
    + split; [apply cleanup_state |].
      unfold isPaymentComplete in Hc. apply andb_prop in Hc as [Hc _].
      apply andb_prop in Hc as [_ Hc]. now rewrite Hc.
  - simpl. done.
Qed.

Lemma manual_check_page_outcome_witness :
  w_state (pg_world (mkPage c9_session true false [] None)) =
    Some (mkState "ORD1" "TOK1" 1000 true None None (Some cb123)) /\
  w_state (pg_world (handleManualCheckPayment_resume (Resolved (paid "TOK2"))
                       (mkPage c9_session true false [] None))) = None /\
  pg_paymentPending (handleManualCheckPayment_resume (Resolved (paid "TOK2"))
                       (mkPage c9_session true false [] None)) = true.
Proof.
  split; [vm_compute; reflexivity|].
  exact (manual_check_page_outcome (Resolved (paid "TOK2"))
           (mkPage c9_session true false [] None)
           (mkState "ORD1" "TOK1" 1000 true None None (Some cb123)) eq_refl).
Defined.

(** X12: in the mini-program, whatever has happened before: when the jump
    to the payment mini-program fails, [handleRechargeConfirm] leaves the
    manager without session and without any closure still polling, calls
    no callback, ends the pending state and reports the failed jump. *)
Theorem failed_jump_ends_session (document : option bool) (evs : list Event) (pg : Page) :
  pg_world pg = run evs (initial WEAPP document) ->
  w_state (pg_world (handleRechargeConfirm_jumped false pg)) = None /\
  active_engines (pg_world (handleRechargeConfirm_jumped false pg)) = [] /\
  w_trace (pg_world (handleRechargeConfirm_jumped false pg)) = w_trace (pg_world pg) /\
  pg_paymentPending (handleRechargeConfirm_jumped false pg) = false /\
  pg_toasts (handleRechargeConfirm_jumped false pg) =
    pg_toasts pg ++ [PToastFailure (Some ErrJump)].
Proof.
  intros Hw.
  assert (w_env (pg_world pg) = WEAPP) as Henv by (rewrite Hw; apply env_run).
  assert (single_loop (pg_world pg)) as Hj.
  { rewrite Hw. apply single_run, single_initial. now left. }
  unfold handleRechargeConfirm_jumped; simpl. rewrite Henv; simpl.
  destruct (single_cleanup _ Hj) as (_ & Hq & _).
  split; [apply cleanup_state|]. split; [now apply quiet_no_active|].
  split; [apply cleanup_trace|]. done.
Qed.

Lemma failed_jump_ends_session_witness :
  pg_world (mkPage (run [EStartPayment "ORD1" "TOK1" 1000 page_callbacks]
                      (initial WEAPP None)) true false [] None) =
    run [EStartPayment "ORD1" "TOK1" 1000 page_callbacks] (initial WEAPP None) /\
  w_state (pg_world (handleRechargeConfirm_jumped false
             (mkPage (run [EStartPayment "ORD1" "TOK1" 1000 page_callbacks]
                        (initial WEAPP None)) true false [] None))) = None.
Proof.
  split; [reflexivity|].
  exact (proj1 (failed_jump_ends_session None
                  [EStartPayment "ORD1" "TOK1" 1000 page_callbacks]
                  (mkPage (run [EStartPayment "ORD1" "TOK1" 1000 page_callbacks]
                             (initial WEAPP None)) true false [] None) eq_refl)).
Defined.

(** ** Starting a session where no listener can be registered *)

(** X13: where no DOM listener can be registered (not a browser, or no
    document), [startPayment] after any history leaves exactly the new
    session, with no cleanup function of a loop and the callbacks stored
    only in the mini-program; no closure is polling any more, and no
    query or callback was made by the call. *)
Theorem startPayment_without_listeners (env : EnvType) (document : option bool)
    (evs : list Event) (o a : string) (m : Z) (callbacks : Callbacks) :
  env <> WEB \/ document = None ->
  w_state (step (EStartPayment o a m callbacks) (run evs (initial env document))) =
    Some (mkState o a m true None None
            match env with WEAPP => Some callbacks | _ => None end) /\
  active_engines (step (EStartPayment o a m callbacks) (run evs (initial env document))) = [] /\
  w_trace (step (EStartPayment o a m callbacks) (run evs (initial env document))) =
    w_trace (run evs (initial env document)).
Proof.
  intros Hn.
  pose proof (single_run evs _ (single_initial env document Hn)) as Hj.
  pose proof (env_run evs (initial env document)) as Henv. simpl in Henv.
  set (w := run evs (initial env document)) in *.
  destruct (single_cleanup w Hj) as ((Hnl & _) & Hq & He & Hd).
  pose proof (cleanup_trace w) as Htr.
  rewrite Henv in He.
  simpl. unfold startPayment, setupVisibilityChangeHandler, setupAppShowHandler, upd_state.
  simpl. rewrite He.
  destruct env; simpl; rewrite ?He; simpl.
  - destruct Hnl as [Hnl|Hnl]; [congruence|]. rewrite Hnl. simpl. rewrite He. simpl.
    split; [done|]. split; [|done]. now apply quiet_no_active.
  - split; [done|]. split; [|done]. now apply quiet_no_active.
  - split; [done|]. split; [|done]. now apply quiet_no_active.
Qed.

Lemma startPayment_without_listeners_witness :
  (WEAPP <> WEB \/ Some false = None) /\
  active_engines (step (EStartPayment "ORD2" "TOK2" 2000 cb456)
    (run [EStartPayment "ORD1" "TOK1" 1000 cb123; EHandlePageShow;
          EResponse 1 (Resolved unpaid)] (initial WEAPP (Some false)))) = [].
Proof.
  split; [left; discriminate|].
  exact (proj1 (proj2 (startPayment_without_listeners WEAPP (Some false)
    [EStartPayment "ORD1" "TOK1" 1000 cb123; EHandlePageShow;
     EResponse 1 (Resolved unpaid)] "ORD2" "TOK2" 2000 cb456
    (or_introl (fun H : WEAPP = WEB => eq_ind WEAPP
       (fun e => match e with WEAPP => True | _ => False end) I WEB H))))).
Defined.

(** ** Neither browser nor mini-program *)

Section ManualOnly.

Lemma manual_observe o w : manual_obs o -> manual_only w -> manual_only (observe o w).
Proof.
  intros Ho (He & Hen & Ht & Hv & Hf & Hs & Hq & Htr).
  unfold manual_only; simpl. split_and!; try done.
  apply Forall_app. split; [done|]. now apply Forall_singleton.
Qed.

Lemma manual_set_state st w :
  (forall s, st = Some s ->
     s_pollingCleanup s = None /\ s_visibilityChangeHandler s = None /\
     s_callbacks s = None) ->
  manual_only w -> manual_only (set_state st w).
Proof.
  intros Hst (He & Hen & Ht & Hv & Hf & Hs & Hq & Htr).
  unfold manual_only; simpl. split_and!; done.
Qed.

Lemma manual_cleanup w : manual_only w -> manual_only (cleanup w).
Proof.
  intros Hm. pose proof Hm as (He & Hen & Ht & Hv & Hf & Hs & Hq & Htr).
  unfold cleanup. destruct (w_state w) as [s|] eqn:Hst; [|done].
  destruct (Hs s eq_refl) as (Hc & Hh & _). rewrite Hc, Hh.
  now apply manual_set_state.
Qed.

Lemma manual_step ev w : manual_only w -> manual_only (step ev w).
Proof.
  intros Hm. pose proof Hm as (He & Hen & Ht & Hv & Hf & Hs & Hq & Htr).
  destruct ev; simpl.
  - apply manual_cleanup in Hm.
    unfold startPayment. simpl. rewrite env_cleanup, He. simpl.
    rewrite env_cleanup, He.
    apply manual_set_state; [|done]. now intros s [= <-].
  - unfold handlePageShow. rewrite He. now repeat case_match.
  - now apply manual_cleanup.
  - unfold manualCheckPaymentStatus. destruct (w_state w) as [s|] eqn:Hst; simpl.
    + unfold getPaymentStatus. apply manual_observe; [done|].
      unfold manual_only; simpl. split_and!; try done;
        try (intros s0 Hs0; apply Hs; congruence).
      intros q a. destruct (decide (q = w_nextRequest w)) as [->|Hne].
      * rewrite lookup_insert_eq. congruence.
      * rewrite lookup_insert_ne by done. apply Hq.
    + now apply manual_observe.
  - destruct (w_document w); [|done]. simpl. rewrite Hv. simpl.
    unfold manual_only; simpl. split_and!; done.
  - destruct (w_document w); [|done]. rewrite Hf. done.
  - now rewrite Ht, lookup_empty.
  - destruct (w_requests w !! q) as [a|] eqn:Hl; [|done].
    rewrite (Hq q a Hl). simpl.
    assert (manual_only (set_requests (delete q (w_requests w)) (w_nextRequest w) w))
      as Hm1.
    { unfold manual_only; simpl. split_and!; try done. intros q' a'.
      destruct (decide (q' = q)) as [->|Hne].
      - now rewrite lookup_delete_eq.
      - rewrite lookup_delete_ne by done. apply Hq. }
    set (w1 := set_requests _ _ _) in *.
    unfold manualCheckPaymentStatus_resume.
    destruct out as [r|].
    + destruct (isPaymentComplete r).
      * destruct (w_state w1) as [s|] eqn:Hs1.
        -- destruct (attach_differs r (s_attach s)).
           ++ apply manual_observe; [done|]. apply manual_observe; [done|].
              now apply manual_cleanup.
           ++ apply manual_observe; [done|]. now apply manual_cleanup.
        -- apply manual_observe; [done|]. now apply manual_observe.
      * apply manual_observe; [done|]. now apply manual_observe.
    + apply manual_observe; [done|]. now apply manual_observe.
Qed.

Lemma manual_run evs w : manual_only w -> manual_only (run evs w).
Proof.
  unfold run. revert w. induction evs as [|ev evs IH]; intros w Hm; simpl; [done|].
  apply IH, manual_step, Hm.
Qed.

End ManualOnly.

(** X14: in an environment that is neither the browser nor the
    mini-program, whatever is called on the manager: no polling closure is
    ever created, no timer is ever pending, the session keeps none of the
    callbacks given to [startPayment], no callback is ever called, and
    every status query is one of [manualCheckPaymentStatus]. *)
Theorem other_environment_only_manual_check (document : option bool) (evs : list Event) :
  w_engines (run evs (initial OTHER document)) = [] /\
  w_timers (run evs (initial OTHER document)) = ∅ /\
  (forall s, w_state (run evs (initial OTHER document)) = Some s -> s_callbacks s = None) /\
  (forall k f p, ~ In (OCallback k f p) (w_trace (run evs (initial OTHER document)))) /\
  (forall a o, In (OQuery a o) (w_trace (run evs (initial OTHER document))) -> a = AManual).
Proof.
  assert (manual_only (initial OTHER document)) as Hi.
  { unfold manual_only; simpl. split_and!; done. }
  destruct (manual_run evs _ Hi) as (_ & Hen & Ht & _ & _ & Hs & _ & Htr).
  split; [done|]. split; [done|]. split; [intros s Hst; now apply Hs|].
  pose proof (proj1 (List.Forall_forall _ _) Htr) as Hall. split.
  - intros k f p Hin. exact (Hall _ Hin).
  - intros a o Hin. exact (Hall _ Hin).
Qed.

(** ** The redirect *)

(** X15: [handlePaymentRedirect] never navigates to a missing or empty
    target.  The page location is set only in the browser, where
    [getPayEntrypoint] asks for an H5 order, and to the non-empty [h5.url]
    of the response; the jump is made only in the mini-program, where
    [getPayEntrypoint] asks for a mini-program order, and with the
    non-empty [miniapp.appid] and [miniapp.path] of the response.  In any
    other environment an H5 order is asked for, and the redirect throws. *)
Theorem redirect_needs_its_target (env : EnvType) (response : RechargeResponse) :
  match handlePaymentRedirect env response with
  | LocationSet url =>
    env = WEB /\ getPayEntrypoint env = H5Pay /\
    rr_h5_url response = Some url /\ url <> ""
  | NavigateAwaited appid path =>
    env = WEAPP /\ getPayEntrypoint env = MiniAppPay /\
    rr_miniapp_appid response = Some appid /\ rr_miniapp_path response = Some path /\
    appid <> "" /\ path <> ""
  | RedirectThrows e =>
    match env with
    | WEB => e = ErrPayUrl /\ (rr_h5_url response = None \/ rr_h5_url response = Some "")
    | WEAPP =>
      e = ErrMiniappParams /\
      (rr_miniapp_appid response = None \/ rr_miniapp_appid response = Some "" \/
       rr_miniapp_path response = None \/ rr_miniapp_path response = Some "")
    | OTHER => e = ErrUnsupported /\ getPayEntrypoint env = H5Pay
    end
  end.
Proof.
  assert (forall x : string, negb (String.eqb x "") = true -> x <> "") as Hne.
  { intros x Hx ->. simpl in Hx. discriminate. }
  assert (forall x : string, negb (String.eqb x "") = false -> x = "") as Heq.
  { intros x Hx. apply negb_false_iff, String.eqb_eq in Hx. exact Hx. }
  unfold handlePaymentRedirect, truthy_str. destruct env.
  - destruct (rr_h5_url response) as [url|]; [|now split; [|left]].
    destruct (negb (String.eqb url "")) eqn:Hu.
    + split_and!; try done. now apply Hne.
    + split; [done|]. right. f_equal. now apply Heq.
  - destruct (rr_miniapp_appid response) as [appid|];
      [|destruct (rr_miniapp_path response); now split; [|left]].
    destruct (rr_miniapp_path response) as [path|];
      [|now split; [|right; right; left]].
    destruct (negb (String.eqb appid "")) eqn:Ha; simpl.
    + destruct (negb (String.eqb path "")) eqn:Hp.
      * split_and!; try done; now apply Hne.
      * split; [done|]. right; right; right. f_equal. now apply Heq.
    + split; [done|]. right; left. f_equal. now apply Heq.
  - now split.
Qed.
